(** * SACCO reporting system: report-generation service, models and routes

    A shallow embedding of
      - backend/services/reportGenerator.js (orchestrator, run against the
        Report model as the repository declares it; transformation
        pipeline; compliance scoring),
      - the Sequelize models Report, ReportTemplate and User (hooks and
        instance methods),
      - the download route of the reports router,
      - the routers that keep reports and users in memory
        (backend/routes/reports.js, backend/routes/auth.js),
      - the rate limiter and the API-key check of the auth middleware,
    together with the properties the specification states about them and
    further properties of the code. *)

From Stdlib Require Import ZArith Lia List Bool String Ascii.
From Stdlib Require Import SpecFloat DecimalString.
Import ListNotations.

Local Open Scope Z_scope.

(** ** JavaScript Numbers

    A JS Number is an IEEE 754 binary64 value.  The operations are those of
    the Standard Library's executable specification of binary floating point
    ([SpecFloat]) at precision 53 and maximal exponent 1024; NaN carries no
    payload, as in JS. *)
Module Num.

Definition prec : Z := 53.
Definition emax : Z := 1024.

Definition t := spec_float.

Definition nan : t := S754_nan.
Definition zero : t := S754_zero false.

(** The Number nearest to an integer (exact below 2^53). *)
Definition of_Z (z : Z) : t := binary_normalize prec emax z 0 false.
Definition of_nat (n : nat) : t := of_Z (Z.of_nat n).

Definition one : t := Eval vm_compute in of_Z 1.
Definition two : t := Eval vm_compute in of_Z 2.
Definition hundred : t := Eval vm_compute in of_Z 100.

Definition add : t -> t -> t := SFadd prec emax.
Definition sub : t -> t -> t := SFsub prec emax.
Definition mul : t -> t -> t := SFmul prec emax.
Definition div : t -> t -> t := SFdiv prec emax.
Definition eqb : t -> t -> bool := SFeqb.
Definition ltb : t -> t -> bool := SFltb.

Definition is_nan (x : t) : bool :=
  match x with S754_nan => true | _ => false end.

Definition is_zero (x : t) : bool :=
  match x with S754_zero _ => true | _ => false end.

Definition eq_dec (x y : t) : {x = y} + {x <> y}.
Proof.
  decide equality; first [apply Z.eq_dec | apply Pos.eq_dec | apply Bool.bool_dec].
Defined.

(** [Math.round]: the integral Number closest to [x], ties going towards
    +infinity; NaN, the infinities and the zeros are returned unchanged, a
    result of zero keeps the sign of [x]. *)
Definition round (x : t) : t :=
  match x with
  | S754_finite s m e =>
      if 0 <=? e then x
      else
        let n := - e in
        let k := ((if s then Z.neg m else Z.pos m) + 2 ^ (n - 1)) / 2 ^ n in
        if k =? 0 then S754_zero s else of_Z k
  | _ => x
  end.

(** The integer a Number denotes, when it denotes one. *)
Definition to_Z (x : t) : option Z :=
  match x with
  | S754_zero _ => Some 0
  | S754_finite s m e =>
      if 0 <=? e then Some ((if s then Z.neg m else Z.pos m) * 2 ^ e)
      else if (Z.pos m mod 2 ^ (- e)) =? 0
           then Some ((if s then Z.neg m else Z.pos m) / 2 ^ (- e))
           else None
  | _ => None
  end.

End Num.

(** ** JavaScript values and objects

    The values a flat record can hold, or that a property read on a plain
    object can produce.  A read of a name the object does not own continues
    on [Object.prototype]: it produces one of the built-in objects below when
    the name is one of the prototype's own, and [undefined] otherwise. *)
Module JS.

(** The built-in objects reachable from a plain object by name. *)
Inductive builtin : Type :=
| ObjectPrototype                 (* through the accessor __proto__ *)
| ObjectConstructor               (* constructor *)
| ProtoMethod (name : string).    (* hasOwnProperty, toString, ... *)

Inductive value : Type :=
| VUndefined
| VNull
| VBool (b : bool)
| VNum (x : Num.t)
| VStr (s : string)
| VObj (b : builtin).

(** Outcome of a piece of JS code: a value, a thrown TypeError, or
    [Unmodelled] once the call has assigned to a property of
    [Object.prototype] itself: every later property lookup of the process
    then depends on that write, and the model stops there. *)
Inductive result (A : Type) : Type :=
| Ok (a : A)
| TypeError
| Unmodelled.
Arguments Ok {A} a.
Arguments TypeError {A}.
Arguments Unmodelled {A}.

Definition bind {A B} (r : result A) (k : A -> result B) : result B :=
  match r with
  | Ok a => k a
  | TypeError => TypeError
  | Unmodelled => Unmodelled
  end.

Declare Scope js_scope.
Delimit Scope js_scope with js.
Notation "x <- r ;; k" := (bind r (fun x => k))
  (at level 61, r at next level, right associativity) : js_scope.
Notation "r ;;; k" := (bind r (fun _ => k))
  (at level 61, right associativity) : js_scope.

(** A plain object: its own enumerable properties in creation order. *)
Definition obj : Type := list (string * value).

(** What belongs to the engine rather than to the repository: the Number
    to String and String to Number conversions, the source text a built-in
    function converts to, whether a read-modify-write of a property of a
    built-in function object completes (a read-only property or a poisoned
    accessor makes it throw in strict code, and class bodies are strict), and
    [Array.prototype.sort]. *)
Class Engine : Type := {
  number_to_string : Num.t -> string;
  string_to_number : string -> Num.t;
  function_source : builtin -> string;
  builtin_update_ok : builtin -> string -> bool;
  array_sort : (obj -> obj -> Num.t) -> list obj -> list obj
}.

Definition proto_methods : list string :=
  [ "__defineGetter__"; "__defineSetter__"; "hasOwnProperty";
    "__lookupGetter__"; "__lookupSetter__"; "isPrototypeOf";
    "propertyIsEnumerable"; "toString"; "valueOf"; "toLocaleString" ]%string.

(** The own properties of [Object.prototype], by name. *)
Definition inherited (k : string) : option builtin :=
  if (k =? "__proto__")%string then Some ObjectPrototype
  else if (k =? "constructor")%string then Some ObjectConstructor
  else if existsb (String.eqb k) proto_methods then Some (ProtoMethod k)
  else None.

Fixpoint own {V : Type} (o : list (string * V)) (k : string) : option V :=
  match o with
  | [] => None
  | (k', v) :: o' => if (k' =? k)%string then Some v else own o' k
  end.

(** [o[k]] for a plain object. *)
Definition get (o : obj) (k : string) : value :=
  match own o k with
  | Some v => v
  | None =>
      match inherited k with
      | Some b => VObj b
      | None => VUndefined
      end
  end.

Fixpoint overwrite {V : Type} (o : list (string * V)) (k : string) (v : V)
  : list (string * V) :=
  match o with
  | [] => []
  | (k', v') :: o' =>
      if (k' =? k)%string then (k', v) :: o' else (k', v') :: overwrite o' k v
  end.

(** [o[k] = v] for a plain object and a primitive [v]: an own property is
    overwritten in place, a new one is appended, and the inherited setter
    [__proto__] ignores a primitive. *)
Definition set (o : obj) (k : string) (v : value) : obj :=
  match own o k with
  | Some _ => overwrite o k v
  | None => if (k =? "__proto__")%string then o else o ++ [(k, v)]
  end.

Definition builtin_eqb (a b : builtin) : bool :=
  match a, b with
  | ObjectPrototype, ObjectPrototype => true
  | ObjectConstructor, ObjectConstructor => true
  | ProtoMethod n, ProtoMethod m => (n =? m)%string
  | _, _ => false
  end.

Definition truthy (v : value) : bool :=
  match v with
  | VUndefined | VNull => false
  | VBool b => b
  | VNum x => negb (Num.is_nan x || Num.is_zero x)
  | VStr s => negb (s =? EmptyString)%string
  | VObj _ => true
  end.

(** [===] *)
Definition strict_equal (v w : value) : bool :=
  match v, w with
  | VUndefined, VUndefined => true
  | VNull, VNull => true
  | VBool a, VBool b => Bool.eqb a b
  | VNum x, VNum y => Num.eqb x y
  | VStr s, VStr t => (s =? t)%string
  | VObj a, VObj b => builtin_eqb a b
  | _, _ => false
  end.

(** [String.prototype.includes] *)
Fixpoint includes (s t : string) : bool :=
  if String.prefix t s then true
  else match s with
       | EmptyString => false
       | String _ s' => includes s' t
       end.

Section Conversions.
Context {E : Engine}.

Definition builtin_string (b : builtin) : string :=
  match b with
  | ObjectPrototype => "[object Object]"
  | _ => function_source b
  end.

Definition to_primitive (v : value) : value :=
  match v with
  | VObj b => VStr (builtin_string b)
  | _ => v
  end.

Definition to_string (v : value) : string :=
  match v with
  | VUndefined => "undefined"
  | VNull => "null"
  | VBool true => "true"
  | VBool false => "false"
  | VNum x => number_to_string x
  | VStr s => s
  | VObj b => builtin_string b
  end.

Definition to_number (v : value) : Num.t :=
  match v with
  | VUndefined => Num.nan
  | VNull => Num.zero
  | VBool true => Num.one
  | VBool false => Num.zero
  | VNum x => x
  | VStr s => string_to_number s
  | VObj b => string_to_number (builtin_string b)
  end.

(** [a < b]; [a > b] is [js_lt b a]. *)
Definition js_lt (a b : value) : bool :=
  match to_primitive a, to_primitive b with
  | VStr s, VStr t => String.ltb s t
  | pa, pb => Num.ltb (to_number pa) (to_number pb)
  end.

(** [a + b] *)
Definition js_add (a b : value) : value :=
  match to_primitive a, to_primitive b with
  | VStr s, pb => VStr (s ++ to_string pb)
  | pa, VStr t => VStr (to_string pa ++ t)
  | pa, pb => VNum (Num.add (to_number pa) (to_number pb))
  end.

(** [v.toString()] *)
Definition method_toString (v : value) : result string :=
  match v with
  | VUndefined | VNull => TypeError
  | _ => Ok (to_string v)
  end.

End Conversions.

End JS.

(** ** services/reportGenerator.js: the transformation pipeline *)
Module Pipeline.
Import JS.
Local Open Scope js_scope.
Local Open Scope string_scope.

(** One filter criterion [{ field, operator, value }]. *)
Record criterion : Type := {
  field : string;
  operator : string;
  cvalue : value
}.

(** One entry of [aggregateFields]: [{ name, operation, sourceField }]. *)
Record aggregateField : Type := {
  name : string;
  operation : string;
  sourceField : string
}.

(** A transformation step, by its [type]; a step of any other type falls
    through the switch. *)
Inductive transformation : Type :=
| Filter (criteria : list criterion)
| Sort (sort_field : string) (order : string)
| Aggregate (groupBy : string) (aggregateFields : list aggregateField)
| OtherStep.

(** [Array.prototype.every]: stops at the first callback result that is
    false, or at the first exception. *)
Fixpoint every {A : Type} (f : A -> result bool) (l : list A) : result bool :=
  match l with
  | [] => Ok true
  | x :: l' => b <- f x ;; if b then every f l' else Ok false
  end.

(** [Array.prototype.filter] *)
Fixpoint array_filter {A : Type} (f : A -> result bool) (l : list A)
  : result (list A) :=
  match l with
  | [] => Ok []
  | x :: l' =>
      b <- f x ;;
      r <- array_filter f l' ;;
      Ok (if b then x :: r else r)
  end.

(** [Array.prototype.forEach] over a state. *)
Fixpoint for_each {A S : Type} (f : S -> A -> result S) (l : list A) (s : S)
  : result S :=
  match l with
  | [] => Ok s
  | x :: l' => s' <- f s x ;; for_each f l' s'
  end.

(** An array index: the canonical decimal form of an integer below 2^32 - 1.
    [Object.values] lists such keys first, in ascending order. *)
Definition digit_of (c : ascii) : option N :=
  let n := N_of_ascii c in
  if ((48 <=? n) && (n <=? 57))%N then Some (n - 48)%N else None.

Fixpoint parse_digits (s : string) (acc : N) : option N :=
  match s with
  | EmptyString => Some acc
  | String c s' =>
      match digit_of c with
      | Some d => parse_digits s' (10 * acc + d)%N
      | None => None
      end
  end.

Definition array_index (s : string) : option N :=
  match s with
  | EmptyString => None
  | String c s' =>
      if (c =? "0")%char && negb (s' =? EmptyString) then None
      else if (10 <? String.length s)%nat then None
      else match parse_digits s 0 with
           | Some n => if (n <=? 4294967294)%N then Some n else None
           | None => None
           end
  end.

Fixpoint insert_by_index {A : Type} (e : N * A) (l : list (N * A))
  : list (N * A) :=
  match l with
  | [] => [e]
  | x :: l' => if (fst e <? fst x)%N then e :: l else x :: insert_by_index e l'
  end.

(** [Object.values]: array-index keys in ascending order, then the other
    keys in creation order. *)
Definition object_values {A : Type} (o : list (string * A)) : list A :=
  let indexed :=
    fold_right (fun kv acc =>
                  match array_index (fst kv) with
                  | Some n => insert_by_index (n, snd kv) acc
                  | None => acc
                  end) [] o in
  let named :=
    List.filter (fun kv => match array_index (fst kv) with
                           | Some _ => false
                           | None => true
                           end) o in
  map snd indexed ++ map snd named.

Section WithEngine.
Context {E : Engine}.

(** The callback of [criteria.every] in [evaluateFilter]. *)
Definition evaluateCriterion (item : obj) (c : criterion) : result bool :=
  let itemValue := get item (field c) in
  if operator c =? "equals" then Ok (strict_equal itemValue (cvalue c))
  else if operator c =? "greater" then Ok (js_lt (cvalue c) itemValue)
  else if operator c =? "less" then Ok (js_lt itemValue (cvalue c))
  else if operator c =? "contains" then
    s <- method_toString itemValue ;;
    Ok (includes s (to_string (cvalue c)))
  else Ok true.

Definition evaluateFilter (item : obj) (criteria : list criterion)
  : result bool :=
  every (evaluateCriterion item) criteria.

(** [grouped[key] = { [groupBy]: key }] followed by the loop that sets every
    aggregate field to 0. *)
Definition new_group (groupBy : string) (key : value)
  (aggregateFields : list aggregateField) : obj :=
  fold_left (fun g f => set g (name f) (VNum Num.zero)) aggregateFields
    [(groupBy, key)].

(** The switch on [field.operation], on a group of [grouped]. *)
Definition accumulate (item : obj) (g : obj) (f : aggregateField) : obj :=
  if operation f =? "sum" then
    set g (name f) (js_add (get g (name f)) (get item (sourceField f)))
  else if operation f =? "count" then
    set g (name f) (VNum (Num.add (to_number (get g (name f))) Num.one))
  else if operation f =? "avg" then
    set g (name f)
      (VNum (Num.div
               (to_number (js_add (get g (name f)) (get item (sourceField f))))
               Num.two))
  else g.

(** The same switch when [grouped[key]] resolved to a built-in object:
    nothing changes in [grouped]. *)
Definition accumulate_builtin (b : builtin) (_ : unit) (f : aggregateField)
  : result unit :=
  if (operation f =? "sum") || (operation f =? "count")
     || (operation f =? "avg")
  then match b with
       | ObjectPrototype => Unmodelled
       | _ => if builtin_update_ok b (name f) then Ok tt else TypeError
       end
  else Ok tt.

(** The body of [data.forEach] in [aggregateData]; [grouped] is the object
    literal [{}], so that [grouped[key]] also sees the names it inherits. *)
Definition aggregate_item (groupBy : string)
  (aggregateFields : list aggregateField)
  (grouped : list (string * obj)) (item : obj)
  : result (list (string * obj)) :=
  let key := get item groupBy in
  let k := to_string key in
  match own grouped k with
  | Some g =>
      Ok (overwrite grouped k (fold_left (accumulate item) aggregateFields g))
  | None =>
      match inherited k with
      | Some b =>
          for_each (accumulate_builtin b) aggregateFields tt ;;;
          Ok grouped
      | None =>
          Ok (grouped ++
              [(k, fold_left (accumulate item) aggregateFields
                     (new_group groupBy key aggregateFields))])%list
      end
  end.

Definition aggregateData (data : list obj) (groupBy : string)
  (aggregateFields : list aggregateField) : result (list obj) :=
  grouped <- for_each (aggregate_item groupBy aggregateFields) data [] ;;
  Ok (object_values grouped).

(** The comparator handed to [processedData.sort]. *)
Definition sort_comparator (sort_field order : string) (a b : obj) : Num.t :=
  let aValue := get a sort_field in
  let bValue := get b sort_field in
  if order =? "desc" then Num.sub (to_number bValue) (to_number aValue)
  else Num.sub (to_number aValue) (to_number bValue).

Definition applyTransformation (processedData : list obj)
  (t : transformation) : result (list obj) :=
  match t with
  | Filter criteria =>
      array_filter (fun item => evaluateFilter item criteria) processedData
  | Sort f order => Ok (array_sort (sort_comparator f order) processedData)
  | Aggregate groupBy aggregateFields =>
      aggregateData processedData groupBy aggregateFields
  | OtherStep => Ok processedData
  end.

Definition applyTemplateTransformations (data : list obj)
  (transformations : list transformation) : result (list obj) :=
  for_each applyTransformation transformations data.

End WithEngine.

End Pipeline.

(** ** services/reportGenerator.js: compliance scoring *)
Module Compliance.
Local Open Scope string_scope.

(** One element of [data.checks], as [fetchComplianceData] builds it. *)
Record check : Type := {
  regulation : string;
  status : string;
  details : string;
  severity : string
}.

Record complianceData : Type := {
  period : string;
  regulations : list string;
  institutions : list string;
  checks : list check
}.

Record complianceResults : Type := {
  overallScore : Num.t;
  violations : list check;
  compliantChecks : list check;
  totalChecks : Num.t
}.

(** [array.length] *)
Definition length_of {A : Type} (l : list A) : Num.t :=
  Num.of_nat (List.length l).

Definition processComplianceChecks (data : complianceData)
  (regulations : list string) : complianceResults :=
  let violations :=
    filter (fun check => status check =? "violation") (checks data) in
  let compliantChecks :=
    filter (fun check => status check =? "compliant") (checks data) in
  let overallScore :=
    Num.round
      (Num.mul (Num.div (length_of compliantChecks) (length_of (checks data)))
               Num.hundred) in
  {| overallScore := overallScore;
     violations := violations;
     compliantChecks := compliantChecks;
     totalChecks := length_of (checks data) |}.

End Compliance.

(** ** models/Report.js: the Report model *)
Module ReportModel.
Local Open Scope string_scope.
Local Open Scope Z_scope.

(** [DataTypes.ENUM('pending', 'generating', 'completed', 'failed')] *)
Definition status_enum : list string :=
  ["pending"; "generating"; "completed"; "failed"].

Definition is_status (s : string) : bool :=
  existsb (String.eqb s) status_enum.

(** A local calendar date: [getFullYear()], [getMonth()] (0 to 11) and
    [getDate()].  [new Date(y, m, d)] is midnight of that day. *)
Record date : Type := { year : Z; month : Z; day : Z }.

Definition is_leap (y : Z) : bool :=
  ((y mod 4 =? 0) && negb (y mod 100 =? 0)) || (y mod 400 =? 0).

Definition days_in_month (y m : Z) : Z :=
  if m =? 1 then (if is_leap y then 29 else 28)
  else if (m =? 3) || (m =? 5) || (m =? 8) || (m =? 10) then 30
  else 31.

Definition next_month (y m : Z) : Z * Z :=
  if m =? 11 then (y + 1, 0) else (y, m + 1).

Definition prev_month (y m : Z) : Z * Z :=
  if m =? 0 then (y - 1, 11) else (y, m - 1).

(** Days beyond the end of the month run into the following months, days
    before the first into the preceding ones. *)
Fixpoint roll (fuel : nat) (y m d : Z) : date :=
  match fuel with
  | O => {| year := y; month := m; day := d |}
  | S fuel' =>
      if d <? 1 then
        let '(y', m') := prev_month y m in
        roll fuel' y' m' (d + days_in_month y' m')
      else if days_in_month y m <? d then
        let '(y', m') := next_month y m in
        roll fuel' y' m' (d - days_in_month y m)
      else {| year := y; month := m; day := d |}
  end.

(** The days a Date can hold: 20 April -271821 to 13 September 275760. *)
Definition representable (c : date) : bool :=
  let key c := (year c * 12 + month c) * 32 + day c in
  (((-271821) * 12 + 3) * 32 + 20 <=? key c)
  && (key c <=? (275760 * 12 + 8) * 32 + 13).

(** [new Date(y, m, d)] with integer arguments: a year from 0 to 99 means
    1900 + y, months outside 0..11 carry into the year, days outside the
    month carry into the months; [None] is Invalid Date. *)
Definition new_Date (y m d : Z) : option date :=
  let yr := if (0 <=? y) && (y <=? 99) then 1900 + y else y in
  let c := roll (S (Z.to_nat (Z.abs d))) (yr + m / 12) (m mod 12) d in
  if representable c then Some c else None.

(** The attributes of a Report instance that the hook reads and writes. *)
Record Report : Type := {
  type : string;
  dueDate : option date
}.

(** [hooks.beforeCreate]; [now] is [new Date()]. *)
Definition beforeCreate (now : date) (report : Report) : Report :=
  match dueDate report with
  | Some _ => report
  | None =>
      if (type report =? "monthly")%string then
        {| type := type report;
           dueDate := new_Date (year now) (month now + 1) 15 |}
      else if (type report =? "quarterly")%string then
        let quarter := month now / 3 in
        {| type := type report;
           dueDate := new_Date (year now) ((quarter + 1) * 3) 30 |}
      else if (type report =? "annual")%string then
        {| type := type report;
           dueDate := new_Date (year now + 1) 2 31 |}
      else report
  end.

End ReportModel.

(** ** services/reportGenerator.js: the orchestrator

    [generateReport] runs against the reports table and the socket; both are
    kept in an explicit world, together with a clock for [new Date()].  A
    thrown exception leaves the world as it is at the throw.

    The rows are those of the Report model of models/Report.js: its
    attributes, its timestamps ([timestamps: true], [paranoid: true]) and
    its associations.  Of Sequelize the model keeps what decides a run: an
    [include] under an alias that the model does not declare is rejected
    before any query; an UPDATE writes the attributes that the model
    declares and no others; a status outside the ENUM of the column is
    refused; a row that is soft-deleted is neither found nor updated.  The
    database is taken to be reachable. *)
Module Orchestrator.
Local Open Scope string_scope.

Record ReportTemplate : Type := {
  template_id : Z;
  configuration : string
}.

(** A row of the reports table: the attributes that [sequelize.define]
    declares, then [createdAt], [updatedAt] and [deletedAt].  JSONB and
    DECIMAL values are kept as their text. *)
Record Report : Type := {
  id : Z;
  title : string;
  type : string;
  status : string;
  description : option string;
  data : option string;
  templateId : option Z;
  fileUrl : option string;
  fileSize : option Z;
  generatedBy : Z;
  approvedBy : option Z;
  approvedAt : option nat;
  complianceScore : option string;
  sasraSubmissionId : option string;
  submittedAt : option nat;
  dueDate : option nat;
  metadata : option string;
  version : Z;
  isActive : bool;
  createdAt : nat;
  updatedAt : nat;
  deletedAt : option nat
}.

(** [Report.associate]: the target and the alias of each association. *)
Definition associations : list (string * string) :=
  [("User", "creator"); ("User", "approver");
   ("ReportTemplate", "reportTemplate")].

(** An instance that [findByPk] returns: the row, and the template that the
    [include] loads as [report.template]. *)
Record instance : Type := {
  row : Report;
  template : option ReportTemplate
}.

(** The values that the service passes to [update]. *)
Record values : Type := {
  to_status : option string;
  to_startedAt : option nat;
  to_completedAt : option nat;
  to_outputFile : option string;
  to_metadata : option string;
  to_errorMessage : option string
}.

(** What a generation strategy returns: [result.filePath] and
    [JSON.stringify(result.metadata)]. *)
Record generated : Type := {
  filePath : string;
  metadata_json : string
}.

(** A thrown [Error]. *)
Record error : Type := { message : string }.

(** The payload of [io.emit('reportStatusUpdate', ...)]. *)
Record statusUpdate : Type := {
  reportId : Z;
  update_status : string;
  update_message : string;
  downloadUrl : option string
}.

(** What the outside observes, oldest first: a socket emission, or a
    strategy being entered with the report instance it is handed. *)
Inductive effect : Type :=
| Emit (u : statusUpdate)
| StrategyRun (kind : string) (report : instance).

Record world : Type := {
  reports : list Report;
  templates : list ReportTemplate;
  trace : list effect;
  clock : nat
}.

Inductive outcome (A : Type) : Type :=
| Return (a : A)
| Throw (e : error).
Arguments Return {A} a.
Arguments Throw {A} e.

Definition M (A : Type) : Type := world -> outcome A * world.

Definition ret {A} (a : A) : M A := fun w => (Return a, w).
Definition throw {A} (e : error) : M A := fun w => (Throw e, w).

Definition bind {A B} (m : M A) (k : A -> M B) : M B :=
  fun w =>
    match m w with
    | (Return a, w') => k a w'
    | (Throw e, w') => (Throw e, w')
    end.

Definition try_catch {A} (m : M A) (handler : error -> M A) : M A :=
  fun w =>
    match m w with
    | (Return a, w') => (Return a, w')
    | (Throw e, w') => handler e w'
    end.

Declare Scope orch_scope.
Delimit Scope orch_scope with orch.
Notation "x <- m ;; k" := (bind m (fun x => k))
  (at level 61, m at next level, right associativity) : orch_scope.
Notation "m ;;; k" := (bind m (fun _ => k))
  (at level 61, right associativity) : orch_scope.
Local Open Scope orch_scope.

(** [new Date()] *)
Definition now : M nat :=
  fun w => (Return (clock w),
            {| reports := reports w; templates := templates w;
               trace := trace w; clock := S (clock w) |}).

Definition log (e : effect) : M unit :=
  fun w => (Return tt,
            {| reports := reports w; templates := templates w;
               trace := trace w ++ [e]; clock := clock w |}).

(** [io.emit('reportStatusUpdate', u)] *)
Definition emit (u : statusUpdate) : M unit := log (Emit u).

(** The errors that Sequelize and the database raise; their texts are those
    of the libraries. *)
Class Sequelize : Type := {
  (** the [include] of a model under an alias that is not declared *)
  eagerLoadingError : string -> string -> error;
  (** a value that the ENUM of a column refuses *)
  enumError : string -> string -> error
}.

(** Decimal form of a report id, as a template literal prints it. *)
Definition string_of_id (z : Z) : string :=
  DecimalString.NilZero.string_of_int (Z.to_int z).

(** The generation strategies fetch, transform and render: file system,
    headless browser and random mock data.  Each is taken as what it comes
    to for a given report: a result, or a thrown error. *)
Class Strategies : Type := {
  (** [JSON.parse(report.parameters || '{}')] at the head of a strategy *)
  parseParameters : instance -> outcome unit;
  generateFinancialReport : instance -> outcome generated;
  generateComplianceReport : instance -> outcome generated;
  generateOperationalReport : instance -> outcome generated;
  (** [generateCustomReport] from the template on *)
  generateFromTemplate : instance -> ReportTemplate -> outcome generated
}.

(** [paranoid: true]: the queries see the rows that are not deleted. *)
Definition visible (r : Report) : bool :=
  match deletedAt r with
  | None => true
  | Some _ => false
  end.

(** What an UPDATE at the time [t] writes of the values.  [status] and
    [metadata] are attributes of the model; [startedAt], [completedAt],
    [outputFile] and [errorMessage] are not and are left out of the
    statement; [updatedAt] is set by Sequelize. *)
Definition store (v : values) (t : nat) (r : Report) : Report :=
  {| id := id r; title := title r; type := type r;
     status := match to_status v with
               | Some s => s
               | None => status r
               end;
     description := description r; data := data r;
     templateId := templateId r; fileUrl := fileUrl r;
     fileSize := fileSize r; generatedBy := generatedBy r;
     approvedBy := approvedBy r; approvedAt := approvedAt r;
     complianceScore := complianceScore r;
     sasraSubmissionId := sasraSubmissionId r;
     submittedAt := submittedAt r; dueDate := dueDate r;
     metadata := match to_metadata v with
                 | Some m => Some m
                 | None => metadata r
                 end;
     version := version r; isActive := isActive r;
     createdAt := createdAt r; updatedAt := t; deletedAt := deletedAt r |}.

(** The value that the column [status], an ENUM, refuses. *)
Definition refused (v : values) : option string :=
  match to_status v with
  | Some s => if ReportModel.is_status s then None else Some s
  | None => None
  end.

Definition write_rows (reportId : Z) (v : values) (t : nat) : M unit :=
  fun w =>
    (Return tt,
     {| reports := map (fun r => if (id r =? reportId)%Z && visible r
                                 then store v t r else r)
                       (reports w);
        templates := templates w; trace := trace w; clock := clock w |}).

Section WithSequelize.
Context {sequelize : Sequelize}.

(** [Report.findByPk(reportId, { include: [{ model, as }] })] *)
Definition findByPk (reportId : Z) (model alias : string)
  : M (option instance) :=
  if existsb (fun a => (fst a =? model) && (snd a =? alias)) associations
  then
    fun w =>
      (Return
         (option_map
            (fun r =>
               {| row := r;
                  template :=
                    match templateId r with
                    | Some i => find (fun t => (template_id t =? i)%Z)
                                     (templates w)
                    | None => None
                    end |})
            (find (fun r => (id r =? reportId)%Z && visible r) (reports w))),
       w)
  else throw (eagerLoadingError model alias).

(** [Report.update(values, { where: { id } })] *)
Definition update_where (reportId : Z) (v : values) : M unit :=
  match refused v with
  | Some s => throw (enumError "status" s)
  | None => t <- now ;; write_rows reportId v t
  end.

(** [report.update(values)] on an instance: the instance and its row. *)
Definition update (report : instance) (v : values) : M instance :=
  match refused v with
  | Some s => throw (enumError "status" s)
  | None =>
      t <- now ;;
      write_rows (id (row report)) v t ;;;
      ret {| row := store v t (row report); template := template report |}
  end.

Section WithStrategies.
Context {strategies : Strategies}.

Definition run (kind : string) (report : instance) (o : outcome generated)
  : M generated :=
  log (StrategyRun kind report) ;;; (fun w => (o, w)).

Definition generateCustomReport (report : instance) : M generated :=
  log (StrategyRun "custom" report) ;;;
  (fun w => (parseParameters report, w)) ;;;
  match template report with
  | None => throw {| message := "Custom report requires a template" |}
  | Some t => fun w => (generateFromTemplate report t, w)
  end.

(** The [switch (report.type)] of [generateReport]. *)
Definition dispatch (report : instance) : M generated :=
  let type := type (row report) in
  if type =? "financial" then
    run "financial" report (generateFinancialReport report)
  else if type =? "compliance" then
    run "compliance" report (generateComplianceReport report)
  else if type =? "operational" then
    run "operational" report (generateOperationalReport report)
  else if type =? "custom" then
    generateCustomReport report
  else
    throw {| message := "Unsupported report type: " ++ type |}.

(** The [try] block of [generateReport]. *)
Definition attempt (reportId : Z) : M generated :=
  found <- findByPk reportId "ReportTemplate" "template" ;;
  match found with
  | None => throw {| message := "Report not found" |}
  | Some report =>
      t <- now ;;
      report <- update report
                  {| to_status := Some "processing";
                     to_startedAt := Some t;
                     to_completedAt := None; to_outputFile := None;
                     to_metadata := None; to_errorMessage := None |} ;;
      emit {| reportId := id (row report);
              update_status := "processing";
              update_message := "Report generation started";
              downloadUrl := None |} ;;;
      result <- dispatch report ;;
      t' <- now ;;
      report <- update report
                  {| to_status := Some "completed";
                     to_startedAt := None;
                     to_completedAt := Some t';
                     to_outputFile := Some (filePath result);
                     to_metadata := Some (metadata_json result);
                     to_errorMessage := None |} ;;
      emit {| reportId := id (row report);
              update_status := "completed";
              update_message := "Report generated successfully";
              downloadUrl :=
                Some ("/api/reports/" ++ string_of_id (id (row report))
                      ++ "/download") |} ;;;
      ret result
  end.

(** The [catch] block of [generateReport]. *)
Definition recover (reportId : Z) (error : error) : M generated :=
  (if (reportId =? 0)%Z then ret tt
   else
     t <- now ;;
     update_where reportId
       {| to_status := Some "failed";
          to_startedAt := None;
          to_completedAt := Some t;
          to_outputFile := None;
          to_metadata := None;
          to_errorMessage := Some (message error) |} ;;;
     emit {| reportId := reportId;
             update_status := "failed";
             update_message := message error;
             downloadUrl := None |}) ;;;
  throw error.

Definition generateReport (reportId : Z) : M generated :=
  try_catch (attempt reportId) (recover reportId).

End WithStrategies.

End WithSequelize.

End Orchestrator.

(** ** middleware/auth.js and the download route of the reports router *)
Module ReportsRouter.
Import Orchestrator.
Local Open Scope string_scope.

(** A report instance as the download handler reads it.  The handler reads
    [outputFile] although models/Report.js declares no such attribute: on an
    instance of that model it is undefined, which is [None] here. *)
Record Report : Type := {
  id : Z;
  title : string;
  status : string;
  outputFile : option string
}.

(** The calls made on [res], in order. *)
Inductive res_call : Type :=
| Status (code : nat)
| Json (success : bool) (message : string) (error : option string)
| SetHeader (header value : string)
| Pipe (filePath : string).

Record User : Type := { user_id : Z; isActive : bool }.

(** [jwt.verify]: the decoded [userId], or a thrown error of some name. *)
Inductive verified : Type :=
| Decoded (userId : Z)
| VerifyError (name : string).

(** [String.prototype.split] on a one-character separator. *)
Fixpoint split (sep : ascii) (s : string) : list string :=
  match s with
  | EmptyString => [EmptyString]
  | String c s' =>
      if (c =? sep)%char then EmptyString :: split sep s'
      else match split sep s' with
           | [] => [String c EmptyString]
           | h :: t => String c h :: t
           end
  end.

(** [authHeader && authHeader.split(' ')[1]], as a token or a falsy value *)
Definition bearer_token (authHeader : option string) : option string :=
  match authHeader with
  | None => None
  | Some h =>
      if h =? EmptyString then None
      else match nth_error (split " " h) 1 with
           | Some t => if t =? EmptyString then None else Some t
           | None => None
           end
  end.

(** [authenticateToken]: the calls on [res] when it answers itself, or the
    user it hands to [next()]. *)
Definition authenticateToken (authHeader : option string)
  (verify : string -> verified)
  (findUser : Z -> outcome (option User)) : list res_call + User :=
  match bearer_token authHeader with
  | None => inl [Status 401; Json false "No token provided" None]
  | Some token =>
      match verify token with
      | Decoded userId =>
          match findUser userId with
          | Return (Some user) =>
              if isActive user then inr user
              else inl [Status 401;
                        Json false "Invalid token or user inactive" None]
          | Return None =>
              inl [Status 401; Json false "Invalid token or user inactive" None]
          | Throw _ =>
              inl [Status 500; Json false "Token verification failed" None]
          end
      | VerifyError name =>
          if name =? "TokenExpiredError" then
            inl [Status 401; Json false "Token expired" None]
          else if name =? "JsonWebTokenError" then
            inl [Status 401; Json false "Invalid token" None]
          else inl [Status 500; Json false "Token verification failed" None]
      end
  end.

Section Download.
(** [fs.existsSync], [path.join(__dirname, '../', f)] and what the call of
    [logActivity] comes to. *)
Variable existsSync : string -> bool.
Variable join : string -> string.
Variable logActivity : Z -> string -> Z -> outcome unit.

(** The double quote of the Content-Disposition header. *)
Definition quote : string := String (ascii_of_nat 34) EmptyString.

(** [!report.outputFile] *)
Definition no_output (r : Report) : bool :=
  match outputFile r with
  | None => true
  | Some f => f =? EmptyString
  end.

(** The handler of [GET /:id/download]; [found] is what
    [Report.findByPk(req.params.id)] comes to. *)
Definition download_handler (user : User) (found : outcome (option Report))
  : list res_call :=
  match found with
  | Throw e =>
      [Status 500; Json false "Error downloading report" (Some (message e))]
  | Return None => [Status 404; Json false "Report not found" None]
  | Return (Some report) =>
      if negb (status report =? "completed") || no_output report then
        [Status 400; Json false "Report not ready for download" None]
      else
        let headers :=
          [SetHeader "Content-Disposition"
             ("attachment; filename=" ++ quote ++ title report ++ ".pdf"
              ++ quote);
           SetHeader "Content-Type" "application/pdf"] in
        let filePath :=
          join (match outputFile report with
                | Some f => f
                | None => EmptyString
                end) in
        if existsSync filePath then
          match logActivity (user_id user) "report_downloaded" (id report) with
          | Return _ => headers ++ [Pipe filePath]
          | Throw e =>
              headers ++ [Pipe filePath; Status 500;
                          Json false "Error downloading report"
                               (Some (message e))]
          end%list
        else (headers ++ [Status 404; Json false "Report file not found" None])%list
  end.

(** The route: [authenticateToken], then the handler. *)
Definition download (authHeader : option string)
  (verify : string -> verified) (findUser : Z -> outcome (option User))
  (found : outcome (option Report)) : list res_call :=
  match authenticateToken authHeader verify findUser with
  | inl answered => answered
  | inr user => download_handler user found
  end.

End Download.

End ReportsRouter.

(** ** models/User.js: serialisation of a User *)
Module UserModel.
Local Open Scope string_scope.

(** A column value. *)
Inductive attr : Type :=
| ANull
| ANum (z : Z)
| AStr (s : string)
| ABool (b : bool)
| ADate (t : Z)
| AJson (text : string).

Definition opt {A : Type} (f : A -> attr) (o : option A) : attr :=
  match o with
  | Some a => f a
  | None => ANull
  end.

Record User : Type := {
  id : Z;
  email : string;
  password : string;
  firstName : string;
  lastName : string;
  role : string;
  department : option string;
  position : option string;
  phone : option string;
  avatar : option string;
  lastLogin : option Z;
  isActive : bool;
  emailVerified : bool;
  emailVerifiedAt : option Z;
  passwordResetToken : option string;
  passwordResetExpires : option Z;
  preferences : option string;
  metadata : option string;
  createdAt : Z;
  updatedAt : Z;
  deletedAt : option Z
}.

(** [this.get()]: the data values of the instance. *)
Definition get (u : User) : list (string * attr) :=
  [ ("id", ANum (id u));
    ("email", AStr (email u));
    ("password", AStr (password u));
    ("firstName", AStr (firstName u));
    ("lastName", AStr (lastName u));
    ("role", AStr (role u));
    ("department", opt AStr (department u));
    ("position", opt AStr (position u));
    ("phone", opt AStr (phone u));
    ("avatar", opt AStr (avatar u));
    ("lastLogin", opt ADate (lastLogin u));
    ("isActive", ABool (isActive u));
    ("emailVerified", ABool (emailVerified u));
    ("emailVerifiedAt", opt ADate (emailVerifiedAt u));
    ("passwordResetToken", opt AStr (passwordResetToken u));
    ("passwordResetExpires", opt ADate (passwordResetExpires u));
    ("preferences", opt AJson (preferences u));
    ("metadata", opt AJson (metadata u));
    ("createdAt", ADate (createdAt u));
    ("updatedAt", ADate (updatedAt u));
    ("deletedAt", opt ADate (deletedAt u)) ].

(** [Object.assign(target, source)] *)
Definition assign (target source : list (string * attr))
  : list (string * attr) :=
  fold_left (fun t kv =>
               match JS.own t (fst kv) with
               | Some _ => JS.overwrite t (fst kv) (snd kv)
               | None => (t ++ [kv])%list
               end) source target.

(** [delete o[k]] *)
Definition delete (o : list (string * attr)) (k : string)
  : list (string * attr) :=
  filter (fun kv => negb (fst kv =? k)) o.

Definition toJSON (u : User) : list (string * attr) :=
  let values := assign [] (get u) in
  let values := delete values "password" in
  let values := delete values "passwordResetToken" in
  let values := delete values "passwordResetExpires" in
  values.

End UserModel.

(** ** Built-in functions of JS that the routes call *)
Module JSMath.
Local Open Scope string_scope.

(** [Math.ceil] *)
Definition ceil (x : Num.t) : Num.t :=
  match x with
  | S754_finite s m e =>
      if (0 <=? e)%Z then x
      else
        let z := if s then Z.neg m else Z.pos m in
        let k := (- ((- z) / 2 ^ (- e)))%Z in
        if (k =? 0)%Z then S754_zero s else Num.of_Z k
  | _ => x
  end.

(** The white space that [parseInt] skips, among the code units below
    256. *)
Definition is_space (c : ascii) : bool :=
  existsb (N.eqb (N_of_ascii c)) [9; 10; 11; 12; 13; 32; 160]%N.

Fixpoint trim_start (s : string) : string :=
  match s with
  | String c s' => if is_space c then trim_start s' else s
  | EmptyString => s
  end.

(** The value of a digit of a radix up to 36. *)
Definition digit_value (c : ascii) : option Z :=
  let n := Z.of_N (N_of_ascii c) in
  if ((48 <=? n) && (n <=? 57))%Z then Some (n - 48)%Z
  else if ((97 <=? n) && (n <=? 122))%Z then Some (n - 87)%Z
  else if ((65 <=? n) && (n <=? 90))%Z then Some (n - 55)%Z
  else None.

(** The number that the longest prefix of digits of the radix denotes;
    [acc] is [None] as long as no digit was read. *)
Fixpoint digits_prefix (radix : Z) (s : string) (acc : option Z) : option Z :=
  match s with
  | String c s' =>
      match digit_value c with
      | Some d =>
          if (d <? radix)%Z then
            digits_prefix radix s'
              (Some (radix * match acc with
                             | Some a => a
                             | None => 0
                             end + d)%Z)
          else acc
      | None => acc
      end
  | EmptyString => acc
  end.

(** [parseInt(string)] without a radix. *)
Definition parseInt (input : string) : Num.t :=
  let s := trim_start input in
  let '(negative, s) :=
    match s with
    | String "-" s' => (true, s')
    | String "+" s' => (false, s')
    | _ => (false, s)
    end in
  let '(radix, s) :=
    match s with
    | String "0" (String "x" s') => (16, s')
    | String "0" (String "X" s') => (16, s')
    | _ => (10, s)
    end%Z in
  match digits_prefix radix s None with
  | None => Num.nan
  | Some z =>
      if (z =? 0)%Z then S754_zero negative
      else Num.of_Z (if negative then - z else z)%Z
  end.

(** [ToIntegerOrInfinity] *)
Inductive integer : Type :=
| NegInfinity
| Int (z : Z)
| PosInfinity.

Definition to_integer (x : Num.t) : integer :=
  match x with
  | S754_nan => Int 0
  | S754_zero _ => Int 0
  | S754_infinity s => if s then NegInfinity else PosInfinity
  | S754_finite s m e =>
      let z := if s then Z.neg m else Z.pos m in
      Int (if (0 <=? e)%Z then z * 2 ^ e else Z.quot z (2 ^ (- e)))%Z
  end.

(** An index of [slice] relative to the length of the array. *)
Definition relative (len : Z) (i : integer) : Z :=
  match i with
  | NegInfinity => 0
  | PosInfinity => len
  | Int z => if (z <? 0)%Z then Z.max (len + z) 0 else Z.min z len
  end.

(** [Array.prototype.slice(start, end)] *)
Definition slice {A : Type} (l : list A) (start finish : Num.t) : list A :=
  let len := Z.of_nat (List.length l) in
  let k := relative len (to_integer start) in
  let final := relative len (to_integer finish) in
  firstn (Z.to_nat (final - k)) (skipn (Z.to_nat k) l).

(** [Array.prototype.findIndex] and [Array.prototype.splice(index, 1)] *)
Fixpoint findIndex {A : Type} (p : A -> bool) (l : list A) : option nat :=
  match l with
  | [] => None
  | x :: l' =>
      if p x then Some O
      else match findIndex p l' with
           | Some i => Some (S i)
           | None => None
           end
  end.

Definition splice_one {A : Type} (l : list A) (index : nat) : list A :=
  (firstn index l ++ skipn (S index) l)%list.

Fixpoint replace_at {A : Type} (l : list A) (index : nat) (x : A) : list A :=
  match l, index with
  | [], _ => []
  | _ :: l', O => x :: l'
  | y :: l', S i => y :: replace_at l' i x
  end.

End JSMath.

(** ** middleware/auth.js: the rate limiter of [createRateLimit]

    The closure keeps a [Map] from client keys to a counter and the start of
    its window.  [Date.now()], the window, the limit and the counters are
    integers far below 2^53, on which the arithmetic of Numbers is that of
    the integers; [retryAfter] is a quotient and stays a Number. *)
Module RateLimit.
Local Open Scope string_scope.

(** What the middleware reads of a request: [req.ip] and [req.user?.id]. *)
Record request : Type := { ip : string; user_id : option Z }.

(** A value of the map: [{ count, timestamp }]. *)
Record entry : Type := { count : Z; timestamp : Z }.

(** The map [requests]: its entries in insertion order. *)
Definition store : Type := list (string * entry).

(** What the middleware does with the request: [next()] after the three
    [X-RateLimit-*] headers, or the answer 429 with [retryAfter]. *)
Inductive answer : Type :=
| Next (limit remaining reset : Z)
| TooManyRequests (retryAfter : Num.t).

(** [req.ip + (req.user?.id || 'anonymous')] *)
Definition key_of (req : request) : string :=
  ip req ++
  match user_id req with
  | Some id => if (id =? 0)%Z then "anonymous" else Orchestrator.string_of_id id
  | None => "anonymous"
  end.

(** [Map.prototype.set] *)
Definition map_set (m : store) (k : string) (v : entry) : store :=
  match JS.own m k with
  | Some _ => JS.overwrite m k v
  | None => (m ++ [(k, v)])%list
  end.

(** The entries that the cleaning loop keeps. *)
Definition recent (windowMs now : Z) (kv : string * entry) : bool :=
  negb (windowMs <? now - timestamp (snd kv))%Z.

(** One call of the middleware that [createRateLimit(windowMs, max)]
    returns, at the time [now] of [Date.now()]. *)
Definition limiter (windowMs max : Z) (requests : store) (req : request)
  (now : Z) : store * answer :=
  let key := key_of req in
  let requests := List.filter (recent windowMs now) requests in
  let userRequests :=
    match JS.own requests key with
    | Some e => e
    | None => {| count := 0; timestamp := now |}
    end in
  let userRequests :=
    if (windowMs <? now - timestamp userRequests)%Z
    then {| count := 0; timestamp := now |}
    else userRequests in
  let userRequests :=
    {| count := count userRequests + 1;
       timestamp := timestamp userRequests |} in
  let requests := map_set requests key userRequests in
  if (max <? count userRequests)%Z then
    (requests,
     TooManyRequests
       (JSMath.ceil (Num.div
                (Num.of_Z (windowMs - (now - timestamp userRequests)))
                (Num.of_Z 1000))))
  else
    (requests,
     Next max (Z.max 0 (max - count userRequests))
          (timestamp userRequests + windowMs)).

End RateLimit.

(** ** models/ReportTemplate.js: hooks and instance methods

    The hooks run a bulk [update] on the table of templates.  The table is
    the list of the rows that are not deleted.  [Model.create] and
    [instance.save] run the hook and then write the row: two statements with
    no transaction around them, between which other requests can write. *)
Module TemplateModel.
Local Open Scope string_scope.

(** One entry of [schema]: [config.required] and [config.type]. *)
Record config : Type := { required : JS.value; ctype : JS.value }.

(** The attributes of a template that the hooks and the instance methods
    use; [id] is null until the row is inserted. *)
Record ReportTemplate : Type := {
  id : option Z;
  type : string;
  isDefault : bool;
  parameters : option JS.obj;
  schema : option (list (string * config))
}.

Definition with_isDefault (b : bool) (t : ReportTemplate) : ReportTemplate :=
  {| id := id t; type := type t; isDefault := b;
     parameters := parameters t; schema := schema t |}.

(** [id: { [Op.ne]: template.id }]: with a null id, [id IS NOT NULL]. *)
Definition id_ne (template_id row_id : option Z) : bool :=
  match template_id, row_id with
  | Some i, Some j => negb (j =? i)%Z
  | None, Some _ => true
  | _, None => false
  end.

(** The [where] of the two hooks. *)
Definition other_default (template row : ReportTemplate) : bool :=
  (type row =? type template) && isDefault row
  && id_ne (id template) (id row).

(** [ReportTemplate.update({ isDefault: false }, { where })] *)
Definition clear_other_defaults (template : ReportTemplate)
  (table : list ReportTemplate) : list ReportTemplate :=
  map (fun row => if other_default template row
                  then with_isDefault false row else row) table.

(** [hooks.beforeCreate] *)
Definition beforeCreate (template : ReportTemplate)
  (table : list ReportTemplate) : list ReportTemplate :=
  if isDefault template then clear_other_defaults template table else table.

(** [hooks.beforeUpdate]; [changed] is [template.changed('isDefault')]. *)
Definition beforeUpdate (template : ReportTemplate) (changed : bool)
  (table : list ReportTemplate) : list ReportTemplate :=
  if changed && isDefault template
  then clear_other_defaults template table else table.

(** The INSERT of [ReportTemplate.create(values)], under the next id of the
    sequence. *)
Definition insert (template : ReportTemplate) (next_id : Z)
  (table : list ReportTemplate) : list ReportTemplate :=
  (table ++
   [{| id := Some next_id; type := type template;
       isDefault := isDefault template;
       parameters := parameters template; schema := schema template |}])%list.

(** [ReportTemplate.create(values)]: the hook, then the INSERT; [between] is
    what other requests write to the table after the UPDATE of the hook and
    before the INSERT. *)
Definition create_between
  (between : list ReportTemplate -> list ReportTemplate)
  (template : ReportTemplate) (next_id : Z) (table : list ReportTemplate)
  : list ReportTemplate :=
  insert template next_id (between (beforeCreate template table)).

(** [ReportTemplate.create(values)] when no other request writes between
    its two statements. *)
Definition create (template : ReportTemplate) (next_id : Z)
  (table : list ReportTemplate) : list ReportTemplate :=
  create_between (fun table => table) template next_id table.

Definition has_id (i : Z) (row : ReportTemplate) : bool :=
  match id row with
  | Some j => (j =? i)%Z
  | None => false
  end.

(** The UPDATE of the row of an instance. *)
Definition write_row (i : Z) (template : ReportTemplate)
  (table : list ReportTemplate) : list ReportTemplate :=
  map (fun row => if has_id i row then template else row) table.

(** [template.save()] on an instance loaded from the table as [previous]
    and changed into [template]: the hook, then the row is written;
    [between] is what other requests write to the table in between. *)
Definition save_between
  (between : list ReportTemplate -> list ReportTemplate)
  (previous template : ReportTemplate) (table : list ReportTemplate)
  : list ReportTemplate :=
  match id previous with
  | None => table
  | Some i =>
      let changed :=
        negb (Bool.eqb (isDefault previous) (isDefault template)) in
      write_row i template (between (beforeUpdate template changed table))
  end.

(** [template.save()] when no other request writes between its two
    statements. *)
Definition save (previous template : ReportTemplate)
  (table : list ReportTemplate) : list ReportTemplate :=
  save_between (fun table => table) previous template table.

(** [isCompatible] *)
Definition isCompatible (t : ReportTemplate) (reportType : string) : bool :=
  (type t =? reportType) || (type t =? "custom").

(** [getParameterValue(key, defaultValue = null)] *)
Definition getParameterValue (t : ReportTemplate) (key : string)
  (defaultValue : JS.value) : JS.value :=
  let defaultValue :=
    match defaultValue with
    | JS.VUndefined => JS.VNull
    | v => v
    end in
  match parameters t with
  | None => defaultValue
  | Some p =>
      if negb (JS.strict_equal (JS.get p key) JS.VUndefined)
      then JS.get p key else defaultValue
  end.

(** [typeof] *)
Definition typeof (v : JS.value) : string :=
  match v with
  | JS.VUndefined => "undefined"
  | JS.VNull => "object"
  | JS.VBool _ => "boolean"
  | JS.VNum _ => "number"
  | JS.VStr _ => "string"
  | JS.VObj JS.ObjectPrototype => "object"
  | JS.VObj _ => "function"
  end.

(** [Object.entries]: array-index keys in ascending order, then the other
    keys in creation order. *)
Definition object_entries {A : Type} (o : list (string * A))
  : list (string * A) :=
  Pipeline.object_values (map (fun kv => (fst kv, kv)) o).

Section WithEngine.
Context {E : JS.Engine}.

(** The body of the loop of [validateData] for one entry of the schema. *)
Definition validate_entry (data : JS.obj) (entry : string * config)
  : Orchestrator.outcome unit :=
  let '(key, config) := entry in
  if JS.truthy (required config) && negb (JS.truthy (JS.get data key)) then
    Orchestrator.Throw
      {| Orchestrator.message := "Required field '" ++ key ++ "' is missing" |}
  else if JS.truthy (JS.get data key) && JS.truthy (ctype config) then
    let actualType := typeof (JS.get data key) in
    if negb (JS.strict_equal (JS.VStr actualType) (ctype config)) then
      Orchestrator.Throw
        {| Orchestrator.message :=
             "Field '" ++ key ++ "' should be of type '"
             ++ JS.to_string (ctype config) ++ "', got '" ++ actualType
             ++ "'" |}
    else Orchestrator.Return tt
  else Orchestrator.Return tt.

Fixpoint validate_entries (data : JS.obj) (entries : list (string * config))
  : Orchestrator.outcome bool :=
  match entries with
  | [] => Orchestrator.Return true
  | entry :: entries' =>
      match validate_entry data entry with
      | Orchestrator.Throw e => Orchestrator.Throw e
      | Orchestrator.Return _ => validate_entries data entries'
      end
  end.

Definition validateData (t : ReportTemplate) (data : JS.obj)
  : Orchestrator.outcome bool :=
  match schema t with
  | None => Orchestrator.Return true
  | Some s => validate_entries data (object_entries s)
  end.

End WithEngine.

End TemplateModel.

(** ** models/Report.js: the instance methods of a Report

    The methods are used as conditions: each is taken as the truth value of
    what it returns.  Dates are their time values in milliseconds. *)
Module ReportInstance.
Local Open Scope string_scope.

Record Report : Type := {
  status : string;
  approvedBy : option Z;
  submittedAt : option Z;
  dueDate : option Z
}.

(** The truth value of a nullable id, and of a nullable Date. *)
Definition truthy_id (v : option Z) : bool :=
  match v with
  | Some i => negb (i =? 0)%Z
  | None => false
  end.

Definition truthy_date (v : option Z) : bool :=
  match v with
  | Some _ => true
  | None => false
  end.

(** [isOverdue]; [now] is [new Date()]. *)
Definition isOverdue (now : Z) (r : Report) : bool :=
  match dueDate r with
  | Some due => (due <? now)%Z && negb (status r =? "completed")
  | None => false
  end.

(** [canBeEdited] *)
Definition canBeEdited (r : Report) : bool :=
  existsb (String.eqb (status r)) ["pending"; "failed"].

(** [canBeApproved] *)
Definition canBeApproved (r : Report) : bool :=
  (status r =? "completed") && negb (truthy_id (approvedBy r)).

(** [canBeSubmitted] *)
Definition canBeSubmitted (r : Report) : bool :=
  (status r =? "completed") && truthy_id (approvedBy r)
  && negb (truthy_date (submittedAt r)).

End ReportInstance.

(** ** models/User.js: the instance methods on roles and names *)
Module UserMethods.
Import UserModel.
Local Open Scope string_scope.

(** [DataTypes.ENUM('user', 'manager', 'admin')] *)
Definition role_enum : list string := ["user"; "manager"; "admin"].

(** [getFullName] *)
Definition getFullName (u : User) : string :=
  firstName u ++ " " ++ lastName u.

(** [hasRole] *)
Definition hasRole (u : User) (r : string) : bool := role u =? r.

(** [hasAnyRole]: [roles.includes(this.role)] *)
Definition hasAnyRole (u : User) (roles : list string) : bool :=
  existsb (String.eqb (role u)) roles.

(** [isAdmin] *)
Definition isAdmin (u : User) : bool := role u =? "admin".

(** [isManager] *)
Definition isManager (u : User) : bool :=
  (role u =? "manager") || (role u =? "admin").

End UserMethods.

(** ** routes/reports.js: the reports kept in memory

    [mockReports] is an array of objects.  [PUT] puts a new object in the
    array while the timer of [POST /:id/generate] keeps the object it found,
    so the objects live in a heap and the array holds their addresses. *)
Module MockReports.
Local Open Scope string_scope.

Record Report : Type := {
  id : Z;
  title : string;
  type : string;
  status : string;
  generatedBy : Z;
  generatedAt : Z;
  data : JS.obj;
  template : option string;
  fileUrl : option string;
  updatedAt : option Z;
  completedAt : option Z
}.

Record state : Type := {
  heap : list Report;
  mockReports : list nat
}.

(** The objects of the array, in its order. *)
Definition reports (st : state) : list Report :=
  flat_map (fun a => match nth_error (heap st) a with
                     | Some r => [r]
                     | None => []
                     end) (mockReports st).

(** [r.id === parseInt(req.params.id)] *)
Definition has_id (params_id : string) (r : Report) : bool :=
  Num.eqb (Num.of_Z (id r)) (JSMath.parseInt params_id).

Definition at_id (st : state) (params_id : string) (a : nat) : bool :=
  match nth_error (heap st) a with
  | Some r => has_id params_id r
  | None => false
  end.

(** [GET /:id]: the report of the answer, or [None] for the answer 404. *)
Definition getReport (st : state) (params_id : string) : option Report :=
  match find (at_id st params_id) (mockReports st) with
  | Some a => nth_error (heap st) a
  | None => None
  end.

(** The body of [POST /]. *)
Record body : Type := {
  body_title : string;
  body_type : string;
  body_data : option JS.obj;
  body_template : option string
}.

(** [value || fallback] for a string that may be absent. *)
Definition or_else (value : option string) (fallback : string) : string :=
  match value with
  | Some s => if s =? EmptyString then fallback else s
  | None => fallback
  end.

(** [POST /]: the new state and the report of the answer 201; [user_id] is
    [req.user.id] and [now] the time of [new Date()]. *)
Definition createReport (st : state) (user_id now : Z) (b : body)
  : state * Report :=
  let newReport :=
    {| id := Z.of_nat (List.length (mockReports st)) + 1;
       title := body_title b;
       type := body_type b;
       status := "pending";
       generatedBy := user_id;
       generatedAt := now;
       data := match body_data b with
               | Some d => d
               | None => []
               end;
       template := Some (or_else (body_template b) "default");
       fileUrl := None;
       updatedAt := None;
       completedAt := None |} in
  ({| heap := (heap st ++ [newReport])%list;
      mockReports := (mockReports st ++ [List.length (heap st)])%list |},
   newReport).

(** The body of [PUT /:id]. *)
Record changes : Type := {
  new_title : option string;
  new_type : option string;
  new_data : option JS.obj;
  new_status : option string
}.

(** [PUT /:id]: a new object takes the place of the report in the array. *)
Definition updateReport (st : state) (params_id : string) (now : Z)
  (c : changes) : state * option Report :=
  match JSMath.findIndex (at_id st params_id) (mockReports st) with
  | None => (st, None)
  | Some reportIndex =>
      match nth_error (mockReports st) reportIndex with
      | None => (st, None)
      | Some a =>
          match nth_error (heap st) a with
          | None => (st, None)
          | Some old =>
              let updated :=
                {| id := id old;
                   title := or_else (new_title c) (title old);
                   type := or_else (new_type c) (type old);
                   status := or_else (new_status c) (status old);
                   generatedBy := generatedBy old;
                   generatedAt := generatedAt old;
                   data := match new_data c with
                           | Some d => d
                           | None => data old
                           end;
                   template := template old;
                   fileUrl := fileUrl old;
                   updatedAt := Some now;
                   completedAt := completedAt old |} in
              ({| heap := (heap st ++ [updated])%list;
                  mockReports :=
                    JSMath.replace_at (mockReports st) reportIndex
                      (List.length (heap st)) |},
               Some updated)
          end
      end
  end.

(** [DELETE /:id]: [mockReports.splice(reportIndex, 1)[0]]. *)
Definition deleteReport (st : state) (params_id : string)
  : state * option Report :=
  match JSMath.findIndex (at_id st params_id) (mockReports st) with
  | None => (st, None)
  | Some reportIndex =>
      ({| heap := heap st;
          mockReports := JSMath.splice_one (mockReports st) reportIndex |},
       match nth_error (mockReports st) reportIndex with
       | Some a => nth_error (heap st) a
       | None => None
       end)
  end.

(** What the timer of [POST /:id/generate] emits: the room and the payload
    of [report_update]. *)
Record notification : Type := {
  room : string;
  reportId : Z;
  notified_status : string;
  notified_fileUrl : option string;
  message : string
}.

Definition with_status (s : string) (r : Report) : Report :=
  {| id := id r; title := title r; type := type r; status := s;
     generatedBy := generatedBy r; generatedAt := generatedAt r;
     data := data r; template := template r; fileUrl := fileUrl r;
     updatedAt := updatedAt r; completedAt := completedAt r |}.

(** [POST /:id/generate] up to the answer: the report found is marked
    [generating]; the address returned is the object that the timer keeps. *)
Definition startGeneration (st : state) (params_id : string)
  : state * option nat :=
  match find (at_id st params_id) (mockReports st) with
  | None => (st, None)
  | Some a =>
      match nth_error (heap st) a with
      | None => (st, None)
      | Some report =>
          ({| heap := JSMath.replace_at (heap st) a
                        (with_status "generating" report);
              mockReports := mockReports st |},
           Some a)
      end
  end.

(** The callback of [setTimeout], five seconds later, on the object it
    kept; [stamp] is the time of [Date.now()], [now] that of [new Date()]
    and [io] tells whether [req.app.get('socketio')] held a socket instance;
    no code of the repository sets it. *)
Definition finishGeneration (st : state) (a : nat) (stamp now : Z)
  (io : bool) : state * option notification :=
  match nth_error (heap st) a with
  | None => (st, None)
  | Some report =>
      let url := "/reports/" ++ type report ++ "-"
                 ++ Orchestrator.string_of_id stamp ++ ".pdf" in
      let finished :=
        {| id := id report; title := title report; type := type report;
           status := "completed";
           generatedBy := generatedBy report;
           generatedAt := generatedAt report;
           data := data report; template := template report;
           fileUrl := Some url;
           updatedAt := updatedAt report;
           completedAt := Some now |} in
      ({| heap := JSMath.replace_at (heap st) a finished;
          mockReports := mockReports st |},
       if io && negb (generatedBy report =? 0)%Z then
         Some {| room := "user_" ++ Orchestrator.string_of_id
                                      (generatedBy report);
                 reportId := id report;
                 notified_status := "completed";
                 notified_fileUrl := Some url;
                 message := "Report " ++ ReportsRouter.quote ++ title report
                            ++ ReportsRouter.quote ++ " completed!" |}
       else None)
  end.

(** The query of [GET /]. *)
Record query : Type := {
  page : option string;
  limit : option string;
  by_type : option string;
  by_status : option string
}.

Record pagination : Type := {
  currentPage : Num.t;
  totalPages : Num.t;
  totalReports : Num.t;
  hasNextPage : bool;
  hasPrevPage : bool
}.

(** [if (type)] on a query parameter, then [filter]. *)
Definition filter_by (field : Report -> string) (wanted : option string)
  (l : list Report) : list Report :=
  match wanted with
  | Some w => if w =? EmptyString then l
              else List.filter (fun report => field report =? w) l
  | None => l
  end.

(** [parseInt] of a query parameter with a numeric default. *)
Definition parse_or (value : option string) (default : Z) : Num.t :=
  match value with
  | Some s => JSMath.parseInt s
  | None => Num.of_Z default
  end.

Section Listing.
(** [Array.prototype.sort] *)
Variable array_sort :
  (Report -> Report -> Num.t) -> list Report -> list Report.

(** The reports that [GET /] pages through: filtered, newest first. *)
Definition filteredReports (st : state) (q : query) : list Report :=
  let filteredReports := reports st in
  let filteredReports := filter_by type (by_type q) filteredReports in
  let filteredReports := filter_by status (by_status q) filteredReports in
  array_sort (fun a b => Num.sub (Num.of_Z (generatedAt b))
                                 (Num.of_Z (generatedAt a)))
             filteredReports.

(** [GET /] *)
Definition listReports (st : state) (q : query) : list Report * pagination :=
  let filteredReports := filteredReports st q in
  let page := parse_or (page q) 1 in
  let limit := parse_or (limit q) 10 in
  let startIndex := Num.mul (Num.sub page Num.one) limit in
  let endIndex := Num.mul page limit in
  let paginatedReports := JSMath.slice filteredReports startIndex endIndex in
  (paginatedReports,
   {| currentPage := page;
      totalPages :=
        JSMath.ceil (Num.div (Compliance.length_of filteredReports) limit);
      totalReports := Compliance.length_of filteredReports;
      hasNextPage := Num.ltb endIndex (Compliance.length_of filteredReports);
      hasPrevPage := Num.ltb Num.one page |}).

End Listing.

End MockReports.

(** ** routes/auth.js: the users kept in memory

    [bcrypt] and [jsonwebtoken] are taken as what their calls come to: a
    value, or nothing when the promise rejects or the call throws, which the
    handlers answer with 500.  The handlers are those of the routes, reached
    once the rate limiter and the validators have let the request through.

    The array is only ever pushed to, and the emails and passwords of its
    objects never change.  [POST /login] reads the array before it awaits
    [bcrypt.compare] and writes the object it found after it, which comes to
    running at the time of the write.  [POST /register] looks the email up
    before it awaits [bcrypt], and pushes after: other requests can run in
    between. *)
Module MockUsers.
Local Open Scope string_scope.

Record User : Type := {
  id : Z;
  email : string;
  password : string;
  firstName : string;
  lastName : string;
  role : string;
  department : string;
  position : string;
  createdAt : Z;
  lastLogin : Z
}.

(** [const { password: _, ...userResponse } = user] *)
Record userResponse : Type := {
  response_id : Z;
  response_email : string;
  response_firstName : string;
  response_lastName : string;
  response_role : string;
  response_department : string;
  response_position : string;
  response_createdAt : Z;
  response_lastLogin : Z
}.

Definition without_password (u : User) : userResponse :=
  {| response_id := id u;
     response_email := email u;
     response_firstName := firstName u;
     response_lastName := lastName u;
     response_role := role u;
     response_department := department u;
     response_position := position u;
     response_createdAt := createdAt u;
     response_lastLogin := lastLogin u |}.

(** The payload of the token: [{ user: { id, email, role } }]. *)
Record payload : Type := {
  payload_id : Z;
  payload_email : string;
  payload_role : string
}.

Definition payload_of (u : User) : payload :=
  {| payload_id := id u; payload_email := email u; payload_role := role u |}.

Class Crypto : Type := {
  (** [bcrypt.hash(password, salt)] *)
  hash : string -> string -> option string;
  (** [bcrypt.compare(password, hashed)] *)
  compare : string -> string -> option bool;
  (** [jwt.sign(payload, secret, { expiresIn: '24h' })] at a time of the
      clock *)
  sign : payload -> string -> Z -> option string
}.

Inductive answer : Type :=
| Json (status : Z) (token : string) (user : userResponse)
| Error (status : Z) (error : string).

(** The body of [POST /login]. *)
Record credentials : Type := {
  login_email : string;
  login_password : string
}.

(** The body of [POST /register]. *)
Record registration : Type := {
  body_email : string;
  body_password : string;
  body_firstName : string;
  body_lastName : string;
  body_role : option string;
  body_department : option string;
  body_position : option string
}.

(** An assignment to a field of the object that [find] returned: it is the
    first element of the array that satisfies the predicate. *)
Fixpoint assign_first (p : User -> bool) (f : User -> User) (l : list User)
  : list User :=
  match l with
  | [] => []
  | u :: l' => if p u then f u :: l' else u :: assign_first p f l'
  end.

Definition with_lastLogin (t : Z) (u : User) : User :=
  {| id := id u; email := email u; password := password u;
     firstName := firstName u; lastName := lastName u; role := role u;
     department := department u; position := position u;
     createdAt := createdAt u; lastLogin := t |}.

Section WithCrypto.
Context {crypto : Crypto}.

(** [process.env.JWT_SECRET || 'your-secret-key'] *)
Definition secret_of (JWT_SECRET : option string) : string :=
  MockReports.or_else JWT_SECRET "your-secret-key".

(** [POST /login]; [now] is the time of [new Date()] and [signed_at] the
    time at which the token is signed. *)
Definition login (mockUsers : list User) (JWT_SECRET : option string)
  (body : credentials) (now signed_at : Z) : list User * answer :=
  let by_email := fun u => email u =? login_email body in
  match find by_email mockUsers with
  | None => (mockUsers, Error 401 "Invalid credentials")
  | Some user =>
      match compare (login_password body) (password user) with
      | None => (mockUsers, Error 500 "Server error")
      | Some false => (mockUsers, Error 401 "Invalid credentials")
      | Some true =>
          let mockUsers :=
            assign_first by_email (with_lastLogin now) mockUsers in
          let user := with_lastLogin now user in
          match sign (payload_of user) (secret_of JWT_SECRET) signed_at with
          | None => (mockUsers, Error 500 "Server error")
          | Some token => (mockUsers, Json 200 token (without_password user))
          end
      end
  end.

(** [POST /register] up to its first [await]: the answer 400 when the email
    is taken. *)
Definition register_check (mockUsers : list User) (body : registration)
  : option answer :=
  match find (fun u => email u =? body_email body) mockUsers with
  | Some existingUser => Some (Error 400 "User already exists")
  | None => None
  end.

(** [POST /register] from [bcrypt.genSalt] on, on the array as it is once
    the promises have settled; [salt] is what [bcrypt.genSalt(10)] comes to,
    and [created] and [logged] are the times of the two [new Date()]. *)
Definition register_finish (mockUsers : list User)
  (JWT_SECRET : option string) (body : registration) (salt : option string)
  (created logged signed_at : Z) : list User * answer :=
  match salt with
  | None => (mockUsers, Error 500 "Server error")
  | Some salt =>
      match hash (body_password body) salt with
      | None => (mockUsers, Error 500 "Server error")
      | Some hashedPassword =>
          let newUser :=
            {| id := Z.of_nat (List.length mockUsers) + 1;
               email := body_email body;
               password := hashedPassword;
               firstName := body_firstName body;
               lastName := body_lastName body;
               role := MockReports.or_else (body_role body) "user";
               department :=
                 MockReports.or_else (body_department body) "General";
               position :=
                 MockReports.or_else (body_position body) "Member";
               createdAt := created;
               lastLogin := logged |} in
          let mockUsers := (mockUsers ++ [newUser])%list in
          match sign (payload_of newUser) (secret_of JWT_SECRET)
                     signed_at with
          | None => (mockUsers, Error 500 "Server error")
          | Some token =>
              (mockUsers, Json 201 token (without_password newUser))
          end
      end
  end.

(** [POST /register]; [during] is what the other requests make of the array
    while the handler awaits [bcrypt]. *)
Definition register_during (during : list User -> list User)
  (mockUsers : list User) (JWT_SECRET : option string)
  (body : registration) (salt : option string) (created logged signed_at : Z)
  : list User * answer :=
  match register_check mockUsers body with
  | Some answered => (mockUsers, answered)
  | None =>
      register_finish (during mockUsers) JWT_SECRET body salt created logged
        signed_at
  end.

(** [POST /register] when no other request runs during its awaits. *)
Definition register (mockUsers : list User) (JWT_SECRET : option string)
  (body : registration) (salt : option string) (created logged signed_at : Z)
  : list User * answer :=
  register_during (fun mockUsers => mockUsers) mockUsers JWT_SECRET body salt
    created logged signed_at.

End WithCrypto.

End MockUsers.

(** ** middleware/auth.js: [validateApiKey] *)
Module ApiKey.
Local Open Scope string_scope.

(** [String.prototype.split(',')] *)
Fixpoint split (s : string) : list string :=
  match s with
  | EmptyString => [EmptyString]
  | String c s' =>
      if Ascii.eqb c "," then EmptyString :: split s'
      else match split s' with
           | first :: others => String c first :: others
           | [] => [String c EmptyString]
           end
  end.

(** [req.apiClient] *)
Record apiClient : Type := { key : string; type : string }.

Inductive answer : Type :=
| Next (client : apiClient)
| Rejected (status : Z) (message : string).

(** [validateApiKey]; [VALID_API_KEYS] is the variable of the environment
    and [header] the header [x-api-key] of the request. *)
Definition validateApiKey (VALID_API_KEYS : option string)
  (header : option string) : answer :=
  match header with
  | None => Rejected 401 "API key required"
  | Some apiKey =>
      if apiKey =? EmptyString then Rejected 401 "API key required"
      else
        let validApiKeys :=
          match VALID_API_KEYS with
          | Some keys => split keys
          | None => []
          end in
        if existsb (String.eqb apiKey) validApiKeys
        then Next {| key := apiKey; type := "external" |}
        else Rejected 401 "Invalid API key"
  end.

End ApiKey.

(** ** Auxiliary definitions for the statements below *)

(** A small engine on which the examples run.  Its conversions are those
    of JS on the non-negative integers and their decimal forms only: on any
    other Number or String they give NaN, which JS does not.  A built-in
    function prints as native code, every assignment to a built-in function
    object goes through, and sorting is a stable insertion sort: an element
    moves behind another only when the comparison is positive. *)
Module SampleEngine.
Import JS.
Local Open Scope string_scope.

Definition number_to_string (x : Num.t) : string :=
  match Num.to_Z x with
  | Some z => DecimalString.NilZero.string_of_int (Z.to_int z)
  | None => "NaN"
  end.

Definition string_to_number (s : string) : Num.t :=
  match Pipeline.parse_digits s 0 with
  | Some n => Num.of_Z (Z.of_N n)
  | None => Num.nan
  end.

Fixpoint insert (cmp : obj -> obj -> Num.t) (x : obj) (l : list obj)
  : list obj :=
  match l with
  | [] => [x]
  | y :: l' =>
      if Num.ltb Num.zero (cmp x y) then y :: insert cmp x l' else x :: l
  end.

Definition sort (cmp : obj -> obj -> Num.t) (l : list obj) : list obj :=
  fold_right (insert cmp) [] l.

#[export] Instance engine : Engine := {|
  JS.number_to_string := number_to_string;
  JS.string_to_number := string_to_number;
  JS.function_source := fun _ => "function () { [native code] }";
  JS.builtin_update_ok := fun _ _ => true;
  JS.array_sort := sort
|}.

End SampleEngine.

(** The four operators [evaluateFilter] knows. *)
Definition known_operators : list string :=
  ["equals"; "greater"; "less"; "contains"]%string.

(** Two users with the same values in every column but [password],
    [passwordResetToken] and [passwordResetExpires]. *)
Definition same_public (u v : UserModel.User) : Prop :=
  UserModel.id u = UserModel.id v /\
  UserModel.email u = UserModel.email v /\
  UserModel.firstName u = UserModel.firstName v /\
  UserModel.lastName u = UserModel.lastName v /\
  UserModel.role u = UserModel.role v /\
  UserModel.department u = UserModel.department v /\
  UserModel.position u = UserModel.position v /\
  UserModel.phone u = UserModel.phone v /\
  UserModel.avatar u = UserModel.avatar v /\
  UserModel.lastLogin u = UserModel.lastLogin v /\
  UserModel.isActive u = UserModel.isActive v /\
  UserModel.emailVerified u = UserModel.emailVerified v /\
  UserModel.emailVerifiedAt u = UserModel.emailVerifiedAt v /\
  UserModel.preferences u = UserModel.preferences v /\
  UserModel.metadata u = UserModel.metadata v /\
  UserModel.createdAt u = UserModel.createdAt v /\
  UserModel.updatedAt u = UserModel.updatedAt v /\
  UserModel.deletedAt u = UserModel.deletedAt v.

Definition credentials : list string :=
  ["password"; "passwordResetToken"; "passwordResetExpires"]%string.

Definition sample_user (secret : string) (token : option string)
  (expires : option Z) : UserModel.User :=
  {| UserModel.id := 7;
     UserModel.email := "amina@sacco.example";
     UserModel.password := secret;
     UserModel.firstName := "Amina";
     UserModel.lastName := "Otieno";
     UserModel.role := "manager";
     UserModel.department := Some "Compliance"%string;
     UserModel.position := None;
     UserModel.phone := None;
     UserModel.avatar := None;
     UserModel.lastLogin := Some 1700000000000;
     UserModel.isActive := true;
     UserModel.emailVerified := true;
     UserModel.emailVerifiedAt := None;
     UserModel.passwordResetToken := token;
     UserModel.passwordResetExpires := expires;
     UserModel.preferences := Some "{}"%string;
     UserModel.metadata := None;
     UserModel.createdAt := 1690000000000;
     UserModel.updatedAt := 1695000000000;
     UserModel.deletedAt := None |}.

(** The records of [fetchCustomData] and two criteria lists on them. *)
Definition sample_data : list JS.obj :=
  [ [("id", JS.VNum (Num.of_Z 1)); ("name", JS.VStr "Sample Data 1");
     ("value", JS.VNum (Num.of_Z 100))];
    [("id", JS.VNum (Num.of_Z 2)); ("name", JS.VStr "Sample Data 2");
     ("value", JS.VNum (Num.of_Z 200))] ]%string.

Definition equals_100 : list Pipeline.criterion :=
  [ {| Pipeline.field := "value"; Pipeline.operator := "equals";
       Pipeline.cvalue := JS.VNum (Num.of_Z 100) |} ]%string.

Definition between_criteria : list Pipeline.criterion :=
  [ {| Pipeline.field := "value"; Pipeline.operator := "between";
       Pipeline.cvalue := JS.VNum (Num.of_Z 100) |} ]%string.

(** A report that is still being generated, and the oracles of a request
    carrying a valid token. *)
Definition pending_report : ReportsRouter.Report :=
  {| ReportsRouter.id := 3;
     ReportsRouter.title := "Quarterly liquidity";
     ReportsRouter.status := "generating";
     ReportsRouter.outputFile := None |}%string.

Definition sample_verify (token : string) : ReportsRouter.verified :=
  ReportsRouter.Decoded 7.

Definition sample_findUser (userId : Z)
  : Orchestrator.outcome (option ReportsRouter.User) :=
  Orchestrator.Return
    (Some {| ReportsRouter.user_id := userId; ReportsRouter.isActive := true |}).

(** The month after [now], as year and month. *)
Definition following_month (now : ReportModel.date) : Z * Z :=
  if ReportModel.month now =? 11 then (ReportModel.year now + 1, 0)
  else (ReportModel.year now, ReportModel.month now + 1).

(** Pairwise distinct names. *)
Fixpoint distinct (l : list string) : bool :=
  match l with
  | [] => true
  | x :: l' => negb (existsb (String.eqb x) l') && distinct l'
  end.

(** The update announcing a failed run. *)
Definition failed (reportId : Z) (e : Orchestrator.error)
  : Orchestrator.effect :=
  Orchestrator.Emit
    {| Orchestrator.reportId := reportId;
       Orchestrator.update_status := "failed";
       Orchestrator.update_message := Orchestrator.message e;
       Orchestrator.downloadUrl := None |}.

(** The row that the [catch] block leaves at the time [t] of its UPDATE:
    the status and Sequelize's [updatedAt], and nothing of the error. *)
Definition failed_row (t : nat) (r : Orchestrator.Report)
  : Orchestrator.Report :=
  {| Orchestrator.id := Orchestrator.id r;
     Orchestrator.title := Orchestrator.title r;
     Orchestrator.type := Orchestrator.type r;
     Orchestrator.status := "failed";
     Orchestrator.description := Orchestrator.description r;
     Orchestrator.data := Orchestrator.data r;
     Orchestrator.templateId := Orchestrator.templateId r;
     Orchestrator.fileUrl := Orchestrator.fileUrl r;
     Orchestrator.fileSize := Orchestrator.fileSize r;
     Orchestrator.generatedBy := Orchestrator.generatedBy r;
     Orchestrator.approvedBy := Orchestrator.approvedBy r;
     Orchestrator.approvedAt := Orchestrator.approvedAt r;
     Orchestrator.complianceScore := Orchestrator.complianceScore r;
     Orchestrator.sasraSubmissionId := Orchestrator.sasraSubmissionId r;
     Orchestrator.submittedAt := Orchestrator.submittedAt r;
     Orchestrator.dueDate := Orchestrator.dueDate r;
     Orchestrator.metadata := Orchestrator.metadata r;
     Orchestrator.version := Orchestrator.version r;
     Orchestrator.isActive := Orchestrator.isActive r;
     Orchestrator.createdAt := Orchestrator.createdAt r;
     Orchestrator.updatedAt := t;
     Orchestrator.deletedAt := Orchestrator.deletedAt r |}.

(** The table after the [catch] block ran at the clock [t] for an id other
    than 0. *)
Definition failed_rows (reportId : Z) (t : nat)
  (rows : list Orchestrator.Report) : list Orchestrator.Report :=
  map (fun r => if (Orchestrator.id r =? reportId)%Z && Orchestrator.visible r
                then failed_row (S t) r else r) rows.

(** The update of line 35: [{ status: 'processing', startedAt }]. *)
Definition processing_values (t : nat) : Orchestrator.values :=
  {| Orchestrator.to_status := Some "processing"%string;
     Orchestrator.to_startedAt := Some t;
     Orchestrator.to_completedAt := None;
     Orchestrator.to_outputFile := None;
     Orchestrator.to_metadata := None;
     Orchestrator.to_errorMessage := None |}.

(** Whether an observed effect is a strategy being entered. *)
Definition is_run (x : Orchestrator.effect) : bool :=
  match x with
  | Orchestrator.StrategyRun _ _ => true
  | Orchestrator.Emit _ => false
  end.

(** Strategies for a run in which rendering fails, and errors of Sequelize
    with short texts. *)
Definition render_fails : Orchestrator.Strategies :=
  {| Orchestrator.parseParameters := fun _ => Orchestrator.Return tt;
     Orchestrator.generateFinancialReport := fun _ =>
       Orchestrator.Throw {| Orchestrator.message := "Navigation timeout" |};
     Orchestrator.generateComplianceReport := fun _ =>
       Orchestrator.Throw {| Orchestrator.message := "Navigation timeout" |};
     Orchestrator.generateOperationalReport := fun _ =>
       Orchestrator.Throw {| Orchestrator.message := "ENOENT" |};
     Orchestrator.generateFromTemplate := fun _ _ =>
       Orchestrator.Throw {| Orchestrator.message := "Navigation timeout" |}
  |}.

Definition short_errors : Orchestrator.Sequelize :=
  {| Orchestrator.eagerLoadingError := fun model alias =>
       {| Orchestrator.message :=
            model ++ " is associated using an alias other than " ++ alias |};
     Orchestrator.enumError := fun column value =>
       {| Orchestrator.message :=
            "invalid input value for enum " ++ column ++ ": " ++ value |}
  |}%string.

Definition created_report : Orchestrator.Report :=
  {| Orchestrator.id := 3;
     Orchestrator.title := "Quarterly liquidity";
     Orchestrator.type := "quarterly";
     Orchestrator.status := "pending";
     Orchestrator.description := None;
     Orchestrator.data := None;
     Orchestrator.templateId := None;
     Orchestrator.fileUrl := None;
     Orchestrator.fileSize := None;
     Orchestrator.generatedBy := 1;
     Orchestrator.approvedBy := None;
     Orchestrator.approvedAt := None;
     Orchestrator.complianceScore := None;
     Orchestrator.sasraSubmissionId := None;
     Orchestrator.submittedAt := None;
     Orchestrator.dueDate := Some 90%nat;
     Orchestrator.metadata := None;
     Orchestrator.version := 1;
     Orchestrator.isActive := true;
     Orchestrator.createdAt := 30%nat;
     Orchestrator.updatedAt := 30%nat;
     Orchestrator.deletedAt := None |}%string.

Definition sample_world : Orchestrator.world :=
  {| Orchestrator.reports := [created_report];
     Orchestrator.templates := [];
     Orchestrator.trace := [];
     Orchestrator.clock := 40 |}.

(** [below Bm Be x]: the Number [x] is +0 or a positive finite Number of
    value at most [Bm * 2^Be]. *)
Definition below (Bm Be : Z) (x : spec_float) : Prop :=
  match x with
  | S754_zero s => s = false
  | S754_finite s m e => s = false /\ e <= Be /\ Z.pos m <= Bm * 2 ^ (Be - e)
  | _ => False
  end.

(** [value_ge m e Lm Le]: [m * 2^e] is at least [Lm * 2^Le]. *)
Definition value_ge (m e Lm Le : Z) : Prop :=
  Lm * 2 ^ (Le - Z.min e Le) <= m * 2 ^ (e - Z.min e Le).

(** [above Lm Le x]: the Number [x] is positive, of value at least
    [Lm * 2^Le]. *)
Definition above (Lm Le : Z) (x : spec_float) : Prop :=
  match x with
  | S754_finite false m e => value_ge (Z.pos m) e Lm Le
  | S754_infinity false => True
  | _ => False
  end.

(** The score as a function of the two lengths. *)
Definition score (compliant total : nat) : Num.t :=
  Num.round
    (Num.mul (Num.div (Num.of_nat compliant) (Num.of_nat total)) Num.hundred).

(** [round(p / q)] over the rationals, halves up, for [0 <= p] and
    [0 < q]. *)
Definition round_ratio (p q : Z) : Z := (2 * p + q) / (2 * q).

Definition marked (status : string) : Compliance.check :=
  {| Compliance.regulation := "Capital adequacy";
     Compliance.status := status;
     Compliance.details := "Compliance check for Capital adequacy";
     Compliance.severity := "low" |}.

(** Compliance data with [c] compliant checks followed by [v] violations. *)
Definition checked (c v : nat) : Compliance.complianceData :=
  {| Compliance.period := "2024-Q1";
     Compliance.regulations := [];
     Compliance.institutions := [];
     Compliance.checks :=
       repeat (marked "compliant") c ++ repeat (marked "violation") v |}.

Definition compliant_or_violation (check : Compliance.check) : Prop :=
  Compliance.status check = "compliant"%string
  \/ Compliance.status check = "violation"%string.

(** Three loans of one branch, and a member list whose one department is
    named like a member of [Object.prototype]. *)
Definition loan (amount : Z) : JS.obj :=
  [("branch", JS.VStr "Nairobi"); ("amount", JS.VNum (Num.of_Z amount))]%string.

Definition average_amount : Pipeline.aggregateField :=
  {| Pipeline.name := "average"; Pipeline.operation := "avg";
     Pipeline.sourceField := "amount" |}%string.

Definition member (department : string) : JS.obj :=
  [("member", JS.VStr "M-0042"); ("department", JS.VStr department)]%string.

Definition count_members : Pipeline.aggregateField :=
  {| Pipeline.name := "members"; Pipeline.operation := "count";
     Pipeline.sourceField := "member" |}%string.

(** The arithmetic mean of a list of integers, when it is an integer. *)
Definition mean (values : list Z) : Z :=
  fold_right Z.add 0 values / Z.of_nat (List.length values).






(** 31 December 2024 (months count from 0) and a monthly report created
    without a due date. *)
Definition december_31 : ReportModel.date :=
  {| ReportModel.year := 2024; ReportModel.month := 11; ReportModel.day := 31 |}.

Definition monthly_report : ReportModel.Report :=
  {| ReportModel.type := "monthly"%string; ReportModel.dueDate := None |}.

(** The attributes that [generateReport] leaves alone: all but [status]
    and [updatedAt]. *)
Definition same_request (r r' : Orchestrator.Report) : Prop :=
  Orchestrator.id r' = Orchestrator.id r
  /\ Orchestrator.title r' = Orchestrator.title r
  /\ Orchestrator.type r' = Orchestrator.type r
  /\ Orchestrator.templateId r' = Orchestrator.templateId r
  /\ Orchestrator.description r' = Orchestrator.description r
  /\ Orchestrator.data r' = Orchestrator.data r
  /\ Orchestrator.fileUrl r' = Orchestrator.fileUrl r
  /\ Orchestrator.fileSize r' = Orchestrator.fileSize r
  /\ Orchestrator.generatedBy r' = Orchestrator.generatedBy r
  /\ Orchestrator.approvedBy r' = Orchestrator.approvedBy r
  /\ Orchestrator.approvedAt r' = Orchestrator.approvedAt r
  /\ Orchestrator.complianceScore r' = Orchestrator.complianceScore r
  /\ Orchestrator.sasraSubmissionId r' = Orchestrator.sasraSubmissionId r
  /\ Orchestrator.submittedAt r' = Orchestrator.submittedAt r
  /\ Orchestrator.dueDate r' = Orchestrator.dueDate r
  /\ Orchestrator.metadata r' = Orchestrator.metadata r
  /\ Orchestrator.version r' = Orchestrator.version r
  /\ Orchestrator.isActive r' = Orchestrator.isActive r
  /\ Orchestrator.createdAt r' = Orchestrator.createdAt r
  /\ Orchestrator.deletedAt r' = Orchestrator.deletedAt r.

(** Whether all criteria hold on a record, and whether evaluating them on it
    throws. *)
Definition passes {E : JS.Engine} (criteria : list Pipeline.criterion)
  (item : JS.obj) : bool :=
  match Pipeline.evaluateFilter item criteria with
  | JS.Ok b => b
  | _ => false
  end.

Definition throws {E : JS.Engine} (criteria : list Pipeline.criterion)
  (item : JS.obj) : bool :=
  match Pipeline.evaluateFilter item criteria with
  | JS.Ok _ => false
  | _ => true
  end.

Definition contains_label : Pipeline.criterion :=
  {| Pipeline.field := "label"; Pipeline.operator := "contains";
     Pipeline.cvalue := JS.VStr "Sample" |}%string.

(** The integer a record holds under [src] (0 when it holds none). *)
Definition amount (src : string) (item : JS.obj) : Z :=
  match JS.get item src with
  | JS.VNum x => match Num.to_Z x with
                 | Some z => z
                 | None => 0
                 end
  | _ => 0
  end.


(** The property name under which a record is grouped. *)
Definition group_key {E : JS.Engine} (groupBy : string) (item : JS.obj)
  : string :=
  JS.to_string (JS.get item groupBy).

(** [plain_key groupBy item]: the group key of the record is not the name of
    a member of [Object.prototype]. *)
Definition plain_key {E : JS.Engine} (groupBy : string) (item : JS.obj)
  : Prop :=
  JS.inherited (group_key groupBy item) = None.

(** The keys of a list without their repetitions, in the order of their
    first occurrences. *)
Fixpoint first_occurrences (keys : list string) : list string :=
  match keys with
  | [] => []
  | k :: keys' =>
      k :: List.filter (fun k' => negb (k' =? k)%string)
             (first_occurrences keys')
  end.

Definition total_amount : Pipeline.aggregateField :=
  {| Pipeline.name := "total"; Pipeline.operation := "sum";
     Pipeline.sourceField := "amount" |}%string.

Definition branch_loan (branch : string) (amount : Z) : JS.obj :=
  [("branch", JS.VStr branch); ("amount", JS.VNum (Num.of_Z amount))]%string.

Definition loans : list JS.obj :=
  [branch_loan "Nairobi" 250; branch_loan "Kisumu" 100;
   branch_loan "Nairobi" 50]%string.

(** [named_key groupBy item]: the group key of the record is neither the
    name of a member of [Object.prototype] nor an array index. *)
Definition named_key {E : JS.Engine} (groupBy : string) (item : JS.obj)
  : Prop :=
  plain_key groupBy item
  /\ Pipeline.array_index (group_key groupBy item) = None.

(** The key seen next, added to the keys seen so far. *)
Definition add_key (seen : list string) (k : string) : list string :=
  if existsb (String.eqb k) seen then seen else seen ++ [k].

Definition average_and_total : list Pipeline.aggregateField :=
  [average_amount; total_amount].

(** The calls of one limiter, in order, each with its time. *)
Fixpoint serve (windowMs max : Z) (requests : RateLimit.store)
  (calls : list (RateLimit.request * Z))
  : RateLimit.store * list RateLimit.answer :=
  match calls with
  | [] => (requests, [])
  | (req, now) :: calls' =>
      let '(requests', a) := RateLimit.limiter windowMs max requests req now in
      let '(requests'', answers) := serve windowMs max requests' calls' in
      (requests'', a :: answers)
  end.

Definition admitted (a : RateLimit.answer) : bool :=
  match a with
  | RateLimit.Next _ _ _ => true
  | RateLimit.TooManyRequests _ => false
  end.

(** Whether the calls made under the key [k] were admitted, in their
    order. *)
Fixpoint admissions (k : string) (calls : list (RateLimit.request * Z))
  (answers : list RateLimit.answer) : list bool :=
  match calls, answers with
  | (req, _) :: calls', a :: answers' =>
      if (RateLimit.key_of req =? k)%string
      then admitted a :: admissions k calls' answers'
      else admissions k calls' answers'
  | _, _ => []
  end.

(** The number of calls made under the key [k]. *)
Definition calls_of (k : string) (calls : list (RateLimit.request * Z)) : nat :=
  List.length
    (List.filter (fun c => (RateLimit.key_of (fst c) =? k)%string) calls).

(** [live windowMs now requests]: every entry is within its window at [now]
    and has counted a request. *)
Definition live (windowMs now : Z) (requests : RateLimit.store) : Prop :=
  Forall (fun kv => now - RateLimit.timestamp (snd kv) <= windowMs
                    /\ 1 <= RateLimit.count (snd kv)) requests.

Definition teller : RateLimit.request :=
  {| RateLimit.ip := "10.0.0.7"; RateLimit.user_id := Some 12 |}.

Definition visitor : RateLimit.request :=
  {| RateLimit.ip := "10.0.0.9"; RateLimit.user_id := None |}.

(** Another client, whose key is that of the teller. *)
Definition neighbour : RateLimit.request :=
  {| RateLimit.ip := "10.0.0.71"; RateLimit.user_id := Some 2 |}.

(** Four calls of the teller and one of a visitor within a minute. *)
Definition busy_minute : list (RateLimit.request * Z) :=
  [(teller, 1000); (teller, 1200); (visitor, 1500); (teller, 20000);
   (teller, 59000)].

Definition stale_store : RateLimit.store :=
  [(RateLimit.key_of teller,
    {| RateLimit.count := 250; RateLimit.timestamp := 1000 |})].

(** The default templates of a type. *)
Definition defaults_of (ty : string)
  (table : list TemplateModel.ReportTemplate)
  : list TemplateModel.ReportTemplate :=
  List.filter (fun row => (TemplateModel.type row =? ty)%string
                          && TemplateModel.isDefault row) table.

(** [one_default table]: no type has two default templates. *)
Definition one_default (table : list TemplateModel.ReportTemplate) : Prop :=
  forall ty : string, (List.length (defaults_of ty table) <= 1)%nat.

(** The rows of a table carry ids, each its own. *)
Definition keyed (table : list TemplateModel.ReportTemplate) : Prop :=
  Forall (fun row => TemplateModel.id row <> None) table
  /\ NoDup (map TemplateModel.id table).

(** What [validateData] asks of the data for one entry of the schema. *)
Definition entry_ok (data : JS.obj) (entry : string * TemplateModel.config)
  : bool :=
  let value := JS.get data (fst entry) in
  (negb (JS.truthy (TemplateModel.required (snd entry))) || JS.truthy value)
  && (negb (JS.truthy value && JS.truthy (TemplateModel.ctype (snd entry)))
      || JS.strict_equal (JS.VStr (TemplateModel.typeof value))
           (TemplateModel.ctype (snd entry))).

Definition template_row (i : Z) (ty : string) (d : bool)
  : TemplateModel.ReportTemplate :=
  {| TemplateModel.id := Some i; TemplateModel.type := ty;
     TemplateModel.isDefault := d;
     TemplateModel.parameters := Some [("currency", JS.VStr "KES")]%string;
     TemplateModel.schema := None |}.

Definition new_template (ty : string) (d : bool)
  : TemplateModel.ReportTemplate :=
  {| TemplateModel.id := None; TemplateModel.type := ty;
     TemplateModel.isDefault := d;
     TemplateModel.parameters := None;
     TemplateModel.schema := None |}.

(** A monthly default, a quarterly default and a monthly template. *)
Definition templates : list TemplateModel.ReportTemplate :=
  [template_row 1 "monthly" true; template_row 2 "quarterly" true;
   template_row 3 "monthly" false]%string.

(** A schema that requires a number of members. *)
Definition members_schema : TemplateModel.ReportTemplate :=
  {| TemplateModel.id := Some 4; TemplateModel.type := "monthly";
     TemplateModel.isDefault := false;
     TemplateModel.parameters := None;
     TemplateModel.schema :=
       Some [("members",
              {| TemplateModel.required := JS.VBool true;
                 TemplateModel.ctype := JS.VStr "number" |})] |}%string.

(** The first month of the quarter after [now], as year and month. *)
Definition following_quarter (now : ReportModel.date) : Z * Z :=
  if 9 <=? ReportModel.month now then (ReportModel.year now + 1, 0)
  else (ReportModel.year now, (ReportModel.month now / 3 + 1) * 3).

(** [later a b]: the day [b] comes after the day [a]. *)
Definition later (a b : ReportModel.date) : Prop :=
  (ReportModel.year a * 12 + ReportModel.month a) * 32 + ReportModel.day a
  < (ReportModel.year b * 12 + ReportModel.month b) * 32 + ReportModel.day b.

(** The types for which the hook computes a due date. *)
Definition periodic_types : list string :=
  ["monthly"; "quarterly"; "annual"]%string.

Definition august_20 : ReportModel.date :=
  {| ReportModel.year := 2024; ReportModel.month := 7; ReportModel.day := 20 |}.

Definition quarterly_report : ReportModel.Report :=
  {| ReportModel.type := "quarterly"%string; ReportModel.dueDate := None |}.

Definition annual_report : ReportModel.Report :=
  {| ReportModel.type := "annual"%string; ReportModel.dueDate := None |}.

(** [sound st]: the array holds addresses of the heap, each once. *)
Definition sound (st : MockReports.state) : Prop :=
  Forall (fun a => (a < List.length (MockReports.heap st))%nat)
         (MockReports.mockReports st)
  /\ NoDup (MockReports.mockReports st).

(** The ids 1, 2, ..., n. *)
Definition ids_to (n : nat) : list Z := map Z.of_nat (seq 1 n).

(** [numbered st]: the reports of the array carry the ids 1, 2, ... in this
    order. *)
Definition numbered (st : MockReports.state) : Prop :=
  map MockReports.id (MockReports.reports st) =
  ids_to (List.length (MockReports.mockReports st)).

(** The two reports that the module starts with. *)
Definition january_report : MockReports.Report :=
  {| MockReports.id := 1;
     MockReports.title := "Monthly SASRA Compliance Report - January 2024";
     MockReports.type := "monthly";
     MockReports.status := "completed";
     MockReports.generatedBy := 1;
     MockReports.generatedAt := 1706659200000;
     MockReports.data :=
       [("totalMembers", JS.VNum (Num.of_Z 2847));
        ("totalAssets", JS.VNum (Num.of_Z 45200000));
        ("totalLiabilities", JS.VNum (Num.of_Z 32000000));
        ("netWorth", JS.VNum (Num.of_Z 13200000));
        ("complianceScore",
         JS.VNum (Num.div (Num.of_Z 952) (Num.of_Z 10)))];
     MockReports.template := None;
     MockReports.fileUrl := Some "/reports/monthly-jan-2024.pdf";
     MockReports.updatedAt := None;
     MockReports.completedAt := None |}%string.

Definition quarter_report : MockReports.Report :=
  {| MockReports.id := 2;
     MockReports.title := "Quarterly Financial Report - Q4 2023";
     MockReports.type := "quarterly";
     MockReports.status := "pending";
     MockReports.generatedBy := 2;
     MockReports.generatedAt := 1705276800000;
     MockReports.data :=
       [("totalMembers", JS.VNum (Num.of_Z 2800));
        ("totalAssets", JS.VNum (Num.of_Z 44000000));
        ("totalLiabilities", JS.VNum (Num.of_Z 31500000));
        ("netWorth", JS.VNum (Num.of_Z 12500000));
        ("complianceScore",
         JS.VNum (Num.div (Num.of_Z 928) (Num.of_Z 10)))];
     MockReports.template := None;
     MockReports.fileUrl := None;
     MockReports.updatedAt := None;
     MockReports.completedAt := None |}%string.

Definition initial_reports : MockReports.state :=
  {| MockReports.heap := [january_report; quarter_report];
     MockReports.mockReports := [0%nat; 1%nat] |}.

Definition annual_body : MockReports.body :=
  {| MockReports.body_title := "Annual returns 2023";
     MockReports.body_type := "annual";
     MockReports.body_data := None;
     MockReports.body_template := None |}%string.

(** A body of [PUT /:id] that passes [validateReport]: a title of 5 to 200
    characters and a type of the list. *)
Definition retitled : MockReports.changes :=
  {| MockReports.new_title :=
       Some "Quarterly Financial Report - Q4 2023 (final)";
     MockReports.new_type := Some "quarterly";
     MockReports.new_data := None;
     MockReports.new_status := None |}%string.

(** The pages 1, 2, ..., k of a listing, one request each. *)
Definition pages_to
  (array_sort : (MockReports.Report -> MockReports.Report -> Num.t) ->
                list MockReports.Report -> list MockReports.Report)
  (st : MockReports.state) (by_type by_status : option string)
  (limit : string) (numbers : list string) : list (list MockReports.Report) :=
  map (fun number =>
         fst (MockReports.listReports array_sort st
                {| MockReports.page := Some number;
                   MockReports.limit := Some limit;
                   MockReports.by_type := by_type;
                   MockReports.by_status := by_status |})) numbers.

(** A stable insertion sort for the listing. *)
Fixpoint insert_report
  (cmp : MockReports.Report -> MockReports.Report -> Num.t)
  (x : MockReports.Report) (l : list MockReports.Report)
  : list MockReports.Report :=
  match l with
  | [] => [x]
  | y :: l' =>
      if Num.ltb Num.zero (cmp x y) then y :: insert_report cmp x l'
      else x :: l
  end.

Definition sort_reports
  (cmp : MockReports.Report -> MockReports.Report -> Num.t)
  (l : list MockReports.Report) : list MockReports.Report :=
  fold_right (insert_report cmp) [] l.

(** [Array.prototype.join(',')] on strings. *)
Fixpoint join (keys : list string) : string :=
  match keys with
  | [] => EmptyString
  | [k] => k
  | k :: others => k ++ "," ++ join others
  end%string.

(** A string that holds no comma. *)
Fixpoint comma_free (s : string) : bool :=
  match s with
  | EmptyString => true
  | String c s' => negb (Ascii.eqb c ",") && comma_free s'
  end.

(** [registered users]: the ids are 1, 2, ... in the order of the array and
    no two users share an email. *)
Definition registered (users : list MockUsers.User) : Prop :=
  map MockUsers.id users = ids_to (List.length users)
  /\ NoDup (map MockUsers.email users).

(** A [bcrypt] that accepts a password for the hashes made of it. *)
Definition hashes_verify (crypto : MockUsers.Crypto) : Prop :=
  forall password salt hashed,
    MockUsers.hash password salt = Some hashed ->
    MockUsers.compare password hashed = Some true.

(** A stand-in for the two libraries: the hash is the password behind a
    prefix, and the token names the secret and the user. *)
Definition toy_crypto : MockUsers.Crypto :=
  {| MockUsers.hash := fun password salt => Some ("hashed:" ++ password)%string;
     MockUsers.compare := fun password hashed =>
       Some (hashed =? "hashed:" ++ password)%string;
     MockUsers.sign := fun p secret t =>
       Some (secret ++ "." ++ MockUsers.payload_email p)%string |}.

Definition admin_user : MockUsers.User :=
  {| MockUsers.id := 1;
     MockUsers.email := "admin@sacco.com";
     MockUsers.password :=
       "$2a$10$92IXUNpkjO0rOQ5byMi.Ye4oKoEa3Ro9llC/.og/at2.uheWG/igi";
     MockUsers.firstName := "Admin";
     MockUsers.lastName := "User";
     MockUsers.role := "admin";
     MockUsers.department := "IT";
     MockUsers.position := "System Administrator";
     MockUsers.createdAt := 1706745600000;
     MockUsers.lastLogin := 1706745600000 |}%string.

Definition manager_user : MockUsers.User :=
  {| MockUsers.id := 2;
     MockUsers.email := "manager@sacco.com";
     MockUsers.password :=
       "$2a$10$92IXUNpkjO0rOQ5byMi.Ye4oKoEa3Ro9llC/.og/at2.uheWG/igi";
     MockUsers.firstName := "Manager";
     MockUsers.lastName := "User";
     MockUsers.role := "manager";
     MockUsers.department := "Operations";
     MockUsers.position := "Operations Manager";
     MockUsers.createdAt := 1706745600000;
     MockUsers.lastLogin := 1706745600000 |}%string.

Definition teller_registration : MockUsers.registration :=
  {| MockUsers.body_email := "teller@sacco.com";
     MockUsers.body_password := "s3cret-pw";
     MockUsers.body_firstName := "Wanjiru";
     MockUsers.body_lastName := "Kamau";
     MockUsers.body_role := None;
     MockUsers.body_department := None;
     MockUsers.body_position := None |}%string.

(** * Properties *)

(** ** Binary64 arithmetic

    Facts about the rounding of [SpecFloat] at precision 53: shifting a
    mantissa right, rounding to nearest even, and the bounds that survive
    a division and a multiplication. *)

Lemma iter_pos_nat {A} (f : A -> A) p x :
  iter_pos f p x = Nat.iter (Pos.to_nat p) f x.
Proof.
  revert x; induction p as [p IH | p IH |]; intros x; cbn [iter_pos].
  - rewrite !IH, Pos2Nat.inj_xI.
    rewrite <- Nat.iter_succ_r, <- Nat.iter_add. f_equal; lia.
  - rewrite !IH, Pos2Nat.inj_xO, <- Nat.iter_add. f_equal; lia.
  - reflexivity.
Qed.

Lemma digits2_bounds p :
  2 ^ (Z.pos (digits2_pos p) - 1) <= Z.pos p < 2 ^ Z.pos (digits2_pos p).
Proof.
  induction p as [p IH | p IH |]; cbn [digits2_pos].
  - rewrite Pos2Z.inj_succ, Pos2Z.inj_xI.
    replace (Z.succ (Z.pos (digits2_pos p)) - 1) with (Z.succ (Z.pos (digits2_pos p) - 1)) by lia.
    rewrite !Z.pow_succ_r by lia. revert IH.
    generalize (2 ^ (Z.pos (digits2_pos p) - 1)), (2 ^ Z.pos (digits2_pos p)). lia.
  - rewrite Pos2Z.inj_succ. change (Z.pos p~0) with (2 * Z.pos p).
    replace (Z.succ (Z.pos (digits2_pos p)) - 1) with (Z.succ (Z.pos (digits2_pos p) - 1)) by lia.
    rewrite !Z.pow_succ_r by lia. revert IH.
    generalize (2 ^ (Z.pos (digits2_pos p) - 1)), (2 ^ Z.pos (digits2_pos p)). lia.
  - simpl. lia.
Qed.

Lemma Zdigits2_le m k : 0 <= m < 2 ^ k -> 0 <= k -> 0 <= Zdigits2 m <= k.
Proof.
  intros [Hm Hlt] Hk. destruct m as [|p|p]; simpl; try lia.
  pose proof (digits2_bounds p) as [Hlo _].
  assert (Z.pos (digits2_pos p) - 1 < k); [|lia].
  apply (Z.pow_lt_mono_r_iff 2); lia.
Qed.

Lemma shr_1_spec mrs :
  0 <= shr_m mrs ->
  shr_m (shr_1 mrs) = shr_m mrs / 2 /\
  shr_r (shr_1 mrs) = Z.odd (shr_m mrs) /\
  shr_s (shr_1 mrs) = shr_r mrs || shr_s mrs.
Proof.
  destruct mrs as [m r s]; cbn [shr_m shr_r shr_s]; intros Hm.
  rewrite <- Z.div2_div.
  destruct m as [|[p|p|]|p]; try lia; repeat split; reflexivity.
Qed.

Lemma shr_iter_m n mrs :
  0 <= shr_m mrs ->
  shr_m (Nat.iter n shr_1 mrs) = shr_m mrs / 2 ^ Z.of_nat n.
Proof.
  intros Hm. induction n as [|n IH].
  - simpl. now rewrite Z.div_1_r.
  - change (Nat.iter (S n) shr_1 mrs) with (shr_1 (Nat.iter n shr_1 mrs)).
    destruct (shr_1_spec (Nat.iter n shr_1 mrs)) as (-> & _ & _).
    + rewrite IH. apply Z.div_pos; lia.
    + rewrite IH, Nat2Z.inj_succ, Z.pow_succ_r by lia.
      rewrite Z.div_div by lia. f_equal. lia.
Qed.

Lemma shr_iter_exact n mrs :
  0 <= shr_m mrs -> shr_r mrs = false -> shr_s mrs = false ->
  shr_m mrs mod 2 ^ Z.of_nat n = 0 ->
  shr_r (Nat.iter n shr_1 mrs) = false /\ shr_s (Nat.iter n shr_1 mrs) = false.
Proof.
  intros Hm Hr Hs. induction n as [|n IH]; intros Hmod.
  - now simpl.
  - change (Nat.iter (S n) shr_1 mrs) with (shr_1 (Nat.iter n shr_1 mrs)).
    assert (Hpow : 2 ^ Z.of_nat (S n) = 2 ^ Z.of_nat n * 2)
      by (rewrite Nat2Z.inj_succ, Z.pow_succ_r by lia; lia).
    assert (H2n : 0 < 2 ^ Z.of_nat n) by (apply Z.pow_pos_nonneg; lia).
    rewrite Hpow in Hmod.
    apply Z.mod_divide in Hmod; [|lia]. destruct Hmod as [k Hk].
    destruct IH as [IHr IHs].
    { apply Z.mod_divide; [lia|]. exists (k * 2). lia. }
    destruct (shr_1_spec (Nat.iter n shr_1 mrs)) as (_ & -> & ->).
    + rewrite shr_iter_m by assumption. apply Z.div_pos; lia.
    + rewrite IHr, IHs, shr_iter_m by assumption. split; [|reflexivity].
      rewrite Hk. replace (k * (2 ^ Z.of_nat n * 2)) with (k * 2 * 2 ^ Z.of_nat n) by lia.
      rewrite Z.div_mul by lia. rewrite Z.odd_mul. simpl. apply andb_false_r.
Qed.

Lemma rne_bounds mrs :
  shr_m mrs <= round_nearest_even (shr_m mrs) (loc_of_shr_record mrs) <= shr_m mrs + 1.
Proof.
  destruct mrs as [m [|] [|]]; simpl; try lia.
  destruct (Z.even m); lia.
Qed.

Lemma rne_exact mrs :
  shr_r mrs = false -> shr_s mrs = false ->
  round_nearest_even (shr_m mrs) (loc_of_shr_record mrs) = shr_m mrs.
Proof. destruct mrs as [m r s]; simpl; intros -> ->; reflexivity. Qed.

Lemma shr_record_of_loc_m m l : shr_m (shr_record_of_loc m l) = m.
Proof. destruct l as [|[| |]]; reflexivity. Qed.

(** [shr_fexp]: the mantissa is divided by a power of two bringing the
    exponent up to the format's, and nothing is lost when the dropped bits
    of an exact value are zero. *)
Lemma shr_fexp_spec m e l :
  0 <= m ->
  let e' := Z.max e (fexp Num.prec Num.emax (Zdigits2 m + e)) in
  exists mrs,
    shr_fexp Num.prec Num.emax m e l = (mrs, e') /\
    shr_m mrs = m / 2 ^ (e' - e) /\
    (l = loc_Exact -> m mod 2 ^ (e' - e) = 0 ->
     shr_r mrs = false /\ shr_s mrs = false).
Proof.
  intros Hm e'. unfold shr_fexp, shr.
  remember (fexp Num.prec Num.emax (Zdigits2 m + e)) as fe.
  destruct (fe - e) as [|p|p] eqn:Hn.
  - exists (shr_record_of_loc m l). replace e' with e by lia.
    rewrite Z.sub_diag, Z.pow_0_r, Z.div_1_r, shr_record_of_loc_m.
    split; [reflexivity|]. split; [reflexivity|]. intros -> _. split; reflexivity.
  - exists (iter_pos shr_1 p (shr_record_of_loc m l)).
    replace e' with (e + Z.pos p) by lia.
    replace (e + Z.pos p - e) with (Z.of_nat (Pos.to_nat p)) by lia.
    rewrite iter_pos_nat. split; [reflexivity|]. split.
    + rewrite shr_iter_m; rewrite shr_record_of_loc_m; trivial.
    + intros -> Hmod. apply shr_iter_exact; trivial.
  - exists (shr_record_of_loc m l). replace e' with e by lia.
    rewrite Z.sub_diag, Z.pow_0_r, Z.div_1_r, shr_record_of_loc_m.
    split; [reflexivity|]. split; [reflexivity|]. intros -> _. split; reflexivity.
Qed.

Lemma pow2_split a b : 0 <= a -> 0 <= b -> 2 ^ (a + b) = 2 ^ a * 2 ^ b.
Proof. intros; apply Z.pow_add_r; assumption. Qed.

Lemma pow2_pos a : 0 <= a -> 0 < 2 ^ a.
Proof. intros; apply Z.pow_pos_nonneg; lia. Qed.

Lemma fexp_le m e Bm Be :
  0 <= m <= Bm * 2 ^ (Be - e) -> 0 < Bm < 2 ^ Num.prec -> -1074 <= Be -> e <= Be ->
  Z.max e (fexp Num.prec Num.emax (Zdigits2 m + e)) <= Be.
Proof.
  intros Hm HB HBe He.
  assert (HP : 0 < 2 ^ (Be - e)) by (apply pow2_pos; lia).
  assert (Hd : 0 <= Zdigits2 m <= Num.prec + (Be - e)).
  { apply Zdigits2_le; [|unfold Num.prec; lia].
    rewrite pow2_split by (unfold Num.prec; lia). nia. }
  unfold fexp, emin, Num.prec, Num.emax in *. lia.
Qed.

Lemma binary_round_aux_below mx ex lx Bm Be :
  0 <= mx -> 0 < Bm < 2 ^ Num.prec -> -1074 <= Be <= Num.emax - Num.prec -> ex <= Be ->
  (mx + 1 <= Bm * 2 ^ (Be - ex) \/ (lx = loc_Exact /\ mx <= Bm * 2 ^ (Be - ex))) ->
  below Bm Be (binary_round_aux Num.prec Num.emax false mx ex lx).
Proof.
  intros Hmx HB HBe Hex Hcase.
  assert (Hle : 0 <= mx <= Bm * 2 ^ (Be - ex)) by (destruct Hcase as [?|[_ ?]]; lia).
  unfold binary_round_aux.
  destruct (shr_fexp_spec mx ex lx Hmx) as (mrs1 & E1 & Hm1 & Hexact1). rewrite E1.
  pose proof (fexp_le mx ex Bm Be Hle HB (proj1 HBe) Hex) as He1.
  set (e1 := Z.max ex (fexp Num.prec Num.emax (Zdigits2 mx + ex))) in *.
  assert (Hee : ex <= e1) by (unfold e1; lia).
  set (m2 := round_nearest_even (shr_m mrs1) (loc_of_shr_record mrs1)).
  assert (HP : 0 < 2 ^ (e1 - ex)) by (apply pow2_pos; lia).
  assert (HI : 0 < 2 ^ (Be - e1)) by (apply pow2_pos; lia).
  assert (Hsplit : 2 ^ (Be - ex) = 2 ^ (Be - e1) * 2 ^ (e1 - ex)).
  { rewrite <- pow2_split by lia. f_equal; lia. }
  assert (Hm2 : 0 <= m2 <= Bm * 2 ^ (Be - e1)).
  { pose proof (rne_bounds mrs1) as Hr. fold m2 in Hr.
    assert (0 <= shr_m mrs1) by (rewrite Hm1; apply Z.div_pos; lia).
    split; [lia|].
    pose proof (Z.div_mod mx (2 ^ (e1 - ex)) ltac:(lia)) as Hdm.
    pose proof (Z.mod_pos_bound mx (2 ^ (e1 - ex)) HP) as Hmod.
    rewrite <- Hm1 in Hdm. rewrite Hsplit in Hcase.
    destruct Hcase as [Hc | [-> Hc]].
    - assert (shr_m mrs1 < Bm * 2 ^ (Be - e1)); [|lia]. nia.
    - destruct (Z.eq_dec (mx mod 2 ^ (e1 - ex)) 0) as [Hz|Hnz].
      + destruct (Hexact1 eq_refl Hz) as [Hr1 Hs1].
        unfold m2. rewrite (rne_exact _ Hr1 Hs1). nia.
      + assert (shr_m mrs1 < Bm * 2 ^ (Be - e1)); [|lia]. nia. }
  destruct (shr_fexp_spec m2 e1 loc_Exact (proj1 Hm2)) as (mrs2 & E2 & Hm3 & _).
  rewrite E2.
  pose proof (fexp_le m2 e1 Bm Be Hm2 HB (proj1 HBe) He1) as He2.
  set (e2 := Z.max e1 (fexp Num.prec Num.emax (Zdigits2 m2 + e1))) in *.
  assert (Hee2 : e1 <= e2) by (unfold e2; lia).
  assert (HP2 : 0 < 2 ^ (e2 - e1)) by (apply pow2_pos; lia).
  assert (Hsplit2 : 2 ^ (Be - e1) = 2 ^ (Be - e2) * 2 ^ (e2 - e1)).
  { rewrite <- pow2_split by lia. f_equal; lia. }
  assert (Hm3' : 0 <= shr_m mrs2 <= Bm * 2 ^ (Be - e2)).
  { rewrite Hm3. split; [apply Z.div_pos; lia|].
    apply Z.div_le_upper_bound; [lia|]. rewrite Hsplit2 in Hm2. lia. }
  destruct (shr_m mrs2) as [|m|m]; cbn [below]; [reflexivity| |lia].
  replace (e2 <=? Num.emax - Num.prec) with true by (symmetry; apply Z.leb_le; lia).
  cbn [below]. repeat split; lia.
Qed.

Lemma digits2_unique m k :
  2 ^ (k - 1) <= Z.pos m < 2 ^ k -> Z.pos (digits2_pos m) = k.
Proof.
  intros [Hlo Hhi]. pose proof (digits2_bounds m) as [Hlo' Hhi'].
  assert (0 < k).
  { destruct (Z.ltb_spec 0 k); trivial.
    rewrite Z.pow_neg_r in Hlo by lia.
    destruct (Z.eq_dec k 0) as [->|]; [simpl in Hhi; lia|].
    rewrite Z.pow_neg_r in Hhi by lia. lia. }
  assert (Z.pos (digits2_pos m) - 1 < k)
    by (apply (Z.pow_lt_mono_r_iff 2); lia).
  assert (k - 1 < Z.pos (digits2_pos m))
    by (apply (Z.pow_lt_mono_r_iff 2); lia).
  lia.
Qed.

Lemma iter_xO_pow p k : Z.pos (Pos.iter xO p k) = Z.pos p * 2 ^ Z.pos k.
Proof.
  induction k as [|k IH] using Pos.peano_ind.
  - simpl. lia.
  - rewrite Pos.iter_succ, Pos2Z.inj_succ, Z.pow_succ_r by lia.
    change (Z.pos (Pos.iter xO p k)~0) with (2 * Z.pos (Pos.iter xO p k)).
    rewrite IH. lia.
Qed.

Lemma shr_fexp_fixed M e l :
  fexp Num.prec Num.emax (Z.pos (digits2_pos M) + e) <= e ->
  shr_fexp Num.prec Num.emax (Z.pos M) e l = (shr_record_of_loc (Z.pos M) l, e).
Proof.
  intros Hf. unfold shr_fexp, shr. cbn [Zdigits2].
  destruct (fexp Num.prec Num.emax (Z.pos (digits2_pos M) + e) - e) eqn:Hd;
    try reflexivity; lia.
Qed.

(** A full mantissa followed by zero bits rounds to itself. *)
Lemma binary_round_aux_shifted M n e p :
  0 <= n -> Z.pos (digits2_pos M) = Num.prec ->
  -1074 <= e <= Num.emax - Num.prec ->
  Z.pos p = Z.pos M * 2 ^ n ->
  binary_round_aux Num.prec Num.emax false (Z.pos p) (e - n) loc_Exact
  = S754_finite false M e.
Proof.
  intros Hn Hdig He Hp. unfold binary_round_aux.
  pose proof (digits2_bounds M) as [Hlo Hhi]. rewrite Hdig in Hlo, Hhi.
  assert (Hpn : 0 < 2 ^ n) by (apply pow2_pos; lia).
  assert (Hdp : Z.pos (digits2_pos p) = Num.prec + n).
  { apply digits2_unique. rewrite Hp.
    replace (Num.prec + n - 1) with ((Num.prec - 1) + n) by lia.
    rewrite !pow2_split by (unfold Num.prec; lia). nia. }
  destruct (shr_fexp_spec (Z.pos p) (e - n) loc_Exact ltac:(lia))
    as (mrs1 & E1 & Hm1 & Hx1).
  cbn [Zdigits2] in *. rewrite Hdp in *.
  replace (Z.max (e - n) (fexp Num.prec Num.emax (Num.prec + n + (e - n)))) with e in *
    by (unfold fexp, emin, Num.prec, Num.emax in *; lia).
  replace (e - (e - n)) with n in * by lia.
  rewrite E1. rewrite Hp in Hm1, Hx1.
  rewrite Z.div_mul in Hm1 by lia.
  destruct (Hx1 eq_refl) as [Hr Hs]; [apply Z.mod_mul; lia|].
  rewrite (rne_exact _ Hr Hs), Hm1.
  rewrite shr_fexp_fixed
    by (rewrite Hdig; unfold fexp, emin, Num.prec, Num.emax in *; lia).
  cbn [shr_record_of_loc shr_m].
  replace (e <=? Num.emax - Num.prec) with true by (symmetry; apply Z.leb_le; lia).
  reflexivity.
Qed.

(** [binary_round] depends on the value only: a mantissa and exponent that
    denote the same number as a full mantissa [M] at exponent [-a]. *)
Lemma binary_round_value p E M a :
  0 <= E -> 0 <= a <= 1074 -> Z.pos (digits2_pos M) = Num.prec ->
  Z.pos p * 2 ^ a = Z.pos M * 2 ^ E ->
  binary_round Num.prec Num.emax false p (- E) = S754_finite false M (- a).
Proof.
  intros HE Ha Hdig Hval. unfold binary_round.
  pose proof (digits2_bounds M) as [Hlo Hhi]. rewrite Hdig in Hlo, Hhi.
  pose proof (digits2_bounds p) as [Hlop Hhip].
  set (d := Z.pos (digits2_pos p)) in *.
  assert (HpE : 0 < 2 ^ E) by (apply pow2_pos; lia).
  assert (Hpa : 0 < 2 ^ a) by (apply pow2_pos; lia).
  assert (Hd : d + a = Num.prec + E).
  { assert (d - 1 + a < Num.prec + E).
    { apply (Z.pow_lt_mono_r_iff 2); [lia | unfold Num.prec; lia|].
      rewrite !pow2_split by (unfold d, Num.prec; lia). nia. }
    assert (Num.prec - 1 + E < d + a).
    { apply (Z.pow_lt_mono_r_iff 2); [lia | unfold d; lia|].
      rewrite !pow2_split by (unfold d, Num.prec; lia). nia. }
    lia. }
  replace (fexp Num.prec Num.emax (d + - E)) with (- a)
    by (unfold fexp, emin, Num.prec, Num.emax in *; lia).
  unfold shl_align.
  destruct (- a - - E) as [|k|k] eqn:Hk.
  - assert (a = E) by lia. subst a.
    assert (p = M) by nia. subst p.
    replace (- E) with (- E - 0) at 1 by lia.
    apply binary_round_aux_shifted;
      [lia | assumption | unfold Num.prec, Num.emax; lia | simpl; lia].
  - replace (- E) with (- a - Z.pos k) by lia.
    apply binary_round_aux_shifted;
      [lia | assumption | unfold Num.prec, Num.emax; lia |].
    assert (E = a + Z.pos k) by lia. subst E.
    rewrite pow2_split in Hval by lia. nia.
  - assert (Hm : Z.pos (Pos.iter xO p k) = Z.pos M).
    { rewrite iter_xO_pow. assert (a = E + Z.pos k) by lia. subst a.
      rewrite pow2_split in Hval by lia. nia. }
    injection Hm as ->.
    replace (- a) with (- a - 0) at 1 by lia.
    apply binary_round_aux_shifted;
      [lia | assumption | unfold Num.prec, Num.emax; lia | simpl; lia].
Qed.

(** The Number of a positive integer below 2^53 is that integer, on a full
    mantissa. *)
Lemma of_Z_canonical z :
  0 < z < 2 ^ Num.prec ->
  exists m a,
    Num.of_Z z = S754_finite false m (- a) /\ 0 <= a <= 52
    /\ Z.pos m = z * 2 ^ a /\ Z.pos (digits2_pos m) = Num.prec.
Proof.
  intros [Hz Hlt]. destruct z as [|p|p]; try lia.
  pose proof (digits2_bounds p) as [Hlo Hhi].
  set (d := Z.pos (digits2_pos p)) in *.
  assert (Hd : 1 <= d <= Num.prec).
  { split; [unfold d; lia|].
    assert (d - 1 < Num.prec); [|lia].
    apply (Z.pow_lt_mono_r_iff 2); unfold Num.prec in *; lia. }
  set (a := Num.prec - d).
  assert (Hpa : 0 < 2 ^ a) by (apply pow2_pos; unfold a; lia).
  set (m := Z.to_pos (Z.pos p * 2 ^ a)).
  assert (Hm : Z.pos m = Z.pos p * 2 ^ a) by (unfold m; rewrite Z2Pos.id; lia).
  assert (Hdig : Z.pos (digits2_pos m) = Num.prec).
  { apply digits2_unique. rewrite Hm.
    assert (E1 : 2 ^ (Num.prec - 1) = 2 ^ (d - 1) * 2 ^ a)
      by (rewrite <- pow2_split by (unfold a; lia); f_equal; unfold a; lia).
    assert (E2 : 2 ^ Num.prec = 2 ^ d * 2 ^ a)
      by (rewrite <- pow2_split by (unfold a; lia); f_equal; unfold a; lia).
    rewrite E1, E2. nia. }
  exists m, a. split; [|split; [unfold a, Num.prec in *; lia | split; assumption]].
  unfold Num.of_Z, binary_normalize. change 0 with (- 0) at 1.
  apply binary_round_value; [lia | unfold a, Num.prec in *; lia | exact Hdig |].
  rewrite Hm. simpl. lia.
Qed.

Lemma shl_align_fst m e e' :
  e' <= e -> Z.pos (fst (shl_align m e e')) = Z.pos m * 2 ^ (e - e').
Proof.
  intros He. unfold shl_align.
  destruct (e' - e) as [|k|k] eqn:Hk; cbn [fst]; try lia.
  - replace (e - e') with 0 by lia. simpl. lia.
  - rewrite iter_xO_pow. f_equal. f_equal. lia.
Qed.



(** Integers below 2^53 are Numbers: [of_Z z] is the float [z * 2^a * 2^-a]. *)
Lemma of_Z_exact z :
  0 < z < 2 ^ Num.prec ->
  exists m a, Num.of_Z z = S754_finite false m (- a) /\ 0 <= a /\ Z.pos m = z * 2 ^ a.
Proof.
  intros Hz. destruct (of_Z_canonical z Hz) as (m & a & Hof & Ha & Hm & _).
  exists m, a. repeat split; [exact Hof | lia | exact Hm].
Qed.

(** The quotient of two positive Numbers stays below a bound [Bm * 2^Be],
    at most 1, that lies above their exact quotient. *)
Lemma div_below mx a my b Bm Be :
  0 <= a -> 0 <= b -> 0 < Bm <= 2 ^ (- Be) -> -52 <= Be <= 0 ->
  Z.pos mx * 2 ^ b * 2 ^ (- Be) < Bm * (Z.pos my * 2 ^ a) ->
  below Bm Be (Num.div (S754_finite false mx (- a)) (S754_finite false my (- b))).
Proof.
  intros Ha Hb HB HBe Hlt. unfold Num.div, SFdiv, SFdiv_core_binary. cbn [Zdigits2 xorb].
  pose proof (digits2_bounds mx) as [Hlo1 _].
  pose proof (digits2_bounds my) as [_ Hhi2].
  set (d1 := Z.pos (digits2_pos mx)) in *. set (d2 := Z.pos (digits2_pos my)) in *.
  assert (Hpa : 0 < 2 ^ a) by (apply pow2_pos; lia).
  assert (Hpb : 0 < 2 ^ b) by (apply pow2_pos; lia).
  assert (HpB : 0 < 2 ^ (- Be)) by (apply pow2_pos; lia).
  assert (Hxy : Z.pos mx * 2 ^ b < Z.pos my * 2 ^ a) by nia.
  assert (Hd : d1 + - a - (d2 + - b) <= 0).
  { assert (d1 - 1 + b < d2 + a); [|lia].
    apply (Z.pow_lt_mono_r_iff 2); [lia|unfold d2; lia|].
    rewrite !pow2_split by (unfold d1, d2; lia). nia. }
  set (e' := Z.min (fexp Num.prec Num.emax (d1 + - a - (d2 + - b))) (- a - - b)).
  assert (He' : e' <= -53 /\ e' <= b - a)
    by (unfold e', fexp, emin, Num.prec, Num.emax; lia).
  set (s := - a - - b - e').
  assert (Hs : 0 <= s) by (unfold s; lia).
  set (m' := match s with Z.pos _ => Z.shiftl (Z.pos mx) s | 0 => Z.pos mx | Z.neg _ => 0 end).
  assert (Hm' : m' = Z.pos mx * 2 ^ s).
  { unfold m'. destruct s as [|p|p] eqn:Es; try lia.
    apply Z.shiftl_mul_pow2. lia. }
  destruct (Z.div_eucl m' (Z.pos my)) as [q r] eqn:Ediv.
  assert (Hq : q = m' / Z.pos my) by (unfold Z.div; now rewrite Ediv).
  assert (Hps : 0 < 2 ^ s) by (apply pow2_pos; lia).
  assert (Hpe : 0 < 2 ^ (Be - e')) by (apply pow2_pos; lia).
  assert (Hkey : m' < Z.pos my * (Bm * 2 ^ (Be - e'))).
  { rewrite Hm'.
    assert (E : 2 ^ s * 2 ^ a = 2 ^ b * (2 ^ (- Be) * 2 ^ (Be - e'))).
    { rewrite <- !pow2_split by lia. f_equal. unfold s. lia. }
    nia. }
  apply binary_round_aux_below; try (unfold Num.prec, Num.emax; lia).
  - rewrite Hq. apply Z.div_pos; lia.
  - split; [lia|]. apply Z.le_lt_trans with (2 ^ (- Be)); [lia|].
    apply Z.pow_lt_mono_r; unfold Num.prec; lia.
  - left. assert (q < Bm * 2 ^ (Be - e')); [|lia].
    rewrite Hq. apply Z.div_lt_upper_bound; lia.
Qed.

Lemma mul_hundred_below Bm Be x :
  0 < Bm -> 100 * Bm < 2 ^ Num.prec -> -1074 <= Be <= 0 ->
  below Bm Be x -> below (100 * Bm) Be (Num.mul x Num.hundred).
Proof.
  intros HB HB' HBe.
  destruct x as [s| | |s m e]; cbn [below]; try contradiction.
  - intros ->. reflexivity.
  - intros (-> & He & Hm). unfold Num.mul, SFmul, Num.hundred. cbn [xorb].
    apply binary_round_aux_below; try (unfold Num.prec, Num.emax in *; lia).
    right. split; [reflexivity|].
    rewrite Pos2Z.inj_mul.
    replace (Be - (e + -46)) with (46 + (Be - e)) by lia.
    rewrite pow2_split by lia.
    change (Z.pos 7036874417766400) with (100 * 2 ^ 46). nia.
Qed.

Lemma to_Z_of_Z z : 0 <= z < 2 ^ Num.prec -> Num.to_Z (Num.of_Z z) = Some z.
Proof.
  intros [Hz Hlt]. destruct (Z.eq_dec z 0) as [->|Hnz]; [reflexivity|].
  destruct (of_Z_exact z ltac:(lia)) as (m & a & -> & Ha & Hm).
  unfold Num.to_Z. destruct (Z.leb_spec 0 (- a)).
  - replace a with 0 in * by lia. rewrite Hm. simpl. f_equal. lia.
  - rewrite Z.opp_involutive, Hm.
    rewrite Z.mod_mul by (apply Z.pow_nonzero; lia).
    cbn [Z.eqb]. rewrite Z.div_mul by (apply Z.pow_nonzero; lia). reflexivity.
Qed.

(** [Math.round] of a Number below [K + 1/2] is an integer from 0 to [K]. *)
Lemma round_below Bm Be K x :
  Be <= 0 -> 2 * Bm < (2 * K + 1) * 2 ^ (- Be) -> 0 <= K < 2 ^ Num.prec ->
  below Bm Be x ->
  exists k, Num.to_Z (Num.round x) = Some k /\ 0 <= k <= K.
Proof.
  intros HBe HK HKp.
  destruct x as [s| | |s m e]; cbn [below]; try contradiction.
  - intros ->. exists 0. split; [reflexivity | lia].
  - intros (-> & He & Hm). unfold Num.round.
    destruct (Z.leb_spec 0 e).
    + replace e with 0 in * by lia. replace Be with 0 in * by lia.
      exists (Z.pos m). cbn [Num.to_Z Z.leb Z.compare].
      change (2 ^ (- 0)) with 1 in HK. change (2 ^ (0 - 0)) with 1 in Hm.
      change (2 ^ 0) with 1.
      split; [f_equal; lia | lia].
    + set (n := - e). assert (Hn : 0 < n) by (unfold n; lia).
      assert (Hp : 0 < 2 ^ n) by (apply pow2_pos; lia).
      assert (Hh : 0 < 2 ^ (n - 1)) by (apply pow2_pos; lia).
      assert (H2 : 2 ^ n = 2 * 2 ^ (n - 1)).
      { rewrite <- Z.pow_succ_r by lia. f_equal. lia. }
      assert (Hsplit : 2 ^ n = 2 ^ (- Be) * 2 ^ (Be - e)).
      { rewrite <- pow2_split by lia. f_equal. unfold n. lia. }
      assert (HpB : 0 < 2 ^ (- Be)) by (apply pow2_pos; lia).
      assert (Hpe : 0 < 2 ^ (Be - e)) by (apply pow2_pos; lia).
      set (k := (Z.pos m + 2 ^ (n - 1)) / 2 ^ n).
      assert (Hk : 0 <= k <= K).
      { split; [apply Z.div_pos; lia|].
        assert (k < K + 1); [|lia]. apply Z.div_lt_upper_bound; [lia|].
        nia. }
      exists k. destruct (Z.eqb_spec k 0) as [->|Hk0].
      * split; [reflexivity | lia].
      * split; [|exact Hk]. apply to_Z_of_Z. lia.
Qed.

Lemma div_self m e :
  Num.div (S754_finite false m e) (S754_finite false m e) = Num.one.
Proof.
  unfold Num.div, SFdiv, SFdiv_core_binary. cbn [Zdigits2 xorb].
  rewrite !Z.sub_diag.
  change (Z.min (fexp Num.prec Num.emax 0) 0) with (-53).
  change (0 - -53) with 53.
  rewrite Z.shiftl_mul_pow2 by lia.
  destruct (Z.div_eucl (Z.pos m * 2 ^ 53) (Z.pos m)) as [q r] eqn:Ediv.
  assert (Hq : q = 2 ^ 53).
  { transitivity (Z.pos m * 2 ^ 53 / Z.pos m); [unfold Z.div; now rewrite Ediv|].
    rewrite Z.mul_comm. apply Z.div_mul. lia. }
  assert (Hr : r = 0).
  { transitivity ((Z.pos m * 2 ^ 53) mod Z.pos m); [unfold Z.modulo; now rewrite Ediv|].
    rewrite Z.mul_comm. apply Z.mod_mul. lia. }
  subst q r.
  replace (new_location (Z.pos m) 0) with loc_Exact
    by (unfold new_location; destruct (Z.even (Z.pos m)); reflexivity).
  vm_compute. reflexivity.
Qed.

Lemma value_ge_mono m m' e Lm Le :
  m <= m' -> value_ge m e Lm Le -> value_ge m' e Lm Le.
Proof.
  unfold value_ge. intros Hm H.
  pose proof (pow2_pos (e - Z.min e Le) ltac:(lia)). nia.
Qed.

(** Dropping low bits keeps a mantissa above a bound that is on the coarser
    grid, or that a full mantissa exceeds anyway. *)
Lemma floor_step m e n Lm Le :
  0 <= m -> 0 <= n -> 0 < Lm < 2 ^ Num.prec ->
  value_ge m e Lm Le ->
  e + n <= Le \/ n = 0 \/ 2 ^ (Num.prec - 1) <= m / 2 ^ n ->
  value_ge (m / 2 ^ n) (e + n) Lm Le.
Proof.
  unfold value_ge. intros Hm Hn HL H Hcase.
  assert (Hpn : 0 < 2 ^ n) by (apply pow2_pos; lia).
  destruct (Z.le_gt_cases (e + n) Le) as [Hle|Hgt].
  - replace (Z.min e Le) with e in H by lia.
    replace (Z.min (e + n) Le) with (e + n) by lia.
    rewrite Z.sub_diag, Z.pow_0_r, Z.mul_1_r in *.
    replace (Le - e) with ((Le - (e + n)) + n) in H by lia.
    rewrite pow2_split in H by lia.
    apply Z.div_le_lower_bound; lia.
  - destruct Hcase as [Hc|[->|Hc]]; [lia| |].
    + rewrite Z.pow_0_r, Z.div_1_r, Z.add_0_r. exact H.
    + replace (Z.min (e + n) Le) with Le by lia.
      rewrite Z.sub_diag, Z.pow_0_r, Z.mul_1_r.
      assert (2 <= 2 ^ (e + n - Le)).
      { change 2 with (2 ^ 1) at 1. apply Z.pow_le_mono_r; lia. }
      unfold Num.prec in *. change (2 ^ (53 - 1)) with 4503599627370496 in Hc.
      change (2 ^ 53) with 9007199254740992 in HL. nia.
Qed.

Lemma shr_fexp_above m e l Lm Le mrs e' :
  0 <= m -> 0 < Lm < 2 ^ Num.prec -> -1074 <= Le ->
  value_ge m e Lm Le ->
  shr_fexp Num.prec Num.emax m e l = (mrs, e') ->
  value_ge (shr_m mrs) e' Lm Le /\ 0 <= shr_m mrs.
Proof.
  intros Hm HL HLe Hge Hshr.
  destruct (shr_fexp_spec m e l Hm) as (mrs0 & E & Hm0 & _).
  rewrite E in Hshr. inversion Hshr; subst mrs0 e'. clear Hshr.
  set (e' := Z.max e (fexp Num.prec Num.emax (Zdigits2 m + e))) in *.
  rewrite Hm0. split; [|apply Z.div_pos; [lia | apply pow2_pos; unfold e'; lia]].
  replace e' with (e + (e' - e)) at 2 by lia.
  apply floor_step; trivial; [unfold e'; lia|].
  destruct (Z.le_gt_cases e' Le) as [|Hgt]; [left; lia|].
  destruct (Z.eq_dec e' e) as [|Hne]; [right; left; lia|].
  right. right.
  assert (He' : e' = Zdigits2 m + e - Num.prec)
    by (clear - Hgt Hne HLe; unfold e', fexp, emin, Num.prec, Num.emax in *; lia).
  destruct m as [|p|p];
    [clear - He' Hne; unfold e', fexp, emin, Num.prec, Num.emax in *;
     cbn [Zdigits2] in *; lia| |lia].
  cbn [Zdigits2] in He'. pose proof (digits2_bounds p) as [Hlo _].
  set (d := Z.pos (digits2_pos p)) in *.
  assert (Hn : 0 < e' - e) by (clear - Hne; unfold e' in *; lia).
  unfold Num.prec in He'.
  replace (Num.prec - 1) with ((d - 1) - (e' - e))
    by (clear - He'; unfold Num.prec; lia).
  rewrite Z.pow_sub_r by (clear - He' Hn; lia).
  apply Z.div_le_mono; [apply pow2_pos; lia | exact Hlo].
Qed.

Lemma binary_round_aux_above mx ex lx Lm Le :
  0 <= mx -> 0 < Lm < 2 ^ Num.prec -> -1074 <= Le ->
  value_ge mx ex Lm Le ->
  above Lm Le (binary_round_aux Num.prec Num.emax false mx ex lx).
Proof.
  intros Hmx HL HLe Hge. unfold binary_round_aux.
  destruct (shr_fexp Num.prec Num.emax mx ex lx) as [mrs1 e1] eqn:E1.
  destruct (shr_fexp_above _ _ _ _ _ _ _ Hmx HL HLe Hge E1) as [H1 H1'].
  pose proof (rne_bounds mrs1) as Hr.
  set (m2 := round_nearest_even (shr_m mrs1) (loc_of_shr_record mrs1)) in *.
  assert (H2 : value_ge m2 e1 Lm Le) by (apply (value_ge_mono (shr_m mrs1)); [lia | exact H1]).
  destruct (shr_fexp Num.prec Num.emax m2 e1 loc_Exact) as [mrs2 e2] eqn:E2.
  assert (Hm2 : 0 <= m2) by lia.
  destruct (shr_fexp_above _ _ _ _ _ _ _ Hm2 HL HLe H2 E2) as [H3 H3'].
  destruct (shr_m mrs2) as [|m|m]; [|destruct (e2 <=? Num.emax - Num.prec)|lia].
  - exfalso. unfold value_ge in H3.
    pose proof (pow2_pos (Le - Z.min e2 Le) ltac:(lia)). nia.
  - exact H3.
  - exact I.
Qed.

Lemma div_above mx a my b Lm Le :
  0 <= a -> 0 <= b -> 0 < Lm < 2 ^ Num.prec -> -53 <= Le <= 0 ->
  Z.pos mx * 2 ^ b < Z.pos my * 2 ^ a ->
  Lm * (Z.pos my * 2 ^ a) <= Z.pos mx * 2 ^ b * 2 ^ (- Le) ->
  above Lm Le (Num.div (S754_finite false mx (- a)) (S754_finite false my (- b))).
Proof.
  intros Ha Hb HL HLe Hxy Hge. unfold Num.div, SFdiv, SFdiv_core_binary. cbn [Zdigits2 xorb].
  pose proof (digits2_bounds mx) as [Hlo1 _].
  pose proof (digits2_bounds my) as [_ Hhi2].
  set (d1 := Z.pos (digits2_pos mx)) in *. set (d2 := Z.pos (digits2_pos my)) in *.
  assert (Hpa : 0 < 2 ^ a) by (apply pow2_pos; lia).
  assert (Hpb : 0 < 2 ^ b) by (apply pow2_pos; lia).
  assert (HpB : 0 < 2 ^ (- Le)) by (apply pow2_pos; lia).
  assert (Hd : d1 + - a - (d2 + - b) <= 0).
  { assert (d1 - 1 + b < d2 + a); [|lia].
    apply (Z.pow_lt_mono_r_iff 2); [lia|unfold d2; lia|].
    rewrite !pow2_split by (unfold d1, d2; lia). nia. }
  set (e' := Z.min (fexp Num.prec Num.emax (d1 + - a - (d2 + - b))) (- a - - b)).
  assert (He' : e' <= -53 /\ e' <= b - a)
    by (unfold e', fexp, emin, Num.prec, Num.emax; lia).
  set (s := - a - - b - e').
  assert (Hs : 0 <= s) by (unfold s; lia).
  set (m' := match s with Z.pos _ => Z.shiftl (Z.pos mx) s | 0 => Z.pos mx | Z.neg _ => 0 end).
  assert (Hm' : m' = Z.pos mx * 2 ^ s).
  { unfold m'. destruct s as [|p|p] eqn:Es; try lia.
    apply Z.shiftl_mul_pow2. lia. }
  destruct (Z.div_eucl m' (Z.pos my)) as [q r] eqn:Ediv.
  assert (Hq : q = m' / Z.pos my) by (unfold Z.div; now rewrite Ediv).
  assert (Hps : 0 < 2 ^ s) by (apply pow2_pos; lia).
  assert (Hpe : 0 < 2 ^ (Le - e')) by (apply pow2_pos; lia).
  apply binary_round_aux_above; try lia.
  - rewrite Hq. apply Z.div_pos; lia.
  - unfold value_ge. replace (Z.min e' Le) with e' by lia.
    rewrite Z.sub_diag, Z.pow_0_r, Z.mul_1_r.
    rewrite Hq. apply Z.div_le_lower_bound; [lia|]. rewrite Hm'.
    assert (E : 2 ^ s * 2 ^ a = 2 ^ b * (2 ^ (- Le) * 2 ^ (Le - e'))).
    { rewrite <- !pow2_split by lia. f_equal. unfold s. lia. }
    nia.
Qed.

Lemma mul_hundred_above Lm Le x :
  0 < Lm -> 100 * Lm < 2 ^ Num.prec -> -1074 <= Le ->
  above Lm Le x -> above (100 * Lm) Le (Num.mul x Num.hundred).
Proof.
  intros HL HL' HLe.
  destruct x as [s|[|]| |[|] m e]; cbn [above]; try contradiction.
  - intros _. exact I.
  - intros Hge. unfold Num.mul, SFmul, Num.hundred. cbn [xorb].
    apply binary_round_aux_above; try lia.
    unfold value_ge in *. rewrite Pos2Z.inj_mul.
    change (Z.pos 7036874417766400) with (100 * 2 ^ 46).
    set (mu := Z.min e Le) in *. set (mu' := Z.min (e + -46) Le).
    assert (Hmu : mu' <= mu) by (unfold mu, mu'; lia).
    assert (E1 : 2 ^ (Le - mu') = 2 ^ (Le - mu) * 2 ^ (mu - mu')).
    { rewrite <- pow2_split by (unfold mu, mu'; lia). f_equal. lia. }
    assert (E2 : 2 ^ 46 * 2 ^ (e + -46 - mu') = 2 ^ (e - mu) * 2 ^ (mu - mu')).
    { rewrite <- !pow2_split by (unfold mu, mu'; lia). f_equal. lia. }
    pose proof (pow2_pos (mu - mu') ltac:(lia)).
    rewrite E1. nia.
Qed.

(** [Math.round] of a Number between 1/2 and [K + 1/2] is an integer from 1
    to [K]. *)
Lemma round_between Bm Be K Lm Le x :
  Be <= 0 -> 2 * Bm < (2 * K + 1) * 2 ^ (- Be) -> 0 <= K < 2 ^ Num.prec ->
  Le <= -1 -> 2 ^ (- Le - 1) <= Lm ->
  below Bm Be x -> above Lm Le x ->
  exists k, Num.to_Z (Num.round x) = Some k /\ 1 <= k <= K.
Proof.
  intros HBe HK HKp HLe HL Hbelow Habove.
  destruct (round_below Bm Be K x HBe HK HKp Hbelow) as (k & Hk & Hrange).
  exists k. split; [exact Hk|]. split; [|lia].
  destruct x as [s| | |s m e]; cbn [below above] in *; try contradiction.
  destruct Hbelow as (-> & He & Hm). unfold Num.round in Hk.
  destruct (Z.le_gt_cases 0 e) as [Hpos|Hneg].
  - rewrite (proj2 (Z.leb_le 0 e) Hpos) in Hk. cbn [Num.to_Z] in Hk.
    rewrite (proj2 (Z.leb_le 0 e) Hpos) in Hk.
    assert (Hk' : k = Z.pos m * 2 ^ e) by congruence.
    pose proof (pow2_pos e Hpos).
    assert (0 < Z.pos m * 2 ^ e) by (apply Z.mul_pos_pos; lia). lia.
  - rewrite (proj2 (Z.leb_gt 0 e) Hneg) in Hk. cbv zeta in Hk.
    set (n := - e) in *. assert (Hn : 0 < n) by (unfold n; lia).
    assert (Hp : 0 < 2 ^ n) by (apply pow2_pos; lia).
    assert (H2 : 2 ^ n = 2 * 2 ^ (n - 1)).
    { rewrite <- Z.pow_succ_r by lia. f_equal. lia. }
    assert (Hhalf : 2 ^ (n - 1) <= Z.pos m).
    { unfold value_ge in Habove.
      destruct (Z.le_gt_cases e Le) as [Hle|Hgt].
      - replace (Z.min e Le) with e in Habove by lia.
        rewrite Z.sub_diag, Z.pow_0_r, Z.mul_1_r in Habove.
        assert (E : 2 ^ (n - 1) = 2 ^ (- Le - 1) * 2 ^ (Le - e)).
        { rewrite <- pow2_split by lia. f_equal. unfold n. lia. }
        pose proof (pow2_pos (Le - e) ltac:(lia)). nia.
      - replace (Z.min e Le) with Le in Habove by lia.
        rewrite Z.sub_diag, Z.pow_0_r, Z.mul_1_r in Habove.
        assert (E : 2 ^ (- Le - 1) = 2 ^ (n - 1) * 2 ^ (e - Le)).
        { rewrite <- pow2_split by lia. f_equal. unfold n. lia. }
        pose proof (pow2_pos (e - Le) ltac:(lia)).
        pose proof (pow2_pos (n - 1) ltac:(lia)). nia. }
    set (kk := (Z.pos m + 2 ^ (n - 1)) / 2 ^ n) in *.
    assert (Hk1 : 1 <= kk) by (apply Z.div_le_lower_bound; lia).
    rewrite (proj2 (Z.eqb_neq kk 0)) in Hk by lia.
    assert (Hsmall : kk < 2 ^ Num.prec).
    { destruct (Z.lt_ge_cases kk (2 ^ Num.prec)) as [|Hbig]; [assumption|].
      exfalso.
      assert (Hover : K + 1 <= kk) by lia.
      assert (Hsplit : 2 ^ n = 2 ^ (- Be) * 2 ^ (Be - e)).
      { rewrite <- pow2_split by lia. f_equal. unfold n. lia. }
      pose proof (pow2_pos (- Be) ltac:(lia)).
      pose proof (pow2_pos (Be - e) ltac:(lia)).
      pose proof (pow2_pos (n - 1) ltac:(lia)).
      pose proof (Z.mul_div_le (Z.pos m + 2 ^ (n - 1)) (2 ^ n) Hp).
      fold kk in H2. nia. }
    rewrite to_Z_of_Z in Hk by lia.
    assert (k = kk) by congruence. lia.
Qed.

Lemma score_all n :
  (0 < n)%nat -> Z.of_nat n < 2 ^ Num.prec -> score n n = Num.hundred.
Proof.
  intros Hn Hlt. unfold score, Num.of_nat.
  destruct (of_Z_exact (Z.of_nat n) ltac:(lia)) as (m & a & -> & _).
  rewrite div_self. vm_compute. reflexivity.
Qed.

Lemma score_none n :
  (0 < n)%nat -> Z.of_nat n < 2 ^ Num.prec -> score 0 n = Num.zero.
Proof.
  intros Hn Hlt. unfold score, Num.of_nat.
  destruct (of_Z_exact (Z.of_nat n) ltac:(lia)) as (m & a & -> & _).
  reflexivity.
Qed.

(** The score of a non-empty list is an integer from 0 to 100. *)
Lemma score_range c n :
  (c <= n)%nat -> (0 < n)%nat -> Z.of_nat n < 2 ^ Num.prec ->
  exists k, Num.to_Z (score c n) = Some k /\ 0 <= k <= 100.
Proof.
  intros Hc Hn Hlt.
  destruct (Nat.eq_dec c 0) as [->|Hc0].
  { rewrite score_none by assumption. exists 0. split; [reflexivity | lia]. }
  destruct (Nat.eq_dec c n) as [->|Hcn].
  { rewrite score_all by assumption. exists 100. split; [reflexivity | lia]. }
  unfold score, Num.of_nat.
  destruct (of_Z_exact (Z.of_nat c) ltac:(lia)) as (mc & a & -> & Ha & Hmc).
  destruct (of_Z_exact (Z.of_nat n) ltac:(lia)) as (mn & b & -> & Hb & Hmn).
  apply (round_below 100 0 100); [lia | reflexivity | unfold Num.prec; lia |].
  apply (mul_hundred_below 1 0); [lia | reflexivity | lia |].
  apply div_below; trivial; [change (2 ^ (- 0)) with 1; lia | lia |].
  rewrite Hmc, Hmn. change (2 ^ (- 0)) with 1.
  pose proof (pow2_pos a Ha). pose proof (pow2_pos b Hb). nia.
Qed.

(** Below 200 checks, one violation keeps the score under 100. *)
Lemma score_below_100 c n :
  (c < n)%nat -> (n < 200)%nat ->
  exists k, Num.to_Z (score c n) = Some k /\ 0 <= k <= 99.
Proof.
  intros Hc Hn.
  assert (Hlt : Z.of_nat n < 2 ^ Num.prec).
  { apply Z.lt_trans with 200; [lia | reflexivity]. }
  destruct (Nat.eq_dec c 0) as [->|Hc0].
  { rewrite score_none by (assumption || lia). exists 0. split; [reflexivity | lia]. }
  unfold score, Num.of_nat.
  destruct (of_Z_exact (Z.of_nat c) ltac:(lia)) as (mc & a & -> & Ha & Hmc).
  destruct (of_Z_exact (Z.of_nat n) ltac:(lia)) as (mn & b & -> & Hb & Hmn).
  apply (round_below 104333300 (-20) 99);
    [lia | reflexivity | unfold Num.prec; lia |].
  apply (mul_hundred_below 1043333 (-20)); [lia | reflexivity | lia |].
  apply div_below; trivial;
    [split; [lia | apply Z.leb_le; reflexivity] | lia |].
  rewrite Hmc, Hmn. change (2 ^ (- -20)) with 1048576.
  pose proof (pow2_pos a Ha). pose proof (pow2_pos b Hb). nia.
Qed.

(** Below 200 checks, one compliant check lifts the score above 0. *)
Lemma score_above_0 c n :
  (0 < c <= n)%nat -> (n < 200)%nat ->
  exists k, Num.to_Z (score c n) = Some k /\ 1 <= k <= 100.
Proof.
  intros Hc Hn.
  assert (Hlt : Z.of_nat n < 2 ^ Num.prec).
  { apply Z.lt_trans with 200; [lia | reflexivity]. }
  destruct (Nat.eq_dec c n) as [->|Hcn].
  { rewrite score_all by (assumption || lia). exists 100. split; [reflexivity | lia]. }
  unfold score, Num.of_nat.
  destruct (of_Z_exact (Z.of_nat c) ltac:(lia)) as (mc & a & -> & Ha & Hmc).
  destruct (of_Z_exact (Z.of_nat n) ltac:(lia)) as (mn & b & -> & Hb & Hmn).
  pose proof (pow2_pos a Ha). pose proof (pow2_pos b Hb).
  apply (round_between 100 0 100 526900 (-20));
    [lia | reflexivity | unfold Num.prec; lia | lia
    | apply Z.leb_le; reflexivity | |].
  - apply (mul_hundred_below 1 0); [lia | reflexivity | lia |].
    apply div_below; trivial; [change (2 ^ (- 0)) with 1; lia | lia |].
    rewrite Hmc, Hmn. change (2 ^ (- 0)) with 1. nia.
  - apply (mul_hundred_above 5269 (-20)); [lia | reflexivity | lia |].
    apply div_above; trivial;
      [split; [lia | apply Z.ltb_lt; reflexivity] | lia | |];
      rewrite Hmc, Hmn; [nia|].
    change (2 ^ (- -20)) with 1048576. nia.
Qed.


(** ** The filter step *)
Section FilterFacts.
Import JS Pipeline.
Context {E : Engine}.
Local Open Scope string_scope.

Lemma array_filter_pure {A} (f : A -> result bool) (p : A -> bool) l :
  (forall x, In x l -> f x = Ok (p x)) ->
  array_filter f l = Ok (filter p l).
Proof.
  induction l as [|x l IH]; intros Hf; [reflexivity|].
  cbn [array_filter filter]. rewrite (Hf x (or_introl eq_refl)). cbn [JS.bind].
  rewrite IH by (intros y Hy; apply Hf; now right). reflexivity.
Qed.

Lemma filter_twice {A} (p : A -> bool) l : filter p (filter p l) = filter p l.
Proof.
  induction l as [|x l IH]; [reflexivity|]. cbn [filter].
  destruct (p x) eqn:Hp; [cbn [filter]; rewrite Hp; f_equal|]; exact IH.
Qed.

Lemma every_pure {A} (f : A -> result bool) (p : A -> bool) l :
  (forall x, In x l -> f x = Ok (p x)) ->
  every f l = Ok (forallb p l).
Proof.
  induction l as [|x l IH]; intros Hf; [reflexivity|].
  cbn [every forallb]. rewrite (Hf x (or_introl eq_refl)). cbn [JS.bind].
  destruct (p x); [|reflexivity].
  apply IH. intros y Hy. apply Hf. now right.
Qed.

(** With [equals] criteria only, [evaluateFilter] never throws: it is the
    conjunction of the strict comparisons. *)
Lemma evaluateFilter_equals item criteria :
  Forall (fun c => operator c = "equals") criteria ->
  evaluateFilter item criteria =
  Ok (forallb (fun c => strict_equal (get item (field c)) (cvalue c)) criteria).
Proof.
  intros Hall. apply every_pure. intros c Hc.
  rewrite Forall_forall in Hall. unfold evaluateCriterion.
  rewrite (Hall c Hc). reflexivity.
Qed.

(** C6: with criteria that all use the operator [equals], the filter step
    applied twice with the same criteria gives the sequence it gives when
    applied once (and neither application throws). *)
Theorem filter_equals_idempotent data criteria :
  Forall (fun c => operator c = "equals") criteria ->
  applyTemplateTransformations data [Filter criteria; Filter criteria] =
  applyTemplateTransformations data [Filter criteria]
  /\ exists kept, applyTemplateTransformations data [Filter criteria] = Ok kept.
Proof.
  intros Hall.
  set (p := fun item =>
              forallb (fun c => strict_equal (get item (field c)) (cvalue c))
                      criteria).
  assert (Hp : forall l, array_filter (fun item => evaluateFilter item criteria) l
                         = Ok (filter p l)).
  { intros l. apply array_filter_pure. intros item _.
    now apply evaluateFilter_equals. }
  unfold applyTemplateTransformations. cbn [for_each applyTransformation].
  rewrite Hp. cbn [JS.bind]. rewrite Hp. cbn [JS.bind].
  rewrite filter_twice. split; [reflexivity|]. now exists (filter p data).
Qed.

(** C9: a criterion whose operator is none of [equals], [greater], [less],
    [contains] evaluates to true on every record, and a filter step made of
    such criteria only returns its input unchanged, without throwing. *)
Theorem filter_unknown_operator_keeps_all data criteria :
  Forall (fun c => ~ In (operator c) known_operators) criteria ->
  (forall item c, In c criteria -> evaluateCriterion item c = Ok true)
  /\ applyTemplateTransformations data [Filter criteria] = Ok data.
Proof.
  intros Hall. rewrite Forall_forall in Hall.
  assert (Hc : forall item c, In c criteria -> evaluateCriterion item c = Ok true).
  { intros item c Hin. specialize (Hall c Hin). unfold known_operators in Hall.
    cbn [In] in Hall. unfold evaluateCriterion.
    destruct (String.eqb_spec (operator c) "equals"); [intuition congruence|].
    destruct (String.eqb_spec (operator c) "greater"); [intuition congruence|].
    destruct (String.eqb_spec (operator c) "less"); [intuition congruence|].
    destruct (String.eqb_spec (operator c) "contains"); [intuition congruence|].
    reflexivity. }
  split; [exact Hc|].
  unfold applyTemplateTransformations. cbn [for_each applyTransformation].
  rewrite (array_filter_pure _ (fun _ => true)).
  - cbn [JS.bind]. f_equal. induction data as [|x l IH]; [reflexivity|].
    cbn [filter]. now rewrite IH.
  - intros item _. unfold evaluateFilter.
    rewrite (every_pure _ (fun _ => true)).
    + f_equal. induction criteria as [|c l IH]; [reflexivity|].
      cbn [forallb]. apply IH; intros; [apply Hall | apply Hc]; now right.
    + intros c Hin. now apply Hc.
Qed.

End FilterFacts.

Lemma filter_equals_idempotent_witness :
  Forall (fun c => Pipeline.operator c = "equals"%string) equals_100 /\
  Pipeline.applyTemplateTransformations (E := SampleEngine.engine) sample_data
    [Pipeline.Filter equals_100; Pipeline.Filter equals_100] =
  Pipeline.applyTemplateTransformations (E := SampleEngine.engine) sample_data [Pipeline.Filter equals_100].
Proof.
  assert (H : Forall (fun c => Pipeline.operator c = "equals"%string) equals_100)
    by (repeat constructor).
  split; [exact H|].
  exact (proj1 (filter_equals_idempotent (E := SampleEngine.engine) sample_data equals_100 H)).
Defined.

Lemma filter_unknown_operator_keeps_all_witness :
  Forall (fun c => ~ In (Pipeline.operator c) known_operators) between_criteria /\
  Pipeline.applyTemplateTransformations (E := SampleEngine.engine) sample_data
    [Pipeline.Filter between_criteria] = JS.Ok sample_data.
Proof.
  assert (H : Forall (fun c => ~ In (Pipeline.operator c) known_operators)
                     between_criteria).
  { repeat constructor. cbn. intros [H|[H|[H|[H|[]]]]]; discriminate H. }
  split; [exact H|].
  exact (proj2 (filter_unknown_operator_keeps_all (E := SampleEngine.engine)
                  sample_data between_criteria H)).
Defined.

(** ** Serialisation of a User *)

Lemma assign_empty source :
  NoDup (map fst source) -> UserModel.assign [] source = source.
Proof.
  unfold UserModel.assign.
  assert (G : forall target,
             NoDup (map fst source) ->
             (forall k, In k (map fst source) -> JS.own target k = None) ->
             fold_left (fun t kv =>
                          match JS.own t (fst kv) with
                          | Some _ => JS.overwrite t (fst kv) (snd kv)
                          | None => t ++ [kv]
                          end) source target = target ++ source).
  { induction source as [|[k v] l IH]; intros target Hnd Hfresh.
    - now rewrite app_nil_r.
    - cbn [fold_left fst snd]. rewrite (Hfresh k (or_introl eq_refl)).
      inversion Hnd as [|? ? Hk Hl]; subst.
      rewrite IH; [now rewrite <- app_assoc| exact Hl |].
      intros k' Hk'.
      assert (Hown : forall (t : list (string * UserModel.attr)),
                 JS.own (t ++ [(k, v)]) k' =
                 match JS.own t k' with
                 | Some x => Some x
                 | None => if (k =? k')%string then Some v else None
                 end).
      { induction t as [|[a b] t IHt]; cbn [JS.own app]; [reflexivity|].
        destruct (a =? k')%string; [reflexivity | exact IHt]. }
      rewrite Hown, (Hfresh k' (or_intror Hk')).
      destruct (String.eqb_spec k k'); [subst; contradiction | reflexivity]. }
  intros Hnd. now apply (G []).
Qed.

Lemma distinct_NoDup l : distinct l = true -> NoDup l.
Proof.
  induction l as [|x l IH]; cbn [distinct]; intros H; constructor.
  - apply andb_prop in H. destruct H as [H _].
    intros Hin. apply negb_true_iff in H.
    assert (existsb (String.eqb x) l = true); [|congruence].
    apply existsb_exists. exists x. split; [exact Hin | apply String.eqb_refl].
  - apply IH. now apply andb_prop in H.
Qed.

(** C10: the serialisation of a User holds none of [password],
    [passwordResetToken], [passwordResetExpires], and two users that differ
    in those three columns only serialise to the same object. *)
Theorem toJSON_hides_credentials u v :
  same_public u v ->
  UserModel.toJSON u = UserModel.toJSON v
  /\ forall k, In k credentials -> JS.own (UserModel.toJSON u) k = None.
Proof.
  intros Hsame.
  assert (Hnd : forall w, NoDup (map fst (UserModel.get w))).
  { intros w. apply distinct_NoDup. reflexivity. }
  unfold UserModel.toJSON. rewrite !assign_empty by apply Hnd.
  split.
  - destruct u, v. unfold same_public in Hsame. cbn in Hsame.
    decompose [and] Hsame; subst. vm_compute. reflexivity.
  - intros k Hk. cbn in Hk.
    destruct Hk as [<-|[<-|[<-|[]]]]; vm_compute; reflexivity.
Qed.

Lemma toJSON_hides_credentials_witness :
  same_public (sample_user "hunter2" None None)
              (sample_user "correct horse" (Some "r3s3t"%string) (Some 1700000360000))
  /\ UserModel.toJSON (sample_user "hunter2" None None) =
     UserModel.toJSON
       (sample_user "correct horse" (Some "r3s3t"%string) (Some 1700000360000)).
Proof.
  assert (H : same_public (sample_user "hunter2" None None)
                (sample_user "correct horse" (Some "r3s3t"%string)
                             (Some 1700000360000)))
    by (repeat split).
  split; [exact H|].
  exact (proj1 (toJSON_hides_credentials _ _ H)).
Defined.

(** ** The orchestrator *)
Section OrchestratorFacts.
Import Orchestrator.
Context {sequelize : Sequelize} {strategies : Strategies}.
Local Open Scope string_scope.

(** The [include] of [generateReport] names the alias [template]; the model
    declares [reportTemplate]: the [try] block throws at its first
    statement, in the world it started in. *)
Lemma attempt_throws reportId w :
  attempt reportId w =
  (Throw (eagerLoadingError "ReportTemplate" "template"), w).
Proof. reflexivity. Qed.

(** The [catch] block, whatever the error. *)
Lemma recover_spec reportId e w :
  recover reportId e w =
  (Throw e,
   if (reportId =? 0)%Z then w
   else {| reports := failed_rows reportId (clock w) (reports w);
           templates := templates w;
           trace := trace w ++ [failed reportId e];
           clock := S (S (clock w)) |}).
Proof.
  unfold recover, Orchestrator.bind, now, update_where, write_rows, emit, log,
    ret, throw.
  destruct (reportId =? 0)%Z; [now destruct w | reflexivity].
Qed.

Lemma generateReport_recovers reportId w :
  generateReport reportId w =
  recover reportId (eagerLoadingError "ReportTemplate" "template") w.
Proof. unfold generateReport, try_catch. now rewrite attempt_throws. Qed.

Lemma failed_rows_in reportId t rows r :
  In r (failed_rows reportId t rows) ->
  In r rows \/ status r = "failed".
Proof.
  unfold failed_rows. intros H. apply in_map_iff in H.
  destruct H as (r0 & Hr & Hin).
  destruct ((id r0 =? reportId)%Z && visible r0); subst r;
    [now right | now left].
Qed.

(** C3, as the code has it: [generateReport] never sets a report to
    [generating].  Its [include] names an alias that the Report model does
    not declare, so every run throws at the lookup: no strategy is entered,
    the only update emitted is [failed] (none for the id 0), and no row
    enters [generating].  The status that line 35 would write is
    [processing], which the ENUM of the column refuses for every report.
    What holds of the claim: the statuses stay among the four states. *)
Theorem generateReport_never_generating w reportId :
  let e := eagerLoadingError "ReportTemplate" "template" in
  let '(outcome, w') := generateReport reportId w in
  outcome = Throw e
  /\ trace w' =
     (trace w ++ if (reportId =? 0)%Z then [] else [failed reportId e])%list
  /\ (forall r, In r (reports w') -> status r = "generating" ->
      In r (reports w))
  /\ (Forall (fun r => ReportModel.is_status (status r) = true) (reports w) ->
      Forall (fun r => ReportModel.is_status (status r) = true) (reports w'))
  /\ (forall report t w0,
        update report (processing_values t) w0 =
        (Throw (enumError "status" "processing"), w0)).
Proof.
  intros e. rewrite generateReport_recovers, recover_spec. fold e.
  split; [reflexivity|].
  destruct (reportId =? 0)%Z.
  - split; [now rewrite app_nil_r|]. split; [tauto|].
    split; [tauto | reflexivity].
  - cbn [trace reports]. split; [reflexivity|]. split; [|split].
    + intros r Hin Hs. apply failed_rows_in in Hin.
      destruct Hin as [Hin|Hf]; [exact Hin|]. rewrite Hf in Hs. discriminate Hs.
    + intros Hall. apply Forall_forall. intros r Hin.
      apply failed_rows_in in Hin. destruct Hin as [Hin|Hf].
      * rewrite Forall_forall in Hall. now apply Hall.
      * now rewrite Hf.
    + reflexivity.
Qed.


End OrchestratorFacts.

(** The run of C3 and C4 on a table that holds the pending report 3. *)
Example generateReport_on_pending_report :
  let '(outcome, w') :=
    Orchestrator.generateReport (sequelize := short_errors)
      (strategies := render_fails) 3 sample_world in
  outcome =
    Orchestrator.Throw
      (Orchestrator.eagerLoadingError (Sequelize := short_errors)
         "ReportTemplate" "template")
  /\ map Orchestrator.status (Orchestrator.reports w') = ["failed"%string]
  /\ existsb is_run (Orchestrator.trace w') = false.
Proof. vm_compute. repeat split. Qed.

(** ** The due date of a new report *)
Section DueDate.
Import ReportModel.

Lemma days_in_month_bounds y m : 28 <= days_in_month y m <= 31.
Proof.
  unfold days_in_month.
  destruct (m =? 1); [destruct (is_leap y); lia|].
  destruct ((m =? 3) || (m =? 5) || (m =? 8) || (m =? 10))%bool; lia.
Qed.

Lemma roll_in_month fuel y m d :
  1 <= d <= days_in_month y m ->
  roll (S fuel) y m d = {| year := y; month := m; day := d |}.
Proof.
  intros Hd. cbn [roll].
  replace (d <? 1) with false by (symmetry; apply Z.ltb_ge; lia).
  replace (days_in_month y m <? d) with false
    by (symmetry; apply Z.ltb_ge; lia).
  reflexivity.
Qed.

(** The fifteenth of a month of the year needs no carrying. *)
Lemma new_Date_fifteenth y m :
  100 <= y -> y * 12 + m <= 275760 * 12 + 7 -> 0 <= m <= 12 ->
  new_Date y m 15 =
  Some {| year := y + m / 12; month := m mod 12; day := 15 |}.
Proof.
  intros Hy Hmax Hm. unfold new_Date.
  replace ((0 <=? y) && (y <=? 99))%bool with false
    by (symmetry; apply andb_false_iff; right; apply Z.leb_gt; lia).
  pose proof (days_in_month_bounds (y + m / 12) (m mod 12)) as Hd.
  rewrite roll_in_month by lia.
  unfold representable. cbn [year month day].
  assert (Hdiv : m / 12 = 0 /\ m mod 12 = m \/
                 m = 12 /\ m / 12 = 1 /\ m mod 12 = 0).
  { destruct (Z.eq_dec m 12) as [->|]; [right; repeat split; reflexivity|].
    left. split; [apply Z.div_small | apply Z.mod_small]; lia. }
  clear Hd. revert Hdiv. generalize (m / 12), (m mod 12). intros q r Hdiv.
  replace (_ && _)%bool with true; [reflexivity|].
  symmetry. apply andb_true_iff.
  split; apply Z.leb_le; destruct Hdiv as [[-> ->]|[-> [-> ->]]]; lia.
Qed.

(** C7: a report of type [monthly] created without a due date is given, by
    the [beforeCreate] hook, the 15th of the month that follows the day of
    creation (for a clock between the years 100 and 275759, where the
    two-digit-year rule and the end of the Date range do not interfere). *)
Theorem beforeCreate_monthly_due_date now report :
  type report = "monthly"%string ->
  dueDate report = None ->
  100 <= year now <= 275759 ->
  0 <= month now <= 11 ->
  dueDate (beforeCreate now report) =
  Some {| year := fst (following_month now);
          month := snd (following_month now);
          day := 15 |}.
Proof.
  intros Htype Hdue Hy Hm. unfold beforeCreate. rewrite Hdue, Htype.
  cbn [String.eqb Ascii.eqb Bool.eqb dueDate].
  rewrite new_Date_fifteenth by lia.
  unfold following_month. f_equal.
  destruct (Z.eqb_spec (month now) 11) as [->|Hne]; [reflexivity|].
  cbn [fst snd]. rewrite Z.div_small, Z.mod_small by lia.
  f_equal; lia.
Qed.

End DueDate.

Lemma beforeCreate_monthly_due_date_witness :
  100 <= ReportModel.year december_31 <= 275759
  /\ 0 <= ReportModel.month december_31 <= 11
  /\ ReportModel.dueDate (ReportModel.beforeCreate december_31 monthly_report) =
     Some {| ReportModel.year := 2025; ReportModel.month := 0;
             ReportModel.day := 15 |}.
Proof.
  assert (Hy : 100 <= ReportModel.year december_31 <= 275759) by (cbn; lia).
  assert (Hm : 0 <= ReportModel.month december_31 <= 11) by (cbn; lia).
  split; [exact Hy|]. split; [exact Hm|].
  exact (beforeCreate_monthly_due_date december_31 monthly_report
           eq_refl eq_refl Hy Hm).
Defined.

(** ** The download route *)
Section DownloadFacts.
Import Orchestrator ReportsRouter.
Variable existsSync : string -> bool.
Variable join : string -> string.
Variable logActivity : Z -> string -> Z -> outcome unit.

(** Whatever [authenticateToken] answers itself is an error envelope. *)
Lemma authenticateToken_answer authHeader verify findUser answered :
  authenticateToken authHeader verify findUser = inl answered ->
  exists code message,
    answered = [Status code; Json false message None] /\ (400 <= code)%nat.
Proof.
  unfold authenticateToken. intros H.
  repeat match type of H with
         | context [match ?x with _ => _ end] => destruct x
         end;
    inversion H; subst; eexists; eexists; (split; [reflexivity | lia]).
Qed.

(** C8: a download request for a report whose status is not [completed],
    or whose output file is unset, is answered with an error envelope
    ([success: false], status 400 once the caller is authenticated) and
    never pipes a file into the response. *)
Theorem download_not_ready authHeader verify findUser report :
  ReportsRouter.status report <> "completed"%string
  \/ no_output report = true ->
  let calls :=
    download existsSync join logActivity authHeader verify findUser
      (Return (Some report)) in
  (forall filePath, ~ In (Pipe filePath) calls)
  /\ (exists code message,
         calls = [Status code; Json false message None] /\ (400 <= code)%nat)
  /\ (forall user,
         authenticateToken authHeader verify findUser = inr user ->
         calls = [Status 400;
                  Json false "Report not ready for download" None]).
Proof.
  intros Hnot calls.
  assert (Hguard : (negb (ReportsRouter.status report =? "completed")%string
                    || no_output report)%bool = true).
  { apply orb_true_iff. destruct Hnot as [Hs|Ho]; [left | now right].
    apply negb_true_iff. now apply String.eqb_neq. }
  assert (Hshape : exists code message,
             calls = [Status code; Json false message None] /\ (400 <= code)%nat).
  { unfold calls, download.
    destruct (authenticateToken authHeader verify findUser) as [answered|user] eqn:Ha.
    - now apply authenticateToken_answer in Ha.
    - unfold download_handler. rewrite Hguard.
      eexists; eexists; (split; [reflexivity | lia]). }
  split; [|split].
  - intros filePath Hin. destruct Hshape as (code & message & -> & _).
    destruct Hin as [H|[H|[]]]; discriminate H.
  - exact Hshape.
  - intros user Ha. unfold calls, download, download_handler.
    now rewrite Ha, Hguard.
Qed.

End DownloadFacts.

Lemma download_not_ready_witness :
  (ReportsRouter.status pending_report <> "completed"%string
   \/ ReportsRouter.no_output pending_report = true)
  /\ ReportsRouter.download (fun _ => true) (fun f => f)
       (fun _ _ _ => Orchestrator.Return tt)
       (Some "Bearer eyJhbGciOi"%string) sample_verify sample_findUser
       (Orchestrator.Return (Some pending_report)) =
     [ReportsRouter.Status 400;
      ReportsRouter.Json false "Report not ready for download" None].
Proof.
  assert (H : ReportsRouter.status pending_report <> "completed"%string
              \/ ReportsRouter.no_output pending_report = true)
    by (left; discriminate).
  split; [exact H|].
  exact (proj2 (proj2 (download_not_ready (fun _ => true) (fun f => f)
                         (fun _ _ _ => Orchestrator.Return tt)
                         (Some "Bearer eyJhbGciOi"%string)
                         sample_verify sample_findUser pending_report H))
               _ eq_refl).
Defined.

(** ** The compliance score *)
Section ScoreFacts.
Import Compliance.

Lemma filter_length_le {A} (p : A -> bool) l :
  (List.length (filter p l) <= List.length l)%nat.
Proof.
  induction l as [|x l IH]; cbn [filter List.length]; [lia|].
  destruct (p x); cbn [List.length]; lia.
Qed.

(** Every check is counted once, as compliant or as a violation. *)
Lemma compliant_plus_violations l :
  Forall compliant_or_violation l ->
  (List.length (filter (fun check => status check =? "compliant")%string l)
   + List.length (filter (fun check => status check =? "violation")%string l)
   = List.length l)%nat.
Proof.
  induction 1 as [|x l [Hx|Hx] _ IH]; [reflexivity| |];
    cbn [filter List.length]; rewrite Hx; cbn; lia.
Qed.

Lemma overallScore_score data regulations :
  overallScore (processComplianceChecks data regulations) =
  score (List.length (compliantChecks (processComplianceChecks data regulations)))
        (List.length (checks data)).
Proof. reflexivity. Qed.

(** What holds of the score whatever the rounding: for a non-empty list of
    checks each marked [compliant] or [violation], it is an integer from 0
    to 100; it is 100 when no check is a violation and 0 when no check is
    compliant; and with fewer than 200 checks it is 100 only when no check
    is a violation and 0 only when no check is compliant. *)
Lemma processComplianceChecks_score_bounds data regulations :
  Forall compliant_or_violation (checks data) ->
  checks data <> [] ->
  Z.of_nat (List.length (checks data)) < 2 ^ 32 ->
  let results := processComplianceChecks data regulations in
  (exists k, Num.to_Z (overallScore results) = Some k /\ 0 <= k <= 100)
  /\ (violations results = [] -> overallScore results = Num.hundred)
  /\ (compliantChecks results = [] -> overallScore results = Num.zero)
  /\ ((List.length (checks data) < 200)%nat ->
      (overallScore results = Num.hundred -> violations results = [])
      /\ (overallScore results = Num.zero -> compliantChecks results = [])).
Proof.
  intros Hmarked Hne Hlen results.
  pose proof (compliant_plus_violations _ Hmarked) as Hsum.
  assert (Hn : (0 < List.length (checks data))%nat)
    by (destruct (checks data); [contradiction | cbn; lia]).
  assert (Hprec : Z.of_nat (List.length (checks data)) < 2 ^ Num.prec).
  { apply Z.lt_trans with (2 ^ 32); [exact Hlen | reflexivity]. }
  pose proof (overallScore_score data regulations) as Hscore.
  fold results in Hscore.
  change (compliantChecks results)
    with (filter (fun check => status check =? "compliant")%string (checks data))
    in *.
  change (violations results)
    with (filter (fun check => status check =? "violation")%string (checks data))
    in *.
  set (cs := filter (fun check => status check =? "compliant")%string
                    (checks data)) in *.
  set (vs := filter (fun check => status check =? "violation")%string
                    (checks data)) in *.
  assert (Hc : (List.length cs <= List.length (checks data))%nat)
    by apply filter_length_le.
  rewrite Hscore. split; [|split; [|split]].
  - now apply score_range.
  - intros Hv. rewrite Hv in Hsum. cbn in Hsum. rewrite Nat.add_0_r in Hsum.
    rewrite Hsum. now apply score_all.
  - intros Hcs. rewrite Hcs. now apply score_none.
  - intros Hsmall. split; intros Hs.
    + destruct (Nat.eq_dec (List.length cs) (List.length (checks data))) as [Heq|Hneq].
      * apply length_zero_iff_nil. lia.
      * destruct (score_below_100 (List.length cs) (List.length (checks data)))
          as (k & Hk & Hrange); [lia | lia |].
        rewrite Hs in Hk. vm_compute in Hk.
        assert (k = 100) by congruence. lia.
    + destruct (Nat.eq_dec (List.length cs) 0) as [Heq|Hneq].
      * now apply length_zero_iff_nil.
      * destruct (score_above_0 (List.length cs) (List.length (checks data)))
          as (k & Hk & Hrange); [lia | lia |].
        rewrite Hs in Hk. vm_compute in Hk.
        assert (k = 0) by congruence. lia.
Qed.

Lemma checked_marked c v : Forall compliant_or_violation (checks (checked c v)).
Proof.
  apply Forall_forall. intros x Hx. cbn [checked checks] in Hx.
  apply in_app_or in Hx.
  destruct Hx as [Hx|Hx]; apply repeat_spec in Hx; subst x;
    [left | right]; reflexivity.
Qed.

End ScoreFacts.

(** Rounding itself: 199 compliant checks and one violation score 100; one
    compliant check and 200 violations score 0; and no check at all scores
    NaN, which is no integer. *)
Lemma score_rounding_examples :
  Forall compliant_or_violation (Compliance.checks (checked 199 1))
  /\ Compliance.overallScore
       (Compliance.processComplianceChecks (checked 199 1) []) = Num.hundred
  /\ Compliance.violations
       (Compliance.processComplianceChecks (checked 199 1) []) <> []
  /\ Compliance.overallScore
       (Compliance.processComplianceChecks (checked 1 200) []) = Num.zero
  /\ Compliance.compliantChecks
       (Compliance.processComplianceChecks (checked 1 200) []) <> []
  /\ Compliance.overallScore
       (Compliance.processComplianceChecks (checked 0 0) []) = Num.nan.
Proof.
  split; [apply checked_marked|].
  split; [vm_compute; reflexivity|].
  split; [vm_compute; discriminate|].
  split; [vm_compute; reflexivity|].
  split; [vm_compute; discriminate|].
  vm_compute; reflexivity.
Qed.

(** C2, as the code has it: with 23 compliant checks out of 40 the score of
    [processComplianceChecks] is 57, while round(100 x 23 / 40) is
    round(57.5) = 58.  The code divides first: the Number 23 / 40 lies below
    0.575, and its product with 100 below 57.5.  On the same Numbers,
    multiplying first gives 58. *)
Theorem processComplianceChecks_divides_first :
  let data := checked 23 17 in
  let results := Compliance.processComplianceChecks data [] in
  List.length (Compliance.compliantChecks results) = 23%nat
  /\ List.length (Compliance.checks data) = 40%nat
  /\ Compliance.overallScore results = Num.of_Z 57
  /\ round_ratio (100 * 23) 40 = 58
  /\ Num.round
       (Num.div
          (Num.mul Num.hundred
             (Compliance.length_of (Compliance.compliantChecks results)))
          (Compliance.length_of (Compliance.checks data))) = Num.of_Z 58.
Proof. vm_compute. repeat split. Qed.

(** ** The aggregate step *)
Section AggregateFacts.
Import JS Pipeline.
Context {E : Engine}.

(** C1, as the code has it: the [avg] operation halves the sum of the
    running value and the next one, starting from 0.  A group holding 2, 4
    and 6 comes out at 4.25 and not at its mean 4, and a group holding the
    single value 2 comes out at 1. *)
Theorem aggregateData_avg_is_not_the_mean :
  aggregateData [loan 2; loan 4; loan 6] "branch" [average_amount] =
    Ok [[("branch", VStr "Nairobi");
         ("average", VNum (Num.div (Num.of_Z 17) (Num.of_Z 4)))]]%string
  /\ mean [2; 4; 6] = 4
  /\ Num.div (Num.of_Z 17) (Num.of_Z 4) <> Num.of_Z 4
  /\ aggregateData [loan 2] "branch" [average_amount] =
       Ok [[("branch", VStr "Nairobi"); ("average", VNum (Num.of_Z 1))]]%string.
Proof.
  split; [vm_compute; reflexivity|].
  split; [reflexivity|].
  split; [vm_compute; discriminate|].
  vm_compute; reflexivity.
Qed.

(** C5, as the code has it: [grouped] is the literal [{}], so a record whose
    group key is the name of a member of [Object.prototype] finds that
    member in [grouped[key]], creates no group and increments a property of
    the built-in object instead.  One such record yields no group at all
    (or a TypeError where the engine refuses the assignment): the counts add
    up to 0 and not to 1. *)
Theorem aggregateData_count_misses_inherited_key :
  aggregateData [member "constructor"] "department" [count_members] =
  if builtin_update_ok ObjectConstructor "members" then Ok [] else TypeError.
Proof.
  unfold aggregateData. cbn [for_each]. unfold aggregate_item.
  cbn -[object_values].
  destruct (builtin_update_ok ObjectConstructor "members"); reflexivity.
Qed.

End AggregateFacts.

(** ** The orchestrator: what a run leaves of the table *)
Section OrchestratorRuns.
Import Orchestrator.
Context {sequelize : Sequelize} {strategies : Strategies}.
Local Open Scope string_scope.

Lemma find_none_map {A} (p : A -> bool) (f : A -> A) l :
  find p l = None -> map (fun r => if p r then f r else r) l = l.
Proof.
  induction l as [|x l IH]; cbn [find map]; [reflexivity|].
  destruct (p x); [discriminate|]. intros H. now rewrite IH.
Qed.

(** X2: an id that no live row carries.  [generateReport] throws the error
    of the lookup, not [Report not found], and leaves the rows as they are;
    it still emits one [failed] update for that id, and nothing at all when
    the id is 0. *)
Theorem generateReport_not_found w reportId :
  find (fun r => (id r =? reportId)%Z && visible r) (reports w) = None ->
  let e := eagerLoadingError "ReportTemplate" "template" in
  let '(outcome, w') := generateReport reportId w in
  outcome = Throw e
  /\ reports w' = reports w
  /\ trace w' =
     (trace w ++ if (reportId =? 0)%Z then [] else [failed reportId e])%list.
Proof.
  intros Hfind e. rewrite generateReport_recovers, recover_spec. fold e.
  split; [reflexivity|].
  destruct (reportId =? 0)%Z; cbn [reports trace].
  - split; [reflexivity | now rewrite app_nil_r].
  - split; [|reflexivity]. unfold failed_rows.
    now rewrite (find_none_map _ _ _ Hfind).
Qed.

(** X3: what a run may touch.  Whatever the id and the outcome, the table
    keeps its rows in their order; the rows of other ids are unchanged, and
    a row of that id keeps its id, title, type, template and every other
    attribute but [status] and [updatedAt]. *)
Theorem generateReport_frame w reportId :
  exists change,
    reports (snd (generateReport reportId w)) =
    map (fun r => if (id r =? reportId)%Z then change r else r) (reports w)
    /\ forall r, same_request r (change r).
Proof.
  rewrite generateReport_recovers, recover_spec. cbn [snd].
  destruct (reportId =? 0)%Z eqn:Hz.
  - exists (fun r => r). split; [|intros r; repeat split].
    clear. induction (reports w) as [|r rows IH]; [reflexivity|].
    cbn [map]. rewrite <- IH. now destruct (id r =? reportId)%Z.
  - exists (fun r => if visible r then failed_row (S (clock w)) r else r).
    cbn [reports]. split.
    + unfold failed_rows. apply map_ext. intros r.
      now destruct (id r =? reportId)%Z, (visible r).
    + intros r. destruct (visible r); repeat split.
Qed.

End OrchestratorRuns.

Lemma generateReport_not_found_witness :
  let '(outcome, w') :=
    Orchestrator.generateReport (sequelize := short_errors)
      (strategies := render_fails) 8 sample_world in
  Orchestrator.reports w' = Orchestrator.reports sample_world
  /\ Orchestrator.trace w' =
     [failed 8 (Orchestrator.eagerLoadingError (Sequelize := short_errors)
                  "ReportTemplate" "template")].
Proof.
  pose proof (generateReport_not_found (sequelize := short_errors)
                (strategies := render_fails) sample_world 8 eq_refl) as H.
  cbv zeta in H.
  destruct (Orchestrator.generateReport 8 sample_world) as [outcome w'].
  destruct H as (_ & Hrows & Htrace). split; [exact Hrows | exact Htrace].
Defined.

(** ** The pipeline: composition and the filter step *)
Section PipelineFacts.
Import JS Pipeline.
Context {E : Engine}.
Local Open Scope js_scope.
Local Open Scope string_scope.

Lemma for_each_app {A S} (f : S -> A -> result S) l1 l2 s :
  for_each f (l1 ++ l2)%list s = (s' <- for_each f l1 s ;; for_each f l2 s').
Proof.
  revert s. induction l1 as [|x l1 IH]; intros s; cbn [for_each app JS.bind];
    [reflexivity|].
  destruct (f s x); cbn [JS.bind]; [apply IH | reflexivity | reflexivity].
Qed.

(** X6: the steps of a template compose.  Running the steps [ts1 ++ ts2] is
    running [ts1] and then [ts2] on its result; a step that throws ends the
    run. *)
Theorem applyTemplateTransformations_app data ts1 ts2 :
  applyTemplateTransformations data (ts1 ++ ts2)%list =
  (processedData <- applyTemplateTransformations data ts1 ;;
   applyTemplateTransformations processedData ts2).
Proof. unfold applyTemplateTransformations. apply for_each_app. Qed.

(** A criterion throws a TypeError or answers. *)
Lemma evaluateCriterion_modelled item c : evaluateCriterion item c <> Unmodelled.
Proof.
  unfold evaluateCriterion.
  repeat match goal with
         | |- context [if ?b then _ else _] => destruct b
         end; try discriminate.
  destruct (get item (field c)); discriminate.
Qed.

Lemma evaluateFilter_modelled item criteria :
  evaluateFilter item criteria <> Unmodelled.
Proof.
  unfold evaluateFilter. induction criteria as [|c criteria IH]; cbn [every].
  - discriminate.
  - pose proof (evaluateCriterion_modelled item c) as Hc.
    destruct (evaluateCriterion item c) as [[|]| |]; cbn [JS.bind];
      [exact IH | discriminate | discriminate | contradiction].
Qed.

Lemma evaluateFilter_cases item criteria :
  evaluateFilter item criteria =
  if throws criteria item then TypeError else Ok (passes criteria item).
Proof.
  unfold throws, passes.
  pose proof (evaluateFilter_modelled item criteria) as H.
  destruct (evaluateFilter item criteria); [reflexivity | reflexivity | contradiction].
Qed.

(** [filter] with the callback of the filter step. *)
Lemma array_filter_cases criteria data :
  array_filter (fun item => evaluateFilter item criteria) data =
  if existsb (throws criteria) data then TypeError
  else Ok (List.filter (passes criteria) data).
Proof.
  induction data as [|item data IH]; cbn [array_filter existsb List.filter];
    [reflexivity|].
  rewrite IH, (evaluateFilter_cases item criteria).
  destruct (throws criteria item); cbn [JS.bind orb]; [reflexivity|].
  destruct (existsb (throws criteria) data); cbn [JS.bind]; [reflexivity|].
  reflexivity.
Qed.

(** What a filter step keeps.  The step throws when the criteria throw on
    some record; otherwise it returns, in their order, exactly the records
    on which every criterion holds. *)
Lemma filter_step_keeps_passing data criteria :
  applyTransformation data (Filter criteria) =
  if existsb (throws criteria) data then TypeError
  else Ok (List.filter (passes criteria) data).
Proof. cbn [applyTransformation]. apply array_filter_cases. Qed.

Lemma every_app {A} (f : A -> result bool) l1 l2 :
  every f (l1 ++ l2)%list =
  (b <- every f l1 ;; if b then every f l2 else Ok false).
Proof.
  induction l1 as [|x l1 IH]; cbn [every app JS.bind].
  - destruct (every f l2) as [[|]| |]; reflexivity.
  - destruct (f x) as [[|]| |]; cbn [JS.bind]; [exact IH | | |]; reflexivity.
Qed.

Lemma throws_app c1 c2 item :
  throws (c1 ++ c2) item = throws c1 item || (passes c1 item && throws c2 item).
Proof.
  unfold throws, passes, evaluateFilter. rewrite every_app.
  destruct (every (evaluateCriterion item) c1) as [[|]| |]; cbn [JS.bind];
    try reflexivity;
    destruct (every (evaluateCriterion item) c2); reflexivity.
Qed.

Lemma passes_app c1 c2 item :
  passes (c1 ++ c2) item = passes c1 item && passes c2 item.
Proof.
  unfold passes, evaluateFilter. rewrite every_app.
  destruct (every (evaluateCriterion item) c1) as [[|]| |]; cbn [JS.bind];
    try reflexivity.
Qed.

Lemma passes_not_throws c item : passes c item = true -> throws c item = false.
Proof.
  unfold passes, throws. destruct (evaluateFilter item c); [reflexivity| |];
    discriminate.
Qed.

Lemma filter_filter {A} (p q : A -> bool) l :
  List.filter q (List.filter p l) = List.filter (fun x => p x && q x) l.
Proof.
  induction l as [|x l IH]; [reflexivity|]. cbn [List.filter].
  destruct (p x); cbn [List.filter andb]; [|exact IH].
  destruct (q x); now rewrite IH.
Qed.

Lemma existsb_filter {A} (p q : A -> bool) l :
  existsb q (List.filter p l) = existsb (fun x => p x && q x) l.
Proof.
  induction l as [|x l IH]; [reflexivity|]. cbn [List.filter existsb].
  destruct (p x); cbn [existsb andb orb]; now rewrite IH.
Qed.

(** X7: splitting the criteria of a filter.  One filter step with the
    criteria [c1 ++ c2] and two successive filter steps with [c1] and [c2]
    return the same records, and the one throws a TypeError exactly when the
    other does.  The two may throw on different records, with different
    messages: the model keeps the class of a thrown error only. *)
Theorem filter_step_split data c1 c2 :
  applyTemplateTransformations data [Filter (c1 ++ c2)] =
  applyTemplateTransformations data [Filter c1; Filter c2].
Proof.
  unfold applyTemplateTransformations. cbn [for_each applyTransformation].
  rewrite !array_filter_cases.
  destruct (existsb (throws c1) data) eqn:H1; cbn [JS.bind].
  - replace (existsb (throws (c1 ++ c2)) data) with true; [reflexivity|].
    symmetry. apply existsb_exists. apply existsb_exists in H1.
    destruct H1 as (x & Hin & Hx). exists x. split; [exact Hin|].
    now rewrite throws_app, Hx.
  - rewrite array_filter_cases, existsb_filter, filter_filter.
    assert (Hth : existsb (throws (c1 ++ c2)) data =
                  existsb (fun x => passes c1 x && throws c2 x) data).
    { clear - H1. induction data as [|x data IH]; [reflexivity|].
      cbn [existsb] in *. apply orb_false_elim in H1. destruct H1 as [Hx Hd].
      rewrite throws_app, Hx, (IH Hd). reflexivity. }
    rewrite Hth.
    destruct (existsb (fun x => passes c1 x && throws c2 x) data);
      cbn [JS.bind]; [reflexivity|].
    f_equal. apply filter_ext. intros x. apply passes_app.
Qed.

(** X8: [contains] on a record that lacks the field.  The criterion calls
    [toString] on [undefined] (or [null]): when it comes first in the
    criteria, the filter step throws a TypeError and returns no data. *)
Theorem filter_contains_missing_field data item c criteria :
  In item data ->
  operator c = "contains" ->
  get item (field c) = VUndefined \/ get item (field c) = VNull ->
  applyTransformation data (Filter (c :: criteria)) = TypeError.
Proof.
  intros Hin Hop Hmissing. cbn [applyTransformation]. rewrite array_filter_cases.
  replace (existsb (throws (c :: criteria)) data) with true; [reflexivity|].
  symmetry. apply existsb_exists. exists item. split; [exact Hin|].
  unfold throws, evaluateFilter. cbn [every].
  unfold evaluateCriterion. rewrite Hop. cbn [String.eqb Ascii.eqb Bool.eqb].
  destruct Hmissing as [-> | ->]; reflexivity.
Qed.

End PipelineFacts.

Lemma filter_contains_missing_field_witness :
  In (hd [] sample_data) sample_data
  /\ Pipeline.operator contains_label = "contains"%string
  /\ (JS.get (hd [] sample_data) (Pipeline.field contains_label) = JS.VUndefined
      \/ JS.get (hd [] sample_data) (Pipeline.field contains_label) = JS.VNull)
  /\ Pipeline.applyTransformation (E := SampleEngine.engine) sample_data
       (Pipeline.Filter [contains_label]) = JS.TypeError.
Proof.
  assert (H1 : In (hd [] sample_data) sample_data) by (left; reflexivity).
  assert (H2 : Pipeline.operator contains_label = "contains"%string)
    by reflexivity.
  assert (H3 : JS.get (hd [] sample_data) (Pipeline.field contains_label)
               = JS.VUndefined
               \/ JS.get (hd [] sample_data) (Pipeline.field contains_label)
                  = JS.VNull) by (left; reflexivity).
  split; [exact H1|]. split; [exact H2|]. split; [exact H3|].
  exact (filter_contains_missing_field (E := SampleEngine.engine)
           sample_data (hd [] sample_data) contains_label [] H1 H2 H3).
Defined.

(** ** Plain objects: reading after writing *)
Section Objects.
Import JS.

Lemma own_overwrite_same {V} (o : list (string * V)) k v :
  own o k <> None -> own (overwrite o k v) k = Some v.
Proof.
  induction o as [|[k' v'] o IH]; cbn [own overwrite]; [congruence|].
  destruct (String.eqb_spec k' k) as [->|Hne]; cbn [own].
  - now rewrite String.eqb_refl.
  - intros H. destruct (String.eqb_spec k' k); [contradiction | now apply IH].
Qed.

Lemma own_overwrite_other {V} (o : list (string * V)) k k' v :
  k <> k' -> own (overwrite o k v) k' = own o k'.
Proof.
  intros Hne. induction o as [|[k0 v0] o IH]; cbn [own overwrite]; [reflexivity|].
  destruct (String.eqb_spec k0 k) as [->|Hk0]; cbn [own].
  - destruct (String.eqb_spec k k'); [contradiction | reflexivity].
  - now rewrite IH.
Qed.

Lemma own_app_fresh {V} (o : list (string * V)) k v :
  own o k = None -> own (o ++ [(k, v)]) k = Some v.
Proof.
  induction o as [|[k' v'] o IH]; cbn [own app].
  - now rewrite String.eqb_refl.
  - destruct (k' =? k)%string; [discriminate | exact IH].
Qed.

Lemma own_app_other {V} (o : list (string * V)) k k' v :
  k <> k' -> own (o ++ [(k, v)]) k' = own o k'.
Proof.
  intros Hne. induction o as [|[k0 v0] o IH]; cbn [own app].
  - destruct (String.eqb_spec k k'); [contradiction | reflexivity].
  - now rewrite IH.
Qed.


(** An assignment leaves the other properties alone. *)
Lemma get_set_other o k k' v : k <> k' -> get (set o k v) k' = get o k'.
Proof.
  intros Hne. unfold get, set. destruct (own o k) eqn:Hown.
  - now rewrite own_overwrite_other.
  - destruct (k =? "__proto__")%string; [reflexivity|].
    now rewrite own_app_other.
Qed.

End Objects.

(** ** Adding up over the groups *)
Section Tally.
Import JS Pipeline.
Context {E : Engine}.
Variable nm : string.
Hypothesis nm_plain : nm <> "__proto__"%string.





(** A field [f] stored under [nm] to which a record [item] that [fits]
    adds [weight item]. *)
Variable f : aggregateField.
Variable weight : obj -> Z.
Variable fits : obj -> Prop.
Hypothesis f_name : name f = nm.
Hypothesis f_step : forall item g c,
  fits item -> 0 <= c -> c + weight item < 2 ^ Num.prec ->
  get g nm = VNum (Num.of_Z c) ->
  0 <= weight item
  /\ get (accumulate item g f) nm = VNum (Num.of_Z (c + weight item)).















End Tally.

Section Totals.
Import JS Pipeline.
Context {E : Engine}.




End Totals.



(** ** The groups and their order *)
Section Groups.
Import JS Pipeline.
Context {E : Engine}.
Variable groupBy : string.
Variable fields : list aggregateField.
Hypothesis fields_apart : Forall (fun f => name f <> groupBy) fields.

Lemma accumulate_keeps_key item g f :
  name f <> groupBy -> get (accumulate item g f) groupBy = get g groupBy.
Proof.
  intros Hne. unfold accumulate.
  repeat match goal with
         | |- context [if ?b then _ else _] => destruct b
         end; try reflexivity; now apply get_set_other.
Qed.

Lemma accumulate_all_keeps_key item g :
  get (fold_left (accumulate item) fields g) groupBy = get g groupBy.
Proof.
  revert g. induction fields_apart as [|f fs Hf Hfs IH]; intros g;
    cbn [fold_left]; [reflexivity|].
  now rewrite IH, accumulate_keeps_key.
Qed.

Lemma new_group_key key : get (new_group groupBy key fields) groupBy = key.
Proof.
  unfold new_group.
  assert (H : forall g, get (fold_left (fun g f => set g (name f) (VNum Num.zero))
                               fields g) groupBy = get g groupBy).
  { induction fields_apart as [|f fs Hf Hfs IH]; intros g; cbn [fold_left];
      [reflexivity|].
    now rewrite IH, get_set_other. }
  rewrite H. unfold get. cbn [own]. now rewrite String.eqb_refl.
Qed.

Lemma map_fst_overwrite {V} (o : list (string * V)) k v :
  map fst (overwrite o k v) = map fst o.
Proof.
  induction o as [|[k' v'] o IH]; [reflexivity|]. cbn [overwrite].
  destruct (k' =? k)%string; cbn [map fst]; [reflexivity | now rewrite IH].
Qed.

Lemma own_existsb {V} (o : list (string * V)) k :
  existsb (String.eqb k) (map fst o) =
  match own o k with Some _ => true | None => false end.
Proof.
  induction o as [|[k' v'] o IH]; [reflexivity|]. cbn [map fst existsb own].
  rewrite String.eqb_sym. destruct (k' =? k)%string; [reflexivity | exact IH].
Qed.

Lemma Forall_overwrite {V} (P : string * V -> Prop) o k v :
  Forall P o -> P (k, v) -> Forall P (overwrite o k v).
Proof.
  intros Ho Hv. induction Ho as [|[k' v'] o Hx Ho IH]; [constructor|].
  cbn [overwrite]. destruct (String.eqb_spec k' k) as [->|].
  - constructor; assumption.
  - constructor; assumption.
Qed.

(** One record: its key joins the keys seen, and every group still carries
    the key it is stored under. *)
Lemma aggregate_item_keys grouped item :
  Forall (fun kv => group_key groupBy (snd kv) = fst kv) grouped ->
  plain_key groupBy item ->
  exists grouped',
    aggregate_item groupBy fields grouped item = Ok grouped'
    /\ map fst grouped' = add_key (map fst grouped) (group_key groupBy item)
    /\ Forall (fun kv => group_key groupBy (snd kv) = fst kv) grouped'.
Proof.
  intros Hinv Hplain. unfold aggregate_item, add_key.
  unfold plain_key in Hplain. rewrite own_existsb.
  fold (group_key groupBy item). rewrite Hplain.
  set (k := group_key groupBy item).
  destruct (own grouped k) as [g|] eqn:Hown.
  - eexists. split; [reflexivity|]. split; [apply map_fst_overwrite|].
    apply Forall_overwrite; [exact Hinv|]. cbn [fst snd].
    unfold group_key. rewrite accumulate_all_keeps_key.
    clear - Hinv Hown. induction Hinv as [|[k' g'] o Hx Ho IH]; [discriminate|].
    cbn [own] in Hown. destruct (String.eqb_spec k' k) as [->|].
    + injection Hown as <-. exact Hx.
    + now apply IH.
  - eexists. split; [reflexivity|]. split.
    + rewrite map_app. reflexivity.
    + apply Forall_app. split; [exact Hinv|]. constructor; [|constructor].
      cbn [fst snd]. unfold group_key at 1.
      now rewrite accumulate_all_keeps_key, new_group_key.
Qed.

Lemma for_each_keys data :
  forall grouped,
  Forall (fun kv => group_key groupBy (snd kv) = fst kv) grouped ->
  Forall (plain_key groupBy) data ->
  exists grouped',
    for_each (aggregate_item groupBy fields) data grouped = Ok grouped'
    /\ map fst grouped' =
       fold_left add_key (map (group_key groupBy) data) (map fst grouped)
    /\ Forall (fun kv => group_key groupBy (snd kv) = fst kv) grouped'.
Proof.
  induction data as [|item data IH]; intros grouped Hinv Hplain.
  - exists grouped. repeat split; trivial.
  - apply Forall_cons_iff in Hplain. destruct Hplain as [Hitem Hrest].
    destruct (aggregate_item_keys grouped item Hinv Hitem)
      as (g1 & Hstep & Hkeys1 & Hinv1).
    destruct (IH g1 Hinv1 Hrest) as (g2 & Hrun & Hkeys2 & Hinv2).
    exists g2. cbn [for_each map fold_left]. rewrite Hstep. cbn [JS.bind].
    split; [exact Hrun|]. split; [|exact Hinv2]. now rewrite Hkeys2, Hkeys1.
Qed.

End Groups.

Section GroupOrder.
Import JS Pipeline.
Context {E : Engine}.

Lemma filter_filter_keys (p q : string -> bool) l :
  List.filter q (List.filter p l) = List.filter (fun x => p x && q x) l.
Proof.
  induction l as [|x l IH]; [reflexivity|]. cbn [List.filter].
  destruct (p x); cbn [List.filter andb]; [|exact IH].
  destruct (q x); now rewrite IH.
Qed.

Lemma existsb_app_one k seen x :
  existsb (String.eqb k) (seen ++ [x]) =
  existsb (String.eqb k) seen || (k =? x)%string.
Proof. rewrite existsb_app. cbn [existsb]. now rewrite orb_false_r. Qed.

(** Adding the keys one by one lists their first occurrences. *)
Lemma add_keys_first_occurrences keys :
  forall seen,
  fold_left add_key keys seen =
  (seen ++ List.filter (fun k => negb (existsb (String.eqb k) seen))
             (first_occurrences keys))%list.
Proof.
  induction keys as [|x keys IH]; intros seen; cbn [fold_left first_occurrences].
  - cbn. now rewrite app_nil_r.
  - rewrite IH. unfold add_key. cbn [List.filter].
    destruct (existsb (String.eqb x) seen) eqn:Hx; cbn [negb].
    + f_equal. rewrite filter_filter_keys. apply filter_ext_in. intros k _.
      destruct (String.eqb_spec k x) as [->|]; cbn [negb andb];
        [now rewrite Hx | reflexivity].
    + rewrite <- app_assoc. cbn [app]. f_equal. f_equal.
      rewrite filter_filter_keys. apply filter_ext. intros k.
      rewrite existsb_app_one, negb_orb. apply andb_comm.
Qed.

Lemma first_occurrences_in k keys : In k (first_occurrences keys) -> In k keys.
Proof.
  induction keys as [|x keys IH]; cbn [first_occurrences In]; [trivial|].
  intros [H|H]; [now left|]. apply filter_In in H. right. now apply IH.
Qed.

(** Without array indices among its keys, an object lists its values in
    the order of creation. *)
Lemma object_values_named {A} (o : list (string * A)) :
  Forall (fun kv => array_index (fst kv) = None) o ->
  object_values o = map snd o.
Proof.
  intros Ho. unfold object_values.
  assert (Hindexed :
            fold_right (fun kv acc =>
                          match array_index (fst kv) with
                          | Some n => insert_by_index (n, snd kv) acc
                          | None => acc
                          end) [] o = []).
  { induction Ho as [|kv o Hkv Ho IH]; [reflexivity|].
    cbn [fold_right]. now rewrite Hkv. }
  assert (Hnamed :
            List.filter (fun kv => match array_index (fst kv) with
                                   | Some _ => false
                                   | None => true
                                   end) o = o).
  { clear Hindexed. induction Ho as [|kv o Hkv Ho IH]; [reflexivity|].
    cbn [List.filter]. now rewrite Hkv, IH. }
  now rewrite Hindexed, Hnamed.
Qed.

(** X11: one group per key.  When no aggregate field is named like the
    grouping field, and the keys are neither array indices nor names of
    members of [Object.prototype], the result holds one group per distinct
    key, in the order in which the keys first occur, each under its key. *)
Theorem aggregateData_groups_in_order groupBy fields data :
  Forall (fun f => name f <> groupBy) fields ->
  Forall (named_key groupBy) data ->
  exists groups,
    aggregateData data groupBy fields = Ok groups
    /\ map (group_key groupBy) groups =
       first_occurrences (map (group_key groupBy) data).
Proof.
  intros Hfields Hdata.
  assert (Hplain : Forall (plain_key groupBy) data).
  { eapply Forall_impl; [|exact Hdata]. now intros item [H _]. }
  destruct (for_each_keys groupBy fields Hfields data [] (Forall_nil _) Hplain)
    as (grouped & Hrun & Hkeys & Hinv).
  rewrite add_keys_first_occurrences in Hkeys. cbn [map app existsb negb] in Hkeys.
  assert (Hall : forall l : list string, List.filter (fun _ => true) l = l).
  { induction l as [|x l IH]; [reflexivity|]. cbn. now rewrite IH. }
  rewrite Hall in Hkeys.
  exists (object_values grouped). unfold aggregateData. rewrite Hrun.
  split; [reflexivity|].
  rewrite object_values_named.
  - rewrite <- Hkeys, map_map. apply map_ext_in. intros kv Hin.
    rewrite Forall_forall in Hinv. now apply Hinv.
  - apply Forall_forall. intros kv Hin.
    assert (Hk : In (fst kv) (map (group_key groupBy) data)).
    { apply first_occurrences_in. rewrite <- Hkeys. now apply in_map. }
    apply in_map_iff in Hk. destruct Hk as (item & Hitem & Hin').
    rewrite Forall_forall in Hdata. destruct (Hdata item Hin') as [_ Hidx].
    now rewrite <- Hitem.
Qed.

End GroupOrder.

Lemma aggregateData_groups_in_order_witness :
  Forall (fun f => Pipeline.name f <> "branch"%string) average_and_total
  /\ Forall (named_key (E := SampleEngine.engine) "branch") loans
  /\ exists groups,
       Pipeline.aggregateData (E := SampleEngine.engine) loans "branch"
         average_and_total = JS.Ok groups
       /\ map (group_key (E := SampleEngine.engine) "branch") groups =
          ["Nairobi"; "Kisumu"]%string.
Proof.
  assert (H1 : Forall (fun f => Pipeline.name f <> "branch"%string)
                 average_and_total)
    by (repeat constructor; discriminate).
  assert (H2 : Forall (named_key (E := SampleEngine.engine) "branch") loans)
    by (repeat constructor).
  split; [exact H1|]. split; [exact H2|].
  exact (aggregateData_groups_in_order (E := SampleEngine.engine) "branch"
           average_and_total loans H1 H2).
Defined.

(** ** The rate limiter *)
Section RateLimitFacts.
Import RateLimit.
Variable windowMs max : Z.

Lemma own_filter_kept {V} (p : string * V -> bool) m k v :
  JS.own m k = Some v -> p (k, v) = true -> JS.own (List.filter p m) k = Some v.
Proof.
  induction m as [|[k' v'] m IH]; cbn [JS.own List.filter]; [discriminate|].
  destruct (String.eqb_spec k' k) as [->|Hne].
  - intros [= ->] Hp. rewrite Hp. cbn [JS.own]. now rewrite String.eqb_refl.
  - intros Hown Hp. destruct (p (k', v')); [|now apply IH].
    cbn [JS.own]. destruct (String.eqb_spec k' k); [contradiction | now apply IH].
Qed.

Lemma own_filter_none {V} (p : string * V -> bool) m k :
  JS.own m k = None -> JS.own (List.filter p m) k = None.
Proof.
  induction m as [|[k' v'] m IH]; cbn [JS.own List.filter]; [reflexivity|].
  destruct (String.eqb_spec k' k) as [->|Hne]; [discriminate|].
  intros Hown. destruct (p (k', v')); [|now apply IH].
  cbn [JS.own]. destruct (String.eqb_spec k' k); [contradiction | now apply IH].
Qed.

Lemma own_map_set_same m k v : JS.own (map_set m k v) k = Some v.
Proof.
  unfold map_set. destruct (JS.own m k) eqn:Hown.
  - apply own_overwrite_same. congruence.
  - now apply own_app_fresh.
Qed.

Lemma own_map_set_other m k k' v :
  k <> k' -> JS.own (map_set m k v) k' = JS.own m k'.
Proof.
  intros Hne. unfold map_set. destruct (JS.own m k).
  - now apply own_overwrite_other.
  - now apply own_app_other.
Qed.

(** The entry of the caller after a call, by what the map held for it. *)
Lemma limiter_entry requests req now :
  let c := match JS.own (List.filter (recent windowMs now) requests) (key_of req) with
           | Some e => if (windowMs <? now - timestamp e)%Z
                       then {| count := 1; timestamp := now |}
                       else {| count := count e + 1; timestamp := timestamp e |}
           | None => {| count := 1; timestamp := now |}
           end in
  JS.own (fst (limiter windowMs max requests req now)) (key_of req) = Some c
  /\ admitted (snd (limiter windowMs max requests req now)) = (count c <=? max)%Z.
Proof.
  unfold limiter.
  destruct (JS.own (List.filter (recent windowMs now) requests) (key_of req))
    as [e|]; cbn [timestamp count]; rewrite ?Z.sub_diag;
    match goal with
    | |- context [if (windowMs <? ?d)%Z then _ else _] =>
        destruct (windowMs <? d)%Z
    end; cbn [timestamp count]; rewrite ?Z.add_0_l, Z.ltb_antisym;
    match goal with
    | |- context [negb (?c <=? max)%Z] => destruct (c <=? max)%Z
    end; cbn [negb fst snd admitted];
    (split; [apply own_map_set_same | reflexivity]).
Qed.

(** A call leaves the recent entries of the other clients alone. *)
Lemma limiter_other requests req now k e :
  key_of req <> k ->
  JS.own requests k = Some e -> now - timestamp e <= windowMs ->
  JS.own (fst (limiter windowMs max requests req now)) k = Some e.
Proof.
  intros Hne Hown Hrecent.
  assert (Hkept : JS.own (List.filter (recent windowMs now) requests) k = Some e).
  { apply own_filter_kept; [exact Hown|]. unfold recent. cbn [snd].
    apply negb_true_iff, Z.ltb_ge. exact Hrecent. }
  unfold limiter.
  match goal with
  | |- context [if ?b then _ else _] => destruct b
  end; cbn [fst]; now rewrite own_map_set_other.
Qed.

Lemma limiter_other_none requests req now k :
  key_of req <> k ->
  JS.own requests k = None ->
  JS.own (fst (limiter windowMs max requests req now)) k = None.
Proof.
  intros Hne Hown.
  assert (Hkept : JS.own (List.filter (recent windowMs now) requests) k = None)
    by now apply own_filter_none.
  unfold limiter.
  match goal with
  | |- context [if ?b then _ else _] => destruct b
  end; cbn [fst]; now rewrite own_map_set_other.
Qed.

Lemma serve_cons requests req now calls :
  serve windowMs max requests ((req, now) :: calls) =
  (fst (serve windowMs max (fst (limiter windowMs max requests req now)) calls),
   snd (limiter windowMs max requests req now)
   :: snd (serve windowMs max (fst (limiter windowMs max requests req now)) calls)).
Proof.
  cbn [serve]. destruct (limiter windowMs max requests req now) as [r a].
  cbn [fst snd]. now destruct (serve windowMs max r calls).
Qed.

(** The calls of [k] within one window, after [c] calls counted since
    [start]: the call number [i] is admitted when [c + i < max]. *)
Lemma serve_window k t0 calls :
  forall requests c,
  Forall (fun call => t0 <= snd call <= t0 + windowMs) calls ->
  (c = 0 /\ JS.own requests k = None
   \/ 0 < c /\ exists start,
        t0 <= start
        /\ JS.own requests k = Some {| count := c; timestamp := start |}) ->
  admissions k calls (snd (serve windowMs max requests calls)) =
  map (fun i => (c + Z.of_nat i <? max)%Z) (seq 0 (calls_of k calls)).
Proof.
  induction calls as [|[req now] calls IH]; intros requests c Htimes Hstate;
    [reflexivity|].
  apply Forall_cons_iff in Htimes. destruct Htimes as [Hnow Htimes].
  cbn [snd] in Hnow.
  rewrite serve_cons. cbn [snd admissions]. unfold calls_of.
  cbn [List.filter fst].
  destruct (String.eqb_spec (key_of req) k) as [Hk|Hk].
  - (* a call of [k] *)
    destruct (limiter_entry requests req now) as [Hentry Hadm].
    rewrite Hk in Hentry.
    cbn [List.length seq map]. rewrite Z.add_0_r.
    rewrite <- seq_shift, map_map.
    assert (Hnext : exists start,
               t0 <= start
               /\ JS.own (fst (limiter windowMs max requests req now)) k =
                  Some {| count := c + 1; timestamp := start |}
               /\ admitted (snd (limiter windowMs max requests req now)) =
                  (c + 1 <=? max)%Z).
    { destruct Hstate as [[-> Hnone] | [Hc (start & Hstart & Hown)]].
      - rewrite Hk in Hadm.
        rewrite (own_filter_none _ _ _ Hnone) in Hentry, Hadm.
        exists now. split; [lia|]. split; assumption.
      - assert (Hkept : JS.own (List.filter (recent windowMs now) requests) k =
                        Some {| count := c; timestamp := start |}).
        { apply own_filter_kept; [exact Hown|]. unfold recent. cbn [snd timestamp].
          apply negb_true_iff, Z.ltb_ge. lia. }
        rewrite Hk in Hadm. rewrite Hkept in Hentry, Hadm.
        cbn [timestamp count] in Hentry, Hadm.
        replace (windowMs <? now - start)%Z with false in Hentry, Hadm
          by (symmetry; apply Z.ltb_ge; lia).
        exists start. split; [exact Hstart|]. split; assumption. }
    destruct Hnext as (start & Hstart & Hown' & Hadm').
    rewrite Hadm'. f_equal.
    + destruct (Z.leb_spec (c + 1) max), (Z.ltb_spec c max); lia.
    + rewrite (IH _ (c + 1) Htimes).
      * apply map_ext. intros i. f_equal. lia.
      * right. split; [destruct Hstate as [[-> _]|[Hc _]]; lia|].
        exists start. split; assumption.
  - (* a call of another client *)
    apply IH; [exact Htimes|].
    destruct Hstate as [[-> Hnone] | [Hc (start & Hstart & Hown)]].
    + left. split; [reflexivity|]. now apply limiter_other_none.
    + right. split; [exact Hc|]. exists start. split; [exact Hstart|].
      apply limiter_other; [exact Hk | exact Hown |]. cbn [timestamp]. lia.
Qed.

(** X12: one window.  When all calls fall within [windowMs] of one another
    and the map holds nothing yet under a key, the limiter admits the first
    [max] calls made under this key and answers 429 to all later ones,
    whatever calls are made under other keys in between.  The key is the IP
    followed by the user id: clients whose IP and id run together into one
    string count as one. *)
Theorem limiter_admits_max_per_window k t0 requests calls :
  JS.own requests k = None ->
  Forall (fun call => t0 <= snd call <= t0 + windowMs) calls ->
  admissions k calls (snd (serve windowMs max requests calls)) =
  map (fun i => (Z.of_nat i <? max)%Z) (seq 0 (calls_of k calls)).
Proof.
  intros Hnone Htimes.
  rewrite (serve_window k t0 calls requests 0 Htimes); [reflexivity|].
  left. split; [reflexivity | exact Hnone].
Qed.

Lemma map_set_keys m k v :
  NoDup (map fst m) -> NoDup (map fst (map_set m k v)).
Proof.
  intros Hm. unfold map_set. destruct (JS.own m k) eqn:Hown.
  - clear Hown. induction m as [|[k' v'] m IH]; [constructor|].
    cbn [JS.overwrite]. destruct (k' =? k)%string; [exact Hm|].
    cbn [map fst] in *. inversion Hm as [|? ? Hnotin Hrest]; subst.
    constructor; [|now apply IH].
    clear - Hnotin. intros Hin. apply Hnotin. clear Hnotin.
    induction m as [|[k0 v0] m IH]; [exact Hin|].
    cbn [JS.overwrite] in Hin. destruct (k0 =? k)%string; [exact Hin|].
    cbn [map fst In] in *. destruct Hin as [H|H]; [now left | right; now apply IH].
  - rewrite map_app. cbn [map fst]. apply NoDup_app_remove_l with (l := []).
    cbn [app]. apply NoDup_app; [exact Hm | repeat constructor; intros [] |].
    intros x Hin [H|[]]. subst x.
    clear - Hown Hin. induction m as [|[k' v'] m IH]; [contradiction|].
    cbn [JS.own map fst In] in *.
    destruct (String.eqb_spec k' k); [discriminate|].
    destruct Hin as [H|H]; [contradiction | now apply IH].
Qed.

Lemma Forall_map_set (P : string * entry -> Prop) m k v :
  Forall P m -> P (k, v) -> Forall P (map_set m k v).
Proof.
  intros Hm Hv. unfold map_set. destruct (JS.own m k) eqn:Hown.
  - clear Hown. induction Hm as [|[k' v'] m Hx Hm IH]; [constructor|].
    cbn [JS.overwrite]. destruct (String.eqb_spec k' k) as [->|].
    + constructor; assumption.
    + constructor; assumption.
  - apply Forall_app. split; [exact Hm | constructor; [exact Hv | constructor]].
Qed.

(** X13: what the map holds after a call.  With a window that is not
    negative, a call at [now] leaves no entry older than the window in the
    map, keeps one entry per client with a count of at least 1, and the
    caller has an entry. *)
Theorem limiter_keeps_recent_entries requests req now :
  0 <= windowMs ->
  NoDup (map fst requests) ->
  Forall (fun kv => 1 <= count (snd kv)) requests ->
  let requests' := fst (limiter windowMs max requests req now) in
  live windowMs now requests'
  /\ NoDup (map fst requests')
  /\ exists e, JS.own requests' (key_of req) = Some e.
Proof.
  intros Hw Hnodup Hcounts requests'.
  set (cleaned := List.filter (recent windowMs now) requests).
  assert (Hlive : live windowMs now cleaned).
  { unfold live, cleaned. apply Forall_forall. intros kv Hin.
    apply filter_In in Hin. destruct Hin as [Hin Hrecent].
    unfold recent in Hrecent. apply negb_true_iff, Z.ltb_ge in Hrecent.
    rewrite Forall_forall in Hcounts. split; [lia | now apply Hcounts]. }
  assert (Hnodup' : NoDup (map fst cleaned)).
  { unfold cleaned. clear - Hnodup.
    induction requests as [|[k v] m IH]; [constructor|].
    cbn [map fst List.filter] in *. inversion Hnodup as [|? ? Hnotin Hrest]; subst.
    destruct (recent windowMs now (k, v)); [|now apply IH].
    cbn [map fst]. constructor; [|now apply IH].
    intros Hin. apply Hnotin. apply in_map_iff in Hin.
    destruct Hin as (kv & Hk & Hin). apply filter_In in Hin.
    apply in_map_iff. exists kv. tauto. }
  assert (Hstep : exists e,
             requests' = map_set cleaned (key_of req) e
             /\ now - timestamp e <= windowMs /\ 1 <= count e).
  { unfold requests', limiter. fold cleaned.
    destruct (JS.own cleaned (key_of req)) as [e|] eqn:Hown.
    - assert (He : now - timestamp e <= windowMs /\ 1 <= count e).
      { clear - Hlive Hown. unfold live in Hlive.
        induction Hlive as [|[k v] m Hx Hm IH]; [discriminate|].
        cbn [JS.own] in Hown. destruct (k =? key_of req)%string.
        - injection Hown as <-. exact Hx.
        - now apply IH. }
      replace (windowMs <? now - timestamp e)%Z with false
        by (symmetry; apply Z.ltb_ge; lia).
      exists {| count := count e + 1; timestamp := timestamp e |}.
      cbn [count timestamp].
      split; [destruct (max <? count e + 1)%Z; reflexivity | lia].
    - cbn [timestamp]. rewrite Z.sub_diag.
      replace (windowMs <? 0)%Z with false by (symmetry; apply Z.ltb_ge; lia).
      exists {| count := 1; timestamp := now |}. cbn [count timestamp].
      split; [destruct (max <? 0 + 1)%Z; reflexivity | lia]. }
  destruct Hstep as (e & -> & He).
  split; [|split].
  - unfold live. apply Forall_map_set; [exact Hlive | exact He].
  - now apply map_set_keys.
  - exists e. apply own_map_set_same.
Qed.

(** X14: a new window.  Once more than [windowMs] has passed since the window
    of a client began, its next call is admitted and counted as the first
    of a new window, however many calls the old window had counted. *)
Theorem limiter_admits_after_window requests req now e :
  1 <= max -> 0 <= windowMs ->
  JS.own requests (key_of req) = Some e ->
  NoDup (map fst requests) ->
  windowMs < now - timestamp e ->
  let '(requests', a) := limiter windowMs max requests req now in
  a = Next max (max - 1) (now + windowMs)
  /\ JS.own requests' (key_of req) = Some {| count := 1; timestamp := now |}.
Proof.
  intros Hmax Hw Hown Hnodup Hold.
  assert (Hgone : JS.own (List.filter (recent windowMs now) requests) (key_of req)
                  = None).
  { clear - Hown Hnodup Hold.
    induction requests as [|[k v] m IH]; [reflexivity|].
    cbn [JS.own List.filter map fst] in *.
    inversion Hnodup as [|? ? Hnotin Hrest]; subst.
    destruct (String.eqb_spec k (key_of req)) as [->|Hne].
    - injection Hown as ->.
      replace (recent windowMs now (key_of req, e)) with false
        by (symmetry; unfold recent; cbn [snd];
            apply negb_false_iff, Z.ltb_lt; exact Hold).
      apply own_filter_none.
      clear - Hnotin. induction m as [|[k v] m IH]; [reflexivity|].
      cbn [JS.own map fst In] in *.
      destruct (String.eqb_spec k (key_of req)); [tauto|]. apply IH. tauto.
    - destruct (recent windowMs now (k, v)); [|now apply IH].
      cbn [JS.own]. destruct (String.eqb_spec k (key_of req)); [contradiction|].
      now apply IH. }
  unfold limiter. rewrite Hgone. cbn [timestamp count]. rewrite Z.sub_diag.
  replace (windowMs <? 0)%Z with false by (symmetry; apply Z.ltb_ge; lia).
  cbn [timestamp count].
  replace (max <? 0 + 1)%Z with false by (symmetry; apply Z.ltb_ge; lia).
  split; [f_equal; lia | apply own_map_set_same].
Qed.

End RateLimitFacts.

(** The key does not tell every two clients apart. *)
Example key_of_runs_together :
  RateLimit.key_of teller = RateLimit.key_of neighbour
  /\ RateLimit.ip teller <> RateLimit.ip neighbour.
Proof. split; [reflexivity | discriminate]. Qed.

Lemma limiter_admits_max_per_window_witness :
  JS.own (V := RateLimit.entry) [] (RateLimit.key_of teller) = None
  /\ Forall (fun call => 1000 <= snd call <= 1000 + 60000) busy_minute
  /\ admissions (RateLimit.key_of teller) busy_minute
       (snd (serve 60000 3 [] busy_minute)) = [true; true; true; false].
Proof.
  assert (H1 : JS.own (V := RateLimit.entry) [] (RateLimit.key_of teller) = None)
    by reflexivity.
  assert (H2 : Forall (fun call => 1000 <= snd call <= 1000 + 60000) busy_minute)
    by (repeat constructor; cbn; lia).
  split; [exact H1|]. split; [exact H2|].
  exact (limiter_admits_max_per_window 60000 3 (RateLimit.key_of teller) 1000
           [] busy_minute H1 H2).
Defined.

Lemma limiter_keeps_recent_entries_witness :
  0 <= 60000
  /\ NoDup (map fst stale_store)
  /\ Forall (fun kv => 1 <= RateLimit.count (snd kv)) stale_store
  /\ live 60000 90000 (fst (RateLimit.limiter 60000 3 stale_store visitor 90000)).
Proof.
  assert (H1 : 0 <= 60000) by lia.
  assert (H2 : NoDup (map fst stale_store))
    by (repeat constructor; intros []).
  assert (H3 : Forall (fun kv => 1 <= RateLimit.count (snd kv)) stale_store)
    by (repeat constructor; cbn; lia).
  split; [exact H1|]. split; [exact H2|]. split; [exact H3|].
  exact (proj1 (limiter_keeps_recent_entries 60000 3 stale_store visitor 90000
                  H1 H2 H3)).
Defined.

Lemma limiter_admits_after_window_witness :
  1 <= 3 /\ 0 <= 60000
  /\ JS.own stale_store (RateLimit.key_of teller) =
     Some {| RateLimit.count := 250; RateLimit.timestamp := 1000 |}
  /\ NoDup (map fst stale_store)
  /\ 60000 < 90000 - 1000
  /\ snd (RateLimit.limiter 60000 3 stale_store teller 90000) =
     RateLimit.Next 3 2 150000.
Proof.
  assert (H1 : 1 <= 3) by lia.
  assert (H2 : 0 <= 60000) by lia.
  assert (H3 : JS.own stale_store (RateLimit.key_of teller) =
               Some {| RateLimit.count := 250; RateLimit.timestamp := 1000 |})
    by reflexivity.
  assert (H4 : NoDup (map fst stale_store))
    by (repeat constructor; intros []).
  assert (H5 : 60000 < 90000 - 1000) by lia.
  split; [exact H1|]. split; [exact H2|]. split; [exact H3|]. split; [exact H4|].
  split; [exact H5|].
  pose proof (limiter_admits_after_window 60000 3 stale_store teller 90000 _
                H1 H2 H3 H4 H5) as H.
  destruct (RateLimit.limiter 60000 3 stale_store teller 90000) as [r a].
  exact (proj1 H).
Defined.

(** ** Templates: the default of a type *)
Section TemplateFacts.
Import TemplateModel.
Local Open Scope string_scope.

Lemma defaults_of_app ty l1 l2 :
  defaults_of ty (l1 ++ l2) = (defaults_of ty l1 ++ defaults_of ty l2)%list.
Proof. apply filter_app. Qed.

Lemma defaults_of_cons ty row l :
  defaults_of ty (row :: l) =
  if (type row =? ty) && isDefault row then row :: defaults_of ty l
  else defaults_of ty l.
Proof. reflexivity. Qed.

(** The bulk update leaves the defaults of the other types alone. *)
Lemma clear_other_type template ty l :
  ty <> type template ->
  defaults_of ty (clear_other_defaults template l) = defaults_of ty l.
Proof.
  intros Hty. induction l as [|row l IH]; [reflexivity|].
  cbn [clear_other_defaults map]. fold (clear_other_defaults template l).
  rewrite !defaults_of_cons, IH. unfold other_default.
  destruct (String.eqb_spec (type row) (type template)) as [Hrow|Hrow];
    cbn [andb]; [|reflexivity].
  destruct (isDefault row) eqn:Hd; cbn [andb].
  - destruct (id_ne (id template) (id row)); cbn [type isDefault with_isDefault].
    + destruct (String.eqb_spec (type row) ty); [congruence | reflexivity].
    + now rewrite Hd.
  - now rewrite Hd.
Qed.

(** The bulk update leaves no default of the type among the rows it
    selects by their id. *)
Lemma clear_same_type template l :
  Forall (fun row => id_ne (id template) (id row) = true) l ->
  defaults_of (type template) (clear_other_defaults template l) = [].
Proof.
  induction 1 as [|row l Hrow Hl IH]; [reflexivity|].
  cbn [clear_other_defaults map]. fold (clear_other_defaults template l).
  rewrite defaults_of_cons, IH. unfold other_default. rewrite Hrow.
  destruct (String.eqb_spec (type row) (type template)) as [Heq|Hne];
    cbn [andb].
  - destruct (isDefault row) eqn:Hd; cbn [andb type isDefault with_isDefault].
    + now rewrite andb_false_r.
    + now rewrite Hd, andb_false_r.
  - destruct (String.eqb_spec (type row) (type template)); [contradiction|].
    reflexivity.
Qed.

(** X15: creating a template while no other request writes to the table.
    When nothing is written between the UPDATE of the hook and the INSERT,
    creating a template, default or not, on a table in which no type has two
    defaults leaves a table in which no type has two defaults; a new default
    is then the only default of its type. *)
Theorem create_keeps_one_default template next_id table :
  id template = None ->
  Forall (fun row => id row <> None) table ->
  one_default table ->
  one_default (create template next_id table)
  /\ (isDefault template = true ->
      List.length (defaults_of (type template) (create template next_id table))
      = 1%nat).
Proof.
  intros Hid Hids Hone.
  assert (Hsel : Forall (fun row => id_ne (id template) (id row) = true) table).
  { eapply Forall_impl; [|exact Hids]. intros row Hrow. rewrite Hid.
    cbn. destruct (id row) eqn:Hr; [reflexivity | congruence]. }
  split.
  - intros ty. unfold create, create_between, insert, beforeCreate.
    rewrite defaults_of_app.
    rewrite length_app, defaults_of_cons. cbn [type isDefault defaults_of List.filter].
    destruct (isDefault template) eqn:Hd.
    + destruct (String.eqb_spec (type template) ty) as [<-|Hne]; cbn [andb].
      * now rewrite clear_same_type.
      * rewrite clear_other_type by congruence. cbn. specialize (Hone ty). lia.
    + rewrite andb_false_r. cbn. specialize (Hone ty). lia.
  - intros Hd. unfold create, create_between, insert, beforeCreate.
    rewrite Hd, defaults_of_app.
    rewrite clear_same_type by exact Hsel.
    rewrite defaults_of_cons. cbn [type isDefault].
    now rewrite String.eqb_refl.
Qed.

Lemma map_clear_app template l1 l2 :
  clear_other_defaults template (l1 ++ l2) =
  (clear_other_defaults template l1 ++ clear_other_defaults template l2)%list.
Proof. apply map_app. Qed.

Lemma has_id_clear i template row :
  has_id i (if other_default template row then with_isDefault false row else row)
  = has_id i row.
Proof. now destruct (other_default template row). Qed.

(** Writing the row of id [i] leaves the rows of the other ids alone. *)
Lemma write_others i template l :
  Forall (fun row => has_id i row = false) l ->
  map (fun row => if has_id i row then template else row) l = l.
Proof.
  induction 1 as [|row l Hrow Hl IH]; [reflexivity|].
  cbn [map]. now rewrite Hrow, IH.
Qed.

Lemma keyed_split table previous i :
  keyed table -> In previous table -> id previous = Some i ->
  exists l1 l2,
    table = (l1 ++ previous :: l2)%list
    /\ Forall (fun row => has_id i row = false) l1
    /\ Forall (fun row => has_id i row = false) l2
    /\ Forall (fun row => id row <> None) l1
    /\ Forall (fun row => id row <> None) l2.
Proof.
  intros [Hids Hnodup] Hin Hi.
  destruct (in_split _ _ Hin) as (l1 & l2 & ->).
  exists l1, l2. split; [reflexivity|].
  rewrite map_app in Hnodup. cbn [map] in Hnodup.
  apply NoDup_remove_2 in Hnodup.
  apply Forall_app in Hids. destruct Hids as [H1 H2].
  apply Forall_cons_iff in H2. destruct H2 as [_ H2].
  assert (Hfar : forall row, In row (l1 ++ l2)%list -> has_id i row = false).
  { intros row Hrow. unfold has_id. destruct (id row) as [j|] eqn:Hj; [|reflexivity].
    destruct (Z.eqb_spec j i) as [->|]; [|reflexivity].
    exfalso. apply Hnodup. rewrite <- map_app, Hi, <- Hj. now apply in_map. }
  repeat split; try assumption; apply Forall_forall; intros row Hrow;
    apply Hfar, in_or_app; tauto.
Qed.

Lemma clear_keeps_others i template l :
  Forall (fun row => has_id i row = false) l ->
  Forall (fun row => has_id i row = false) (clear_other_defaults template l).
Proof.
  induction 1 as [|row l Hrow Hl IH]; [constructor|].
  cbn [clear_other_defaults map]. constructor; [|exact IH].
  now rewrite has_id_clear.
Qed.

Lemma id_ne_others i l :
  Forall (fun row => has_id i row = false) l ->
  Forall (fun row => id row <> None) l ->
  Forall (fun row => id_ne (Some i) (id row) = true) l.
Proof.
  intros H1 H2. rewrite Forall_forall in *. intros row Hin.
  specialize (H1 row Hin). specialize (H2 row Hin).
  unfold has_id in H1. unfold id_ne. destruct (id row); [|contradiction].
  now rewrite H1.
Qed.

(** The table after [save], around the row that is written. *)
Lemma save_split previous template i l1 l2 :
  id previous = Some i ->
  Forall (fun row => has_id i row = false) l1 ->
  Forall (fun row => has_id i row = false) l2 ->
  save previous template (l1 ++ previous :: l2) =
  if negb (Bool.eqb (isDefault previous) (isDefault template))
     && isDefault template
  then (clear_other_defaults template l1 ++ template
        :: clear_other_defaults template l2)%list
  else (l1 ++ template :: l2)%list.
Proof.
  intros Hi H1 H2. unfold save, save_between, write_row, beforeUpdate.
  rewrite Hi.
  assert (Hp : has_id i previous = true)
    by (unfold has_id; rewrite Hi; apply Z.eqb_refl).
  destruct (negb (Bool.eqb (isDefault previous) (isDefault template))
            && isDefault template).
  - rewrite map_clear_app, map_app. cbn [clear_other_defaults map].
    rewrite has_id_clear, Hp.
    now rewrite !write_others by now apply clear_keeps_others.
  - rewrite map_app. cbn [map]. rewrite Hp. now rewrite !write_others.
Qed.

(** X16: saving a template while no other request writes to the table.
    When nothing is written between the UPDATE of the hook and that of the
    row, on a table whose rows carry their own ids and in which no type has
    two defaults, saving a template leaves no type with two defaults,
    provided the save does not move a template that already was a default to
    another type. *)
Theorem save_keeps_one_default previous template table :
  keyed table -> In previous table ->
  id template = id previous ->
  type template = type previous \/ isDefault template = false
  \/ isDefault previous = false ->
  one_default table ->
  one_default (save previous template table).
Proof.
  intros Hkeyed Hin Hid Hcase Hone.
  destruct (id previous) as [i|] eqn:Hi;
    [|unfold save, save_between; now rewrite Hi].
  destruct (keyed_split table previous i Hkeyed Hin Hi)
    as (l1 & l2 & -> & Hl1 & Hl2 & Hk1 & Hk2).
  rewrite (save_split previous template i l1 l2 Hi Hl1 Hl2).
  intros ty. specialize (Hone ty).
  rewrite defaults_of_app, length_app, defaults_of_cons in Hone.
  destruct (isDefault template) eqn:Hdt.
  - destruct (isDefault previous) eqn:Hdp; cbn [Bool.eqb negb andb].
    + (* a default stays a default: its type must stay *)
      destruct Hcase as [Hty|[H|H]]; try discriminate.
      rewrite defaults_of_app, length_app, defaults_of_cons, Hty, Hdt.
      destruct ((type previous =? ty) && true); cbn [List.length] in *; lia.
    + (* a new default: the others of its type are cleared *)
      rewrite defaults_of_app, length_app, defaults_of_cons, Hdt.
      destruct (String.eqb_spec (type template) ty) as [<-|Hne]; cbn [andb].
      * rewrite !clear_same_type by (rewrite Hid; now apply id_ne_others).
        cbn. lia.
      * rewrite !clear_other_type by congruence.
        rewrite andb_false_r in Hone.
        destruct ((type previous =? ty) && false); cbn [List.length] in *; lia.
  - rewrite andb_false_r.
    rewrite defaults_of_app, length_app, defaults_of_cons, Hdt, andb_false_r.
    destruct ((type previous =? ty) && isDefault previous);
      cbn [List.length] in *; lia.
Qed.

Lemma two_members {A} (a b : A) l :
  In a l -> In b l -> a <> b -> (2 <= List.length l)%nat.
Proof.
  intros Ha Hb Hne. destruct l as [|x [|y l]]; cbn [In List.length] in *.
  - contradiction.
  - destruct Ha as [<-|[]], Hb as [<-|[]]. contradiction.
  - lia.
Qed.

(** X17: moving a default to another type.  The hook looks at [isDefault]
    only: saving a default template under the type of another default
    leaves that type with two defaults. *)
Theorem save_moves_default_to_taken_type previous other template table :
  keyed table -> In previous table -> In other table ->
  id other <> id previous ->
  isDefault previous = true -> isDefault other = true ->
  id template = id previous -> isDefault template = true ->
  type template = type other ->
  (2 <= List.length (defaults_of (type other)
                       (save previous template table)))%nat.
Proof.
  intros Hkeyed Hin Hother Hne Hdp Hdo Hid Hdt Hty.
  destruct (id previous) as [i|] eqn:Hi.
  2:{ destruct Hkeyed as [Hids _]. rewrite Forall_forall in Hids.
      now apply Hids in Hin. }
  destruct (keyed_split table previous i Hkeyed Hin Hi)
    as (l1 & l2 & -> & Hl1 & Hl2 & Hk1 & Hk2).
  rewrite (save_split previous template i l1 l2 Hi Hl1 Hl2).
  rewrite Hdp, Hdt. cbn [Bool.eqb negb andb].
  apply (two_members template other).
  - apply filter_In. split; [apply in_or_app; right; now left|].
    now rewrite Hty, String.eqb_refl, Hdt.
  - apply filter_In. split.
    + apply in_app_or in Hother. apply in_or_app.
      destruct Hother as [H|[H|H]]; [now left | | right; now right].
      subst other. congruence.
    + now rewrite String.eqb_refl, Hdo.
  - intros Heq. apply Hne. rewrite <- Heq. exact Hid.
Qed.

(** X31: two creations that overlap.  When two requests create a default
    template of one type and both hooks run before either INSERT, the table
    ends with two defaults of that type. *)
Theorem overlapping_creates_leave_two_defaults first second n1 n2 table :
  isDefault first = true -> isDefault second = true ->
  type second = type first ->
  (2 <= List.length
          (defaults_of (type first)
             (insert second n2
                (create_between (beforeCreate second) first n1 table))))%nat.
Proof.
  intros H1 H2 Hty. unfold create_between, insert.
  rewrite !defaults_of_app, !length_app, !defaults_of_cons.
  cbn [type isDefault].
  rewrite H1, H2, Hty, String.eqb_refl. cbn [andb List.length]. lia.
Qed.

(** X18: a parameter named like a member of [Object.prototype].  For a key
    that the parameters do not hold and that names a member of
    [Object.prototype], [getParameterValue] returns that member, not the
    default value. *)
Theorem getParameterValue_inherited t p key b defaultValue :
  parameters t = Some p ->
  JS.own p key = None ->
  JS.inherited key = Some b ->
  getParameterValue t key defaultValue = JS.VObj b.
Proof.
  intros Hp Hown Hb. unfold getParameterValue. rewrite Hp.
  unfold JS.get. rewrite Hown, Hb. reflexivity.
Qed.

End TemplateFacts.

(** ** Templates: validating data against the schema *)
Section ValidateFacts.
Import TemplateModel.
Context {E : JS.Engine}.

Lemma in_insert_by_index {A} (e x : N * A) l :
  In x (Pipeline.insert_by_index e l) <-> x = e \/ In x l.
Proof.
  induction l as [|y l IH]; cbn [Pipeline.insert_by_index In].
  - intuition congruence.
  - destruct (fst e <? fst y)%N; cbn [In]; [intuition congruence|].
    rewrite IH. intuition congruence.
Qed.

(** [Object.values] lists every value of the object. *)
Lemma in_object_values {A} (v : A) (o : list (string * A)) :
  In v (Pipeline.object_values o) <-> In v (map snd o).
Proof.
  unfold Pipeline.object_values. rewrite in_app_iff.
  induction o as [|kv o IH]; cbn [fold_right List.filter map In].
  - tauto.
  - destruct (Pipeline.array_index (fst kv)) as [n|]; cbn [map In].
    + rewrite in_map_iff.
      split.
      * intros [((m & y) & Hy & Hin)|H].
        -- apply in_insert_by_index in Hin. destruct Hin as [[= -> ->]|Hin].
           ++ left. exact Hy.
           ++ right. apply IH. left. apply in_map_iff. now exists (m, y).
        -- right. apply IH. now right.
      * intros [H|H].
        -- left. exists (n, snd kv). split; [exact H|].
           apply in_insert_by_index. now left.
        -- apply IH in H. destruct H as [H|H]; [|now right].
           left. apply in_map_iff in H. destruct H as (x & Hx & Hin).
           exists x. split; [exact Hx|]. apply in_insert_by_index. now right.
    + rewrite <- IH. tauto.
Qed.

Lemma in_object_entries {A} (kv : string * A) o :
  In kv (object_entries o) <-> In kv o.
Proof.
  unfold object_entries. rewrite in_object_values, map_map. cbn [snd].
  now rewrite map_id.
Qed.

Lemma validate_entry_cases data entry :
  if entry_ok data entry
  then validate_entry data entry = Orchestrator.Return tt
  else exists e, validate_entry data entry = Orchestrator.Throw e.
Proof.
  destruct entry as [key cfg]. unfold entry_ok, validate_entry. cbn [fst snd].
  destruct (JS.truthy (required cfg)), (JS.truthy (JS.get data key));
    cbn [negb andb orb];
    try (eexists; reflexivity);
    destruct (JS.truthy (ctype cfg)); cbn [negb andb orb];
    try reflexivity;
    destruct (JS.strict_equal _ (ctype cfg)); cbn [negb];
    try reflexivity; eexists; reflexivity.
Qed.

Lemma validate_entries_cases data entries :
  if forallb (entry_ok data) entries
  then validate_entries data entries = Orchestrator.Return true
  else exists e, validate_entries data entries = Orchestrator.Throw e.
Proof.
  induction entries as [|entry entries IH]; cbn [forallb validate_entries];
    [reflexivity|].
  pose proof (validate_entry_cases data entry) as Hentry.
  destruct (entry_ok data entry); cbn [andb].
  - rewrite Hentry. exact IH.
  - destruct Hentry as (e & ->). now exists e.
Qed.


(** X20: a required field that holds a falsy value.  The schema test is
    [!data[key]]: when a required field holds 0, the empty string, false,
    null or NaN, [validateData] throws as if the field were missing. *)
Theorem validateData_required_falsy t s data key cfg :
  schema t = Some s ->
  In (key, cfg) s ->
  JS.truthy (required cfg) = true ->
  JS.truthy (JS.get data key) = false ->
  exists e, validateData t data = Orchestrator.Throw e.
Proof.
  intros Hs Hin Hreq Hfalsy. unfold validateData. rewrite Hs.
  pose proof (validate_entries_cases data (object_entries s)) as Hcases.
  destruct (forallb (entry_ok data) (object_entries s)) eqn:Hall; [|exact Hcases].
  exfalso. rewrite forallb_forall in Hall.
  specialize (Hall (key, cfg) (proj2 (in_object_entries _ _) Hin)).
  unfold entry_ok in Hall. cbn [fst snd] in Hall.
  now rewrite Hreq, Hfalsy in Hall.
Qed.

End ValidateFacts.

Lemma templates_one_default : one_default templates.
Proof.
  intros ty. unfold templates, defaults_of.
  cbn [List.filter TemplateModel.type TemplateModel.isDefault template_row andb].
  rewrite !andb_false_r, !andb_true_r.
  destruct (String.eqb_spec "monthly" ty) as [<-|]; [cbn; lia|].
  destruct ("quarterly" =? ty)%string; cbn; lia.
Qed.

Lemma templates_keyed : keyed templates.
Proof.
  split; [repeat constructor; discriminate|].
  repeat constructor; cbn; intuition discriminate.
Qed.

Lemma overlapping_creates_leave_two_defaults_witness :
  (2 <= List.length
          (defaults_of "annual"
             (TemplateModel.insert (new_template "annual" true) 5
                (TemplateModel.create_between
                   (TemplateModel.beforeCreate (new_template "annual" true))
                   (new_template "annual" true) 4 templates))))%nat.
Proof.
  exact (overlapping_creates_leave_two_defaults (new_template "annual" true)
           (new_template "annual" true) 4 5 templates eq_refl eq_refl
           eq_refl).
Defined.

Lemma create_keeps_one_default_witness :
  TemplateModel.id (new_template "quarterly" true) = None
  /\ Forall (fun row => TemplateModel.id row <> None) templates
  /\ one_default templates
  /\ one_default
       (TemplateModel.create (new_template "quarterly" true) 4 templates).
Proof.
  assert (H1 : TemplateModel.id (new_template "quarterly" true) = None)
    by reflexivity.
  assert (H2 : Forall (fun row => TemplateModel.id row <> None) templates)
    by exact (proj1 templates_keyed).
  assert (H3 : one_default templates) by exact templates_one_default.
  split; [exact H1|]. split; [exact H2|]. split; [exact H3|].
  exact (proj1 (create_keeps_one_default (new_template "quarterly" true) 4
                  templates H1 H2 H3)).
Defined.

Lemma save_keeps_one_default_witness :
  keyed templates
  /\ In (template_row 3 "monthly" false) templates
  /\ TemplateModel.id (template_row 3 "monthly" true) =
     TemplateModel.id (template_row 3 "monthly" false)
  /\ TemplateModel.type (template_row 3 "monthly" true) =
     TemplateModel.type (template_row 3 "monthly" false)
  /\ one_default templates
  /\ one_default
       (TemplateModel.save (template_row 3 "monthly" false)
          (template_row 3 "monthly" true) templates).
Proof.
  assert (H1 : keyed templates) by exact templates_keyed.
  assert (H2 : In (template_row 3 "monthly" false) templates)
    by (right; right; left; reflexivity).
  assert (H3 : TemplateModel.id (template_row 3 "monthly" true) =
               TemplateModel.id (template_row 3 "monthly" false))
    by reflexivity.
  assert (H4 : TemplateModel.type (template_row 3 "monthly" true) =
               TemplateModel.type (template_row 3 "monthly" false))
    by reflexivity.
  assert (H5 : one_default templates) by exact templates_one_default.
  split; [exact H1|]. split; [exact H2|]. split; [exact H3|]. split; [exact H4|].
  split; [exact H5|].
  exact (save_keeps_one_default _ _ templates H1 H2 H3 (or_introl H4) H5).
Defined.

Lemma save_moves_default_to_taken_type_witness :
  keyed templates
  /\ In (template_row 2 "quarterly" true) templates
  /\ In (template_row 1 "monthly" true) templates
  /\ TemplateModel.id (template_row 1 "monthly" true) <>
     TemplateModel.id (template_row 2 "quarterly" true)
  /\ one_default templates
  /\ (2 <= List.length
             (defaults_of "monthly"
                (TemplateModel.save (template_row 2 "quarterly" true)
                   (template_row 2 "monthly" true) templates)))%nat.
Proof.
  assert (H1 : keyed templates) by exact templates_keyed.
  assert (H2 : In (template_row 2 "quarterly" true) templates)
    by (right; left; reflexivity).
  assert (H3 : In (template_row 1 "monthly" true) templates)
    by (left; reflexivity).
  assert (H4 : TemplateModel.id (template_row 1 "monthly" true) <>
               TemplateModel.id (template_row 2 "quarterly" true))
    by discriminate.
  split; [exact H1|]. split; [exact H2|]. split; [exact H3|]. split; [exact H4|].
  split; [exact templates_one_default|].
  exact (save_moves_default_to_taken_type (template_row 2 "quarterly" true)
           (template_row 1 "monthly" true) (template_row 2 "monthly" true)
           templates H1 H2 H3 H4 eq_refl eq_refl eq_refl eq_refl eq_refl).
Defined.

Lemma getParameterValue_inherited_witness :
  TemplateModel.parameters (template_row 1 "monthly" true) =
    Some [("currency", JS.VStr "KES")]%string
  /\ JS.own [("currency", JS.VStr "KES")]%string "toString" = None
  /\ JS.inherited "toString" = Some (JS.ProtoMethod "toString")
  /\ TemplateModel.getParameterValue (template_row 1 "monthly" true)
       "toString" (JS.VStr "n/a") = JS.VObj (JS.ProtoMethod "toString").
Proof.
  assert (H1 : TemplateModel.parameters (template_row 1 "monthly" true) =
               Some [("currency", JS.VStr "KES")]%string) by reflexivity.
  assert (H2 : JS.own [("currency", JS.VStr "KES")]%string "toString" = None)
    by reflexivity.
  assert (H3 : JS.inherited "toString" = Some (JS.ProtoMethod "toString"))
    by reflexivity.
  split; [exact H1|]. split; [exact H2|]. split; [exact H3|].
  exact (getParameterValue_inherited _ _ "toString" _ (JS.VStr "n/a") H1 H2 H3).
Defined.

Lemma validateData_required_falsy_witness :
  TemplateModel.schema members_schema =
    Some [("members",
           {| TemplateModel.required := JS.VBool true;
              TemplateModel.ctype := JS.VStr "number" |})]%string
  /\ JS.truthy (JS.VBool true) = true
  /\ JS.truthy (JS.get [("members", JS.VNum Num.zero)]%string "members") = false
  /\ exists e,
       TemplateModel.validateData (E := SampleEngine.engine) members_schema
         [("members", JS.VNum Num.zero)]%string = Orchestrator.Throw e.
Proof.
  assert (H1 : TemplateModel.schema members_schema =
               Some [("members",
                      {| TemplateModel.required := JS.VBool true;
                         TemplateModel.ctype := JS.VStr "number" |})]%string)
    by reflexivity.
  assert (H2 : JS.truthy (JS.VBool true) = true) by reflexivity.
  assert (H3 : JS.truthy (JS.get [("members", JS.VNum Num.zero)]%string
                            "members") = false) by reflexivity.
  split; [exact H1|]. split; [exact H2|]. split; [exact H3|].
  exact (validateData_required_falsy (E := SampleEngine.engine) members_schema
           _ [("members", JS.VNum Num.zero)]%string "members" _ H1
           (or_introl eq_refl) H2 H3).
Defined.

(** ** The other due dates, and what a report allows *)
Section DueDates.
Import ReportModel.

(** A day of a month of the year needs no carrying. *)
Lemma new_Date_in_month y m d :
  100 <= y -> y * 12 + m <= 275760 * 12 + 7 -> 0 <= m <= 12 ->
  1 <= d <= days_in_month (y + m / 12) (m mod 12) ->
  new_Date y m d =
  Some {| year := y + m / 12; month := m mod 12; day := d |}.
Proof.
  intros Hy Hmax Hm Hd. unfold new_Date.
  replace ((0 <=? y) && (y <=? 99))%bool with false
    by (symmetry; apply andb_false_iff; right; apply Z.leb_gt; lia).
  pose proof (days_in_month_bounds (y + m / 12) (m mod 12)) as Hb.
  rewrite roll_in_month by lia.
  unfold representable. cbn [year month day].
  assert (Hdiv : m / 12 = 0 /\ m mod 12 = m \/
                 m = 12 /\ m / 12 = 1 /\ m mod 12 = 0).
  { destruct (Z.eq_dec m 12) as [->|]; [right; repeat split; reflexivity|].
    left. split; [apply Z.div_small | apply Z.mod_small]; lia. }
  assert (Hday : 1 <= d <= 31) by lia.
  clear Hd Hb. revert Hdiv. generalize (m / 12), (m mod 12). intros q r Hdiv.
  replace (_ && _)%bool with true; [reflexivity|].
  symmetry. apply andb_true_iff.
  split; apply Z.leb_le; destruct Hdiv as [[-> ->]|[-> [-> ->]]]; lia.
Qed.

Lemma quarter_month m :
  0 <= m <= 11 ->
  (m / 3 + 1) * 3 = 3 \/ (m / 3 + 1) * 3 = 6 \/ (m / 3 + 1) * 3 = 9
  \/ (m / 3 + 1) * 3 = 12.
Proof.
  intros Hm.
  assert (H : m / 3 = 0 \/ m / 3 = 1 \/ m / 3 = 2 \/ m / 3 = 3).
  { pose proof (Z.div_le_mono m 11 3 ltac:(lia) ltac:(lia)) as Hle.
    pose proof (Z.div_pos m 3 ltac:(lia) ltac:(lia)) as Hpos.
    change (11 / 3) with 3 in Hle. lia. }
  lia.
Qed.

Lemma quarterly_due now :
  100 <= year now <= 275759 -> 0 <= month now <= 11 ->
  new_Date (year now) ((month now / 3 + 1) * 3) 30 =
  Some {| year := fst (following_quarter now);
          month := snd (following_quarter now);
          day := 30 |}.
Proof.
  intros Hy Hm. unfold following_quarter.
  pose proof (quarter_month (month now) Hm) as Hq.
  assert (Hlo : month now < (month now / 3 + 1) * 3).
  { pose proof (Z.mul_succ_div_gt (month now) 3 ltac:(lia)). lia. }
  assert (Hhi : (month now / 3 + 1) * 3 <= month now + 3).
  { pose proof (Z.mul_div_le (month now) 3 ltac:(lia)). lia. }
  destruct (Z.leb_spec 9 (month now)) as [H9|H9]; cbn [fst snd].
  - assert (Hq12 : (month now / 3 + 1) * 3 = 12) by lia.
    rewrite Hq12. rewrite new_Date_in_month; [reflexivity | lia | lia | lia |].
    vm_compute; split; discriminate.
  - rewrite new_Date_in_month; try lia.
    + rewrite Z.div_small, Z.mod_small by lia. f_equal. f_equal. lia.
    + rewrite Z.div_small, Z.mod_small by lia.
      destruct Hq as [->|[->|[->|Hq]]]; [| | |lia];
        unfold days_in_month; cbn; lia.
Qed.

Lemma annual_due now :
  100 <= year now <= 275759 ->
  new_Date (year now + 1) 2 31 =
  Some {| year := year now + 1; month := 2; day := 31 |}.
Proof.
  intros Hy. rewrite new_Date_in_month; try lia.
  - cbn. f_equal. f_equal. lia.
  - cbn. unfold days_in_month. cbn. lia.
Qed.

(** X21: the due dates of quarterly and annual reports.  Created without a
    due date (for a clock between the years 100 and 275759), a report of
    type [quarterly] is due on the 30th of the first month of the following
    quarter: April, July, October, or January of the next year; a report of
    type [annual] is due on 31 March of the year after the year of
    creation. *)
Theorem beforeCreate_periodic_due_date now report :
  dueDate report = None ->
  100 <= year now <= 275759 ->
  0 <= month now <= 11 ->
  (type report = "quarterly"%string ->
   dueDate (beforeCreate now report) =
   Some {| year := fst (following_quarter now);
           month := snd (following_quarter now);
           day := 30 |}
   /\ In (snd (following_quarter now)) [3; 6; 9; 0])
  /\ (type report = "annual"%string ->
      dueDate (beforeCreate now report) =
      Some {| year := year now + 1; month := 2; day := 31 |}).
Proof.
  intros Hdue Hy Hm. unfold beforeCreate. rewrite Hdue.
  split; intros Htype; rewrite Htype;
    cbn [String.eqb Ascii.eqb Bool.eqb dueDate].
  - split; [now apply quarterly_due|].
    unfold following_quarter.
    pose proof (quarter_month (month now) Hm) as Hq.
    assert (Hhi : (month now / 3 + 1) * 3 <= month now + 3).
    { pose proof (Z.mul_div_le (month now) 3 ltac:(lia)). lia. }
    destruct (Z.leb_spec 9 (month now)); cbn [snd In]; lia.
  - now apply annual_due.
Qed.

(** X22: a computed due date lies ahead.  For the three periodic types, the
    due date that the hook computes is a day after the day of creation. *)
Theorem beforeCreate_due_date_ahead now report :
  In (type report) periodic_types ->
  dueDate report = None ->
  100 <= year now <= 275759 ->
  0 <= month now <= 11 ->
  1 <= day now <= 31 ->
  exists due,
    dueDate (beforeCreate now report) = Some due /\ later now due.
Proof.
  intros Htype Hdue Hy Hm Hd. unfold beforeCreate. rewrite Hdue.
  unfold periodic_types in Htype. cbn [In] in Htype.
  destruct Htype as [Ht|[Ht|[Ht|[]]]]; rewrite <- Ht;
    cbn [String.eqb Ascii.eqb Bool.eqb dueDate].
  - rewrite new_Date_fifteenth by lia. eexists. split; [reflexivity|].
    unfold later. cbn [year month day].
    destruct (Z.eq_dec (month now) 11) as [->|Hne]; [cbn; lia|].
    rewrite Z.div_small, Z.mod_small by lia. lia.
  - rewrite quarterly_due by lia. eexists. split; [reflexivity|].
    unfold later, following_quarter. cbn [year month day].
    assert (Hlo : month now < (month now / 3 + 1) * 3).
    { pose proof (Z.mul_succ_div_gt (month now) 3 ltac:(lia)). lia. }
    destruct (Z.leb_spec 9 (month now)); cbn [fst snd]; lia.
  - rewrite annual_due by lia. eexists. split; [reflexivity|].
    unfold later. cbn [year month day]. lia.
Qed.

End DueDates.

Section InstanceFacts.
Import ReportInstance.
Local Open Scope string_scope.

(** What a report allows.  A report cannot at once be edited and
    approved, edited and submitted, or approved and submitted; a report
    whose status is neither [pending], [failed] nor [completed] (one that is
    being generated) allows none of the three; and a report that is overdue
    is not completed, so it can be neither approved nor submitted. *)
Lemma report_actions_exclusive r now :
  canBeEdited r && canBeApproved r = false
  /\ canBeEdited r && canBeSubmitted r = false
  /\ canBeApproved r && canBeSubmitted r = false
  /\ (canBeEdited r || canBeApproved r || canBeSubmitted r = true ->
      In (status r) ["pending"; "failed"; "completed"])
  /\ (isOverdue now r = true ->
      canBeApproved r = false /\ canBeSubmitted r = false).
Proof.
  unfold canBeEdited, canBeApproved, canBeSubmitted, isOverdue.
  cbn [existsb In].
  destruct (String.eqb_spec (status r) "pending") as [Hp|Hp];
    destruct (String.eqb_spec (status r) "failed") as [Hf|Hf];
    destruct (String.eqb_spec (status r) "completed") as [Hc|Hc];
    try congruence;
    destruct (truthy_id (approvedBy r)), (truthy_date (submittedAt r)),
      (dueDate r) as [due|]; cbn [andb orb negb];
    rewrite ?andb_false_r, ?andb_true_r;
    repeat split; try reflexivity; try discriminate; auto.
Qed.

End InstanceFacts.

Lemma beforeCreate_periodic_due_date_witness :
  ReportModel.dueDate (ReportModel.beforeCreate august_20 quarterly_report) =
    Some {| ReportModel.year := 2024; ReportModel.month := 9;
            ReportModel.day := 30 |}
  /\ ReportModel.dueDate (ReportModel.beforeCreate december_31 annual_report) =
     Some {| ReportModel.year := 2025; ReportModel.month := 2;
             ReportModel.day := 31 |}.
Proof.
  split.
  - refine (proj1 (proj1 (beforeCreate_periodic_due_date august_20
                            quarterly_report eq_refl _ _) eq_refl));
      cbn; lia.
  - refine (proj2 (beforeCreate_periodic_due_date december_31 annual_report
                     eq_refl _ _) eq_refl);
      cbn; lia.
Defined.

Lemma beforeCreate_due_date_ahead_witness :
  In (ReportModel.type monthly_report) periodic_types
  /\ ReportModel.dueDate monthly_report = None
  /\ 100 <= ReportModel.year december_31 <= 275759
  /\ 0 <= ReportModel.month december_31 <= 11
  /\ 1 <= ReportModel.day december_31 <= 31
  /\ exists due,
       ReportModel.dueDate (ReportModel.beforeCreate december_31 monthly_report)
       = Some due /\ later december_31 due.
Proof.
  assert (H1 : In (ReportModel.type monthly_report) periodic_types)
    by (left; reflexivity).
  assert (H2 : ReportModel.dueDate monthly_report = None) by reflexivity.
  assert (H3 : 100 <= ReportModel.year december_31 <= 275759) by (cbn; lia).
  assert (H4 : 0 <= ReportModel.month december_31 <= 11) by (cbn; lia).
  assert (H5 : 1 <= ReportModel.day december_31 <= 31) by (cbn; lia).
  split; [exact H1|]. split; [exact H2|]. split; [exact H3|]. split; [exact H4|].
  split; [exact H5|].
  exact (beforeCreate_due_date_ahead december_31 monthly_report H1 H2 H3 H4 H5).
Defined.

(** ** Users: roles, and what the serialisation keeps *)
Section UserFacts.
Import UserModel UserMethods.
Local Open Scope string_scope.

(** Every admin is a manager; [isManager] is
    [hasAnyRole(['manager', 'admin'])] and [isAdmin] is [hasRole('admin')];
    among the roles of the model, the managers are the users whose role is
    not [user]. *)
Lemma roles_hierarchy u :
  (isAdmin u = true -> isManager u = true)
  /\ isManager u = hasAnyRole u ["manager"; "admin"]
  /\ isAdmin u = hasRole u "admin"
  /\ (In (role u) role_enum -> isManager u = negb (hasRole u "user")).
Proof.
  unfold isAdmin, isManager, hasAnyRole, hasRole, role_enum. cbn [existsb In].
  split; [intros ->; apply orb_true_r|].
  split; [now rewrite orb_false_r|]. split; [reflexivity|].
  intros [<-|[<-|[<-|[]]]]; reflexivity.
Qed.

Lemma own_delete_other o k k' :
  k <> k' -> JS.own (delete o k') k = JS.own o k.
Proof.
  intros Hne. unfold delete.
  induction o as [|[a v] o IH]; cbn [List.filter JS.own fst]; [reflexivity|].
  destruct (String.eqb_spec a k') as [->|Ha]; cbn [negb JS.own].
  - destruct (String.eqb_spec k' k); [congruence | exact IH].
  - now rewrite IH.
Qed.

(** X23: what the serialisation keeps.  Apart from the three credentials,
    [toJSON] holds every attribute of the instance with its value. *)
Theorem toJSON_keeps_other_attributes u k :
  ~ In k credentials ->
  JS.own (toJSON u) k = JS.own (get u) k.
Proof.
  intros Hk. unfold credentials in Hk. cbn [In] in Hk.
  unfold toJSON. rewrite assign_empty by (apply distinct_NoDup; reflexivity).
  rewrite !own_delete_other; [reflexivity | | |]; intros ->; tauto.
Qed.

End UserFacts.

Lemma toJSON_keeps_other_attributes_witness :
  ~ In "email"%string credentials
  /\ JS.own (UserModel.toJSON (sample_user "s3cret" None None)) "email" =
     Some (UserModel.AStr "amina@sacco.example").
Proof.
  assert (H : ~ In "email"%string credentials)
    by (cbn; intros [H|[H|[H|[]]]]; discriminate H).
  split; [exact H|].
  exact (toJSON_keeps_other_attributes (sample_user "s3cret" None None)
           "email" H).
Defined.

(** ** Integers as Numbers: subtraction, multiplication and comparison *)

(** Subtracting integers in Numbers is exact below 2^53. *)
Lemma sub_exact x y :
  0 <= y <= x -> x < 2 ^ Num.prec ->
  Num.sub (Num.of_Z x) (Num.of_Z y) = Num.of_Z (x - y).
Proof.
  intros Hy Hlt.
  destruct (Z.eq_dec y 0) as [->|Hy0].
  { rewrite Z.sub_0_r. destruct (Z.eq_dec x 0) as [->|Hx0]; [reflexivity|].
    destruct (of_Z_canonical x ltac:(lia)) as (mx & a & -> & _). reflexivity. }
  destruct (of_Z_canonical x ltac:(lia)) as (mx & a & Hx & Ha & Hmx & _).
  destruct (of_Z_canonical y ltac:(lia)) as (my & b & Hyy & Hb & Hmy & _).
  rewrite Hx, Hyy.
  unfold Num.sub, SFsub. cbn [cond_Zopp].
  set (ez := Z.min (- a) (- b)).
  rewrite !shl_align_fst by (unfold ez; lia).
  set (E := - ez). assert (HE : 0 <= E) by (unfold E, ez; lia).
  replace (- a - ez) with (E - a) by (unfold E; lia).
  replace (- b - ez) with (E - b) by (unfold E; lia).
  assert (Hdiff : Z.pos mx * 2 ^ (E - a) - Z.pos my * 2 ^ (E - b)
                  = (x - y) * 2 ^ E).
  { rewrite Hmx, Hmy.
    assert (E1 : 2 ^ E = 2 ^ a * 2 ^ (E - a))
      by (rewrite <- pow2_split by (unfold E, ez; lia); f_equal; lia).
    assert (E2 : 2 ^ E = 2 ^ b * 2 ^ (E - b))
      by (rewrite <- pow2_split by (unfold E, ez; lia); f_equal; lia).
    rewrite <- !Z.mul_assoc, <- E1, <- E2. ring. }
  rewrite Hdiff.
  assert (HpE : 0 < 2 ^ E) by (apply pow2_pos; lia).
  destruct (Z.eq_dec x y) as [->|Hne].
  { rewrite Z.sub_diag. reflexivity. }
  destruct (of_Z_canonical (x - y) ltac:(lia)) as (M & c & -> & Hc & HM & Hdig).
  destruct ((x - y) * 2 ^ E) as [|ps|ps] eqn:Hps; try nia.
  cbn [binary_normalize]. replace ez with (- E) by (unfold E; lia).
  apply binary_round_value; [lia | lia | exact Hdig |].
  rewrite <- Hps, HM. ring.
Qed.

(** Multiplying integers in Numbers is exact below 2^53. *)
Lemma mul_exact x y :
  0 <= x < 2 ^ Num.prec -> 0 <= y < 2 ^ Num.prec -> x * y < 2 ^ Num.prec ->
  Num.mul (Num.of_Z x) (Num.of_Z y) = Num.of_Z (x * y).
Proof.
  intros Hx Hy Hlt.
  destruct (Z.eq_dec x 0) as [->|Hx0].
  { cbn [Z.mul]. destruct (Z.eq_dec y 0) as [->|Hy0]; [reflexivity|].
    destruct (of_Z_canonical y ltac:(lia)) as (my & b & -> & _). reflexivity. }
  destruct (Z.eq_dec y 0) as [->|Hy0].
  { rewrite Z.mul_0_r.
    destruct (of_Z_canonical x ltac:(lia)) as (mx & a & -> & _). reflexivity. }
  destruct (of_Z_canonical x ltac:(nia)) as (mx & a & -> & Ha & Hmx & Hdx).
  destruct (of_Z_canonical y ltac:(nia)) as (my & b & -> & Hb & Hmy & Hdy).
  destruct (of_Z_canonical (x * y) ltac:(nia)) as (M & c & -> & Hc & HM & Hdig).
  unfold Num.mul, SFmul. cbn [xorb].
  pose proof (digits2_bounds mx) as [Hxlo Hxhi]. rewrite Hdx in Hxlo, Hxhi.
  pose proof (digits2_bounds my) as [Hylo Hyhi]. rewrite Hdy in Hylo, Hyhi.
  pose proof (digits2_bounds M) as [HMlo HMhi]. rewrite Hdig in HMlo, HMhi.
  assert (Hpa : 0 < 2 ^ a) by (apply pow2_pos; lia).
  assert (Hpb : 0 < 2 ^ b) by (apply pow2_pos; lia).
  assert (Hpc : 0 < 2 ^ c) by (apply pow2_pos; lia).
  assert (Hn : c <= a + b).
  { destruct (Z.le_gt_cases c (a + b)) as [H|H]; [exact H | exfalso].
    assert (Hsplit : 2 ^ c = 2 ^ (a + b) * 2 ^ (c - (a + b)))
      by (rewrite <- pow2_split by lia; f_equal; lia).
    assert (Hab : 2 ^ (a + b) = 2 ^ a * 2 ^ b) by (apply pow2_split; lia).
    assert (Hbig : 2 ^ (Num.prec - 1) * 2 ^ (Num.prec - 1) <= Z.pos M).
    { rewrite HM, Hsplit, Hab.
      assert (1 <= 2 ^ (c - (a + b))) by (pose proof (pow2_pos (c - (a + b))); lia).
      replace (x * y * (2 ^ a * 2 ^ b * 2 ^ (c - (a + b))))
        with ((Z.pos mx * Z.pos my) * 2 ^ (c - (a + b)))
        by (rewrite Hmx, Hmy; ring).
      assert (Hprod : 2 ^ (Num.prec - 1) * 2 ^ (Num.prec - 1)
                      <= Z.pos mx * Z.pos my).
      { apply Z.mul_le_mono_nonneg; try assumption;
          apply Z.lt_le_incl, pow2_pos; unfold Num.prec; lia. }
      assert (Hpos : 0 <= 2 ^ (Num.prec - 1) * 2 ^ (Num.prec - 1))
        by (unfold Num.prec; lia).
      revert Hpos Hprod H0.
      generalize (Z.pos mx * Z.pos my), (2 ^ (c - (a + b))).
      generalize (2 ^ (Num.prec - 1) * 2 ^ (Num.prec - 1)).
      clear. intros T P K HT0 HT HK. nia. }
    unfold Num.prec in *. change (2 ^ (53 - 1) * 2 ^ (53 - 1)) with (2 ^ 104) in Hbig.
    change (2 ^ 53) with 9007199254740992 in HMhi.
    change (2 ^ 104) with 20282409603651670423947251286016 in Hbig. lia. }
  replace (- a + - b) with (- c - (a + b - c)) by lia.
  apply binary_round_aux_shifted;
    [lia | exact Hdig | unfold Num.prec, Num.emax; lia |].
  rewrite Pos2Z.inj_mul, Hmx, Hmy, HM.
  assert (Hsplit : 2 ^ a * 2 ^ b = 2 ^ c * 2 ^ (a + b - c)).
  { rewrite <- !pow2_split by lia. f_equal. lia. }
  replace (x * 2 ^ a * (y * 2 ^ b)) with (x * y * (2 ^ a * 2 ^ b)) by ring.
  rewrite Hsplit. ring.
Qed.

(** Comparing integers as Numbers is comparing them. *)
Lemma compare_of_Z x y :
  0 <= x < 2 ^ Num.prec -> 0 <= y < 2 ^ Num.prec ->
  SFcompare (Num.of_Z x) (Num.of_Z y) = Some (x ?= y).
Proof.
  intros Hx Hy.
  destruct (Z.eq_dec x 0) as [->|Hx0].
  { destruct (Z.eq_dec y 0) as [->|Hy0]; [reflexivity|].
    destruct (of_Z_canonical y ltac:(lia)) as (my & b & -> & _).
    change (Num.of_Z 0) with (S754_zero false). cbn [SFcompare].
    f_equal. symmetry. apply Z.compare_lt_iff. lia. }
  destruct (Z.eq_dec y 0) as [->|Hy0].
  { destruct (of_Z_canonical x ltac:(lia)) as (mx & a & -> & _).
    change (Num.of_Z 0) with (S754_zero false). cbn [SFcompare].
    f_equal. symmetry. apply Z.compare_gt_iff. lia. }
  destruct (of_Z_canonical x ltac:(lia)) as (mx & a & -> & Ha & Hmx & Hdx).
  destruct (of_Z_canonical y ltac:(lia)) as (my & b & -> & Hb & Hmy & Hdy).
  pose proof (digits2_bounds mx) as [Hxlo Hxhi]. rewrite Hdx in Hxlo, Hxhi.
  pose proof (digits2_bounds my) as [Hylo Hyhi]. rewrite Hdy in Hylo, Hyhi.
  assert (Hpa : 0 < 2 ^ a) by (apply pow2_pos; lia).
  assert (Hpb : 0 < 2 ^ b) by (apply pow2_pos; lia).
  assert (Hhalf : 2 ^ Num.prec = 2 * 2 ^ (Num.prec - 1)) by reflexivity.
  cbn [SFcompare]. f_equal.
  destruct (Z.compare_spec (- a) (- b)) as [Heq|Hlt|Hgt].
  - assert (a = b) by lia. subst b.
    change (Pos.compare_cont Eq mx my) with (Z.pos mx ?= Z.pos my).
    rewrite Hmx, Hmy.
    destruct (Z.compare_spec x y) as [->|H|H].
    + apply Z.compare_refl.
    + apply Z.compare_lt_iff. nia.
    + apply Z.compare_gt_iff. nia.
  - (* the exponent of [x] is lower: [x] is smaller *)
    symmetry. apply Z.compare_lt_iff.
    assert (Hsplit : 2 ^ a = 2 ^ b * 2 ^ (a - b))
      by (rewrite <- pow2_split by lia; f_equal; lia).
    assert (H2 : 2 <= 2 ^ (a - b)).
    { change 2 with (2 ^ 1) at 1. apply Z.pow_le_mono_r; lia. }
    rewrite Hsplit in Hmx.
    destruct (Z.lt_ge_cases x y) as [H|H]; [exact H | exfalso].
    assert (Z.pos my * 2 ^ (a - b) <= Z.pos mx) by (rewrite Hmx, Hmy; nia).
    nia.
  - symmetry. apply Z.compare_gt_iff.
    assert (Hsplit : 2 ^ b = 2 ^ a * 2 ^ (b - a))
      by (rewrite <- pow2_split by lia; f_equal; lia).
    assert (H2 : 2 <= 2 ^ (b - a)).
    { change 2 with (2 ^ 1) at 1. apply Z.pow_le_mono_r; lia. }
    rewrite Hsplit in Hmy.
    destruct (Z.lt_ge_cases y x) as [H|H]; [exact H | exfalso].
    assert (Z.pos mx * 2 ^ (b - a) <= Z.pos my) by (rewrite Hmx, Hmy; nia).
    nia.
Qed.

Lemma ltb_of_Z x y :
  0 <= x < 2 ^ Num.prec -> 0 <= y < 2 ^ Num.prec ->
  Num.ltb (Num.of_Z x) (Num.of_Z y) = (x <? y).
Proof.
  intros Hx Hy. unfold Num.ltb, SFltb. rewrite compare_of_Z by assumption.
  reflexivity.
Qed.

Lemma eqb_of_Z x y :
  0 <= x < 2 ^ Num.prec -> 0 <= y < 2 ^ Num.prec ->
  Num.eqb (Num.of_Z x) (Num.of_Z y) = (x =? y).
Proof.
  intros Hx Hy. unfold Num.eqb, SFeqb. rewrite compare_of_Z by assumption.
  destruct (Z.compare_spec x y), (Z.eqb_spec x y); try lia; reflexivity.
Qed.

Lemma to_integer_of_Z z :
  0 <= z < 2 ^ Num.prec -> JSMath.to_integer (Num.of_Z z) = JSMath.Int z.
Proof.
  intros Hz. destruct (Z.eq_dec z 0) as [->|Hz0]; [reflexivity|].
  destruct (of_Z_canonical z ltac:(lia)) as (m & a & -> & Ha & Hm & _).
  unfold JSMath.to_integer. f_equal.
  assert (Hpa : 0 < 2 ^ a) by (apply pow2_pos; lia).
  destruct (Z.leb_spec 0 (- a)).
  - assert (a = 0) by lia. subst a. cbn in *. lia.
  - rewrite Z.opp_involutive, Hm. rewrite Z.quot_mul; lia.
Qed.

(** ** The reports kept in memory *)
Section Pages.
Import MockReports.

Lemma firstn_add {A : Type} (n m : nat) (l : list A) :
  firstn (n + m) l = (firstn n l ++ firstn m (skipn n l))%list.
Proof.
  revert l. induction n as [|n IH]; intros [|x l]; cbn [Nat.add firstn skipn];
    rewrite ?firstn_nil; try reflexivity.
  cbn [app]. now rewrite IH.
Qed.

Lemma slice_page {A : Type} (l : list A) (s e : Z) :
  0 <= s <= e -> e < 2 ^ Num.prec ->
  JSMath.slice l (Num.of_Z s) (Num.of_Z e) =
  firstn (Z.to_nat (e - s)) (skipn (Z.to_nat s) l).
Proof.
  intros Hs He. unfold JSMath.slice.
  rewrite !to_integer_of_Z by lia. unfold JSMath.relative.
  destruct (Z.ltb_spec s 0), (Z.ltb_spec e 0); try lia.
  set (len := Z.of_nat (List.length l)).
  destruct (Z.le_gt_cases len s) as [Hout|Hin].
  - rewrite !skipn_all2 by (subst len; lia). now rewrite !firstn_nil.
  - rewrite (Z.min_l s) by lia.
    destruct (Z.le_gt_cases e len) as [Hle|Hgt].
    + now rewrite Z.min_l by lia.
    + rewrite Z.min_r by lia.
      rewrite !firstn_all2; [reflexivity | |];
        rewrite length_skipn; subst len; lia.
Qed.

Lemma parse_or_some s d : parse_or (Some s) d = JSMath.parseInt s.
Proof. reflexivity. Qed.

Variable array_sort :
  (Report -> Report -> Num.t) -> list Report -> list Report.

Lemma page_indices p l :
  1 <= p -> 1 <= l -> p * l < 2 ^ Num.prec ->
  Num.mul (Num.sub (Num.of_Z p) Num.one) (Num.of_Z l) = Num.of_Z ((p - 1) * l)
  /\ Num.mul (Num.of_Z p) (Num.of_Z l) = Num.of_Z (p * l)
  /\ 0 <= (p - 1) * l <= p * l.
Proof.
  intros Hp1 Hl1 Hlt.
  assert (Hpl : p <= p * l /\ l <= p * l /\ 0 <= (p - 1) * l <= p * l).
  { assert (0 <= (p - 1) * (l - 1)) by (apply Z.mul_nonneg_nonneg; lia).
    assert (0 <= (p - 1) * l) by (apply Z.mul_nonneg_nonneg; lia).
    lia. }
  change Num.one with (Num.of_Z 1).
  rewrite sub_exact by lia. rewrite !mul_exact by lia.
  repeat split; lia.
Qed.

Lemma listReports_page st number size by_t by_s p l :
  JSMath.parseInt number = Num.of_Z p ->
  JSMath.parseInt size = Num.of_Z l ->
  1 <= p -> 1 <= l -> p * l < 2 ^ Num.prec ->
  let q := {| page := Some number; limit := Some size;
              by_type := by_t; by_status := by_s |} in
  fst (listReports array_sort st q) =
    firstn (Z.to_nat l)
      (skipn (Z.to_nat ((p - 1) * l)) (filteredReports array_sort st q)).
Proof.
  intros Hp Hl Hp1 Hl1 Hlt q.
  destruct (page_indices p l Hp1 Hl1 Hlt) as (Hs & He & Hle).
  unfold listReports. cbn [fst page limit q].
  rewrite !parse_or_some, Hp, Hl, Hs, He.
  rewrite slice_page by lia. do 2 f_equal. lia.
Qed.

Lemma listReports_hasNextPage st number size by_t by_s p l :
  JSMath.parseInt number = Num.of_Z p ->
  JSMath.parseInt size = Num.of_Z l ->
  1 <= p -> 1 <= l -> p * l < 2 ^ Num.prec ->
  let q := {| page := Some number; limit := Some size;
              by_type := by_t; by_status := by_s |} in
  Z.of_nat (List.length (filteredReports array_sort st q)) < 2 ^ Num.prec ->
  hasNextPage (snd (listReports array_sort st q)) =
  (p * l <? Z.of_nat (List.length (filteredReports array_sort st q))).
Proof.
  intros Hp Hl Hp1 Hl1 Hlt q Hlen.
  destruct (page_indices p l Hp1 Hl1 Hlt) as (Hs & He & Hle).
  unfold listReports. cbn [snd hasNextPage page limit q].
  rewrite !parse_or_some, Hp, Hl, He.
  unfold Compliance.length_of, Num.of_nat. now rewrite ltb_of_Z by lia.
Qed.

Lemma pages_from st size by_t by_s l all k :
  JSMath.parseInt size = Num.of_Z l -> 1 <= l ->
  all = filteredReports array_sort st
          {| page := None; limit := None;
             by_type := by_t; by_status := by_s |} ->
  forall numbers j,
    Forall2 (fun number p => JSMath.parseInt number = Num.of_Z (Z.of_nat p))
            numbers (seq (S j) k) ->
    Z.of_nat (j + k) * l < 2 ^ Num.prec ->
    List.concat (pages_to array_sort st by_t by_s size numbers) =
    firstn (k * Z.to_nat l) (skipn (j * Z.to_nat l) all).
Proof.
  intros Hl Hl1 ->. induction k as [|k IH]; intros numbers j Hnum Hlt.
  - inversion Hnum; subst. reflexivity.
  - cbn [seq] in Hnum. inversion Hnum as [|number p ns ps Hp Hrest]; subst.
    cbn [pages_to map List.concat].
    assert (Hjl : Z.of_nat (S j) * l <= Z.of_nat (j + S k) * l)
      by (apply Z.mul_le_mono_nonneg_r; lia).
    rewrite (listReports_page st number size by_t by_s (Z.of_nat (S j)) l)
      by (assumption || lia).
    change (map _ ns) with (pages_to array_sort st by_t by_s size ns).
    rewrite (IH ns (S j))
      by (assumption
          || (replace (S j + k)%nat with (j + S k)%nat by lia; assumption)).
    replace (Z.to_nat ((Z.of_nat (S j) - 1) * l)) with (j * Z.to_nat l)%nat
      by (replace (Z.of_nat (S j) - 1) with (Z.of_nat j) by lia;
          rewrite Z2Nat.inj_mul, Nat2Z.id by lia; reflexivity).
    change (S k * Z.to_nat l)%nat with (Z.to_nat l + k * Z.to_nat l)%nat.
    rewrite firstn_add, skipn_skipn. reflexivity.
Qed.

(** X24: paging.  With a limit [l >= 1], the pages 1 to [k] of [GET /], one
    after the other, are the first [k * l] reports of the filtered and sorted
    listing: none is left out and none comes twice.  Page [k] tells of a
    next page exactly when the listing has more than these. *)
Theorem listReports_pages_cover st size by_t by_s l numbers k :
  JSMath.parseInt size = Num.of_Z l -> 1 <= l ->
  Forall2 (fun number p => JSMath.parseInt number = Num.of_Z (Z.of_nat p))
          numbers (seq 1 k) ->
  Z.of_nat k * l < 2 ^ Num.prec ->
  let all := filteredReports array_sort st
               {| page := None; limit := None;
                  by_type := by_t; by_status := by_s |} in
  List.concat (pages_to array_sort st by_t by_s size numbers) =
    firstn (k * Z.to_nat l) all
  /\ (forall number,
        JSMath.parseInt number = Num.of_Z (Z.of_nat k) -> (1 <= k)%nat ->
        Z.of_nat (List.length all) < 2 ^ Num.prec ->
        hasNextPage
          (snd (listReports array_sort st
                  {| page := Some number; limit := Some size;
                     by_type := by_t; by_status := by_s |})) =
        (Z.of_nat k * l <? Z.of_nat (List.length all))).
Proof.
  intros Hl Hl1 Hnum Hlt all. split.
  - rewrite (pages_from st size by_t by_s l all k Hl Hl1 eq_refl numbers 0%nat)
      by assumption.
    reflexivity.
  - intros number Hp Hk Hlen.
    apply (listReports_hasNextPage st number size by_t by_s (Z.of_nat k) l);
      (assumption || lia).
Qed.

End Pages.

Lemma listReports_pages_cover_witness :
  List.concat
    (pages_to sort_reports initial_reports None None "1" ["1"; "2"]%string) =
  [january_report; quarter_report].
Proof.
  refine (eq_trans
            (proj1 (listReports_pages_cover sort_reports initial_reports "1"
                      None None 1 ["1"; "2"]%string 2%nat eq_refl _ _ _)) _).
  - lia.
  - repeat constructor.
  - reflexivity.
  - vm_compute. reflexivity.
Defined.

Section Store.
Import MockReports.

Lemma reports_heap_app h x arr :
  Forall (fun a => (a < List.length h)%nat) arr ->
  reports {| heap := h ++ [x]; mockReports := arr |} =
  reports {| heap := h; mockReports := arr |}.
Proof.
  unfold reports. cbn [heap mockReports].
  induction 1 as [|a arr Ha _ IH]; cbn [flat_map]; [reflexivity|].
  now rewrite IH, nth_error_app1 by assumption.
Qed.

Lemma reports_app h arr1 arr2 :
  reports {| heap := h; mockReports := arr1 ++ arr2 |} =
  (reports {| heap := h; mockReports := arr1 |}
   ++ reports {| heap := h; mockReports := arr2 |})%list.
Proof. unfold reports. cbn [heap mockReports]. apply flat_map_app. Qed.

Lemma read_some (h : list Report) a :
  (a < List.length h)%nat -> exists r, nth_error h a = Some r.
Proof.
  intros Ha. destruct (nth_error h a) as [r|] eqn:Hr; [now exists r|].
  apply nth_error_None in Hr. lia.
Qed.

Lemma reports_nth h arr i :
  Forall (fun a => (a < List.length h)%nat) arr ->
  nth_error (reports {| heap := h; mockReports := arr |}) i =
  match nth_error arr i with
  | Some a => nth_error h a
  | None => None
  end.
Proof.
  unfold reports. cbn [heap mockReports]. intros Harr. revert i.
  induction Harr as [|a arr Ha _ IH]; intros i; cbn [flat_map].
  - now destruct i.
  - destruct (read_some h a Ha) as [r Hr]. rewrite Hr.
    destruct i as [|i]; cbn [nth_error app]; [now rewrite Hr | apply IH].
Qed.

Lemma reports_length h arr :
  Forall (fun a => (a < List.length h)%nat) arr ->
  List.length (reports {| heap := h; mockReports := arr |}) = List.length arr.
Proof.
  unfold reports. cbn [heap mockReports].
  induction 1 as [|a arr Ha _ IH]; cbn [flat_map]; [reflexivity|].
  destruct (read_some h a Ha) as [r ->]. cbn [app List.length]. now rewrite IH.
Qed.

Lemma ids_to_nth n i :
  (i < n)%nat -> nth_error (ids_to n) i = Some (Z.of_nat i + 1).
Proof.
  intros Hi. unfold ids_to. rewrite nth_error_map, nth_error_seq.
  destruct (Nat.ltb_spec i n); [|lia]. cbn [option_map]. f_equal. lia.
Qed.

Lemma ids_to_succ n : ids_to (S n) = (ids_to n ++ [Z.of_nat n + 1])%list.
Proof.
  unfold ids_to. rewrite seq_S, map_app. cbn [map]. do 2 f_equal. lia.
Qed.

(** In a numbered state the report at index [i] has the id [i + 1]. *)
Lemma numbered_nth st i a :
  sound st -> numbered st ->
  nth_error (mockReports st) i = Some a ->
  exists r, nth_error (heap st) a = Some r /\ id r = Z.of_nat i + 1.
Proof.
  destruct st as [h arr]. unfold sound, numbered. cbn [heap mockReports].
  intros [Hin _] Hnum Hi.
  pose proof (reports_nth h arr i Hin) as Hr. rewrite Hi in Hr.
  assert (Hlt : (i < List.length arr)%nat)
    by (apply nth_error_Some; congruence).
  pose proof (ids_to_nth _ _ Hlt) as Hid. rewrite <- Hnum in Hid.
  rewrite nth_error_map, Hr in Hid.
  destruct (nth_error h a) as [r|]; [|discriminate Hid].
  exists r. split; [reflexivity|]. now injection Hid.
Qed.

Lemma has_id_of_Z s r k :
  JSMath.parseInt s = Num.of_Z k ->
  0 <= id r < 2 ^ Num.prec -> 0 <= k < 2 ^ Num.prec ->
  has_id s r = (id r =? k).
Proof. intros Hs Hr Hk. unfold has_id. rewrite Hs. now apply eqb_of_Z. Qed.

Lemma find_app_none {A : Type} (p : A -> bool) l1 l2 :
  Forall (fun x => p x = false) l1 -> find p (l1 ++ l2) = find p l2.
Proof.
  induction 1 as [|x l1 Hx _ IH]; cbn [app find]; [reflexivity|].
  now rewrite Hx.
Qed.

Lemma findIndex_app_none {A : Type} (p : A -> bool) l1 x l2 :
  Forall (fun x => p x = false) l1 -> p x = true ->
  JSMath.findIndex p (l1 ++ x :: l2) = Some (List.length l1).
Proof.
  intros Hl1 Hx.
  induction Hl1 as [|y l1 Hy _ IH]; cbn [app JSMath.findIndex List.length].
  - now rewrite Hx.
  - now rewrite Hy, IH.
Qed.

Lemma findIndex_split {A : Type} (p : A -> bool) l i :
  JSMath.findIndex p l = Some i ->
  exists l1 x l2,
    l = (l1 ++ x :: l2)%list /\ List.length l1 = i /\ p x = true
    /\ Forall (fun x => p x = false) l1.
Proof.
  revert i. induction l as [|y l IH]; intros i; cbn [JSMath.findIndex];
    [discriminate|].
  destruct (p y) eqn:Hy.
  - intros [= <-]. now exists [], y, l.
  - destruct (JSMath.findIndex p l) as [j|]; [|discriminate].
    intros [= <-]. destruct (IH j eq_refl) as (l1 & x & l2 & -> & <- & Hx & Hl1).
    exists (y :: l1), x, l2. repeat split; try assumption.
    now constructor.
Qed.

Lemma find_split {A : Type} (p : A -> bool) l x :
  find p l = Some x ->
  exists l1 l2,
    l = (l1 ++ x :: l2)%list /\ p x = true
    /\ Forall (fun x => p x = false) l1.
Proof.
  induction l as [|y l IH]; cbn [find]; [discriminate|].
  destruct (p y) eqn:Hy.
  - intros [= <-]. now exists [], l.
  - intros Hx. destruct (IH Hx) as (l1 & l2 & -> & Hpx & Hl1).
    exists (y :: l1), l2. repeat split; try assumption. now constructor.
Qed.

Lemma nth_error_replace_at_same {A : Type} (l : list A) i x :
  (i < List.length l)%nat -> nth_error (JSMath.replace_at l i x) i = Some x.
Proof.
  revert i. induction l as [|y l IH]; intros [|i] Hi; cbn in *;
    try lia; [reflexivity | apply IH; lia].
Qed.

Lemma nth_error_replace_at_other {A : Type} (l : list A) i j x :
  i <> j -> nth_error (JSMath.replace_at l i x) j = nth_error l j.
Proof.
  revert i j. induction l as [|y l IH]; intros [|i] [|j] Hne; cbn;
    try reflexivity; try congruence.
  apply IH. congruence.
Qed.

Lemma length_replace_at {A : Type} (l : list A) i x :
  List.length (JSMath.replace_at l i x) = List.length l.
Proof.
  revert i. induction l as [|y l IH]; intros [|i]; cbn; try reflexivity.
  now rewrite IH.
Qed.

Lemma replace_at_app {A : Type} (l1 : list A) y l2 x :
  JSMath.replace_at (l1 ++ y :: l2) (List.length l1) x = (l1 ++ x :: l2)%list.
Proof. induction l1 as [|z l1 IH]; cbn; [reflexivity | now rewrite IH]. Qed.

Lemma splice_one_app {A : Type} (l1 : list A) y l2 :
  JSMath.splice_one (l1 ++ y :: l2) (List.length l1) = (l1 ++ l2)%list.
Proof.
  unfold JSMath.splice_one. f_equal.
  - rewrite firstn_app, Nat.sub_diag, firstn_all. cbn. apply app_nil_r.
  - induction l1 as [|z l1 IH]; [reflexivity | exact IH].
Qed.

Lemma reports_replace_not_in h a x arr :
  ~ In a arr ->
  reports {| heap := JSMath.replace_at h a x; mockReports := arr |} =
  reports {| heap := h; mockReports := arr |}.
Proof.
  unfold reports. cbn [heap mockReports].
  induction arr as [|b arr IH]; intros Hnot; cbn [flat_map]; [reflexivity|].
  rewrite IH by (intros Hin; apply Hnot; now right).
  rewrite nth_error_replace_at_other; [reflexivity|].
  intros ->. apply Hnot. now left.
Qed.

(** [POST /] appends the new report. *)
Lemma createReport_reports st user_id now b :
  Forall (fun a => (a < List.length (heap st))%nat) (mockReports st) ->
  reports (fst (createReport st user_id now b)) =
  (reports st ++ [snd (createReport st user_id now b)])%list.
Proof.
  destruct st as [h arr]. cbn [heap mockReports fst snd createReport].
  intros Hin. rewrite reports_app, reports_heap_app by assumption.
  f_equal. unfold reports. cbn [heap mockReports flat_map].
  now rewrite nth_error_app2, Nat.sub_diag by lia.
Qed.

Lemma createReport_sound st user_id now b :
  sound st -> sound (fst (createReport st user_id now b)).
Proof.
  destruct st as [h arr]. unfold sound.
  cbn [heap mockReports fst createReport]. intros [Hin Hnd]. split.
  - apply Forall_app. split.
    + eapply Forall_impl; [|exact Hin]. cbn. intros a Ha.
      rewrite length_app. cbn. lia.
    + constructor; [|constructor]. rewrite length_app. cbn. lia.
  - apply NoDup_app; [assumption | repeat constructor; intros [] |].
    intros a Ha [<-|[]]. rewrite Forall_forall in Hin.
    specialize (Hin _ Ha). lia.
Qed.

(** The reports of a numbered state answer to an id exactly at its index. *)
Lemma at_id_numbered st s k i a h' arr' :
  sound st -> numbered st ->
  Z.of_nat (List.length (mockReports st)) < 2 ^ Num.prec ->
  JSMath.parseInt s = Num.of_Z k -> 0 <= k < 2 ^ Num.prec ->
  nth_error (mockReports st) i = Some a ->
  at_id {| heap := heap st ++ h'; mockReports := arr' |} s a =
  (Z.of_nat i + 1 =? k).
Proof.
  intros Hsound Hnum Hn Hs Hk Hi.
  destruct (numbered_nth st i a Hsound Hnum Hi) as (r & Hr & Hid).
  assert (Hlt : (i < List.length (mockReports st))%nat)
    by (apply nth_error_Some; congruence).
  unfold at_id. cbn [heap].
  rewrite nth_error_app1 by (apply nth_error_Some; congruence).
  rewrite Hr, (has_id_of_Z s r k Hs) by lia. now rewrite Hid.
Qed.

(** X25: ids of new reports.  As long as no report was deleted, the reports
    carry the ids 1, 2, ... in the order of the array; [POST /] keeps it so,
    and [GET /:id] with the id of the new report answers this report. *)
Theorem createReport_numbered st user_id now b :
  sound st -> numbered st ->
  Z.of_nat (List.length (mockReports st)) + 1 < 2 ^ Num.prec ->
  let st' := fst (createReport st user_id now b) in
  let newReport := snd (createReport st user_id now b) in
  sound st' /\ numbered st'
  /\ reports st' = (reports st ++ [newReport])%list
  /\ forall s, JSMath.parseInt s = Num.of_Z (id newReport) ->
               getReport st' s = Some newReport.
Proof.
  intros Hsound Hnum Hn st' newReport.
  pose proof (createReport_reports st user_id now b (proj1 Hsound)) as Hrep.
  fold st' newReport in Hrep.
  split; [now apply createReport_sound|].
  split.
  { unfold numbered. rewrite Hrep, map_app, Hnum. subst st' newReport.
    destruct st as [h arr]. cbn [heap mockReports fst snd createReport id map].
    now rewrite length_app, Nat.add_1_r, ids_to_succ. }
  split; [exact Hrep|].
  intros s Hs. unfold getReport.
  assert (Hid : id newReport = Z.of_nat (List.length (mockReports st)) + 1)
    by reflexivity.
  assert (Hst' : st' = {| heap := heap st ++ [newReport];
                           mockReports := mockReports st
                                          ++ [List.length (heap st)] |})
    by reflexivity.
  rewrite Hst'. cbn [heap mockReports].
  rewrite find_app_none.
  - cbn [find]. unfold at_id at 1. cbn [heap].
    rewrite nth_error_app2, Nat.sub_diag by lia. cbn [nth_error].
    rewrite (has_id_of_Z s newReport _ Hs) by lia.
    now rewrite Z.eqb_refl, nth_error_app2, Nat.sub_diag by lia.
  - apply Forall_forall. intros a Ha.
    destruct (In_nth_error _ _ Ha) as [i Hi].
    rewrite (at_id_numbered st s (id newReport) i a) by (assumption || lia).
    assert ((i < List.length (mockReports st))%nat)
      by (apply nth_error_Some; congruence).
    apply Z.eqb_neq. lia.
Qed.

Lemma in_nth_lt {A : Type} (l : list A) x :
  In x l -> exists j, (j < List.length l)%nat /\ nth_error l j = Some x.
Proof.
  intros Hx. destruct (In_nth_error _ _ Hx) as [j Hj]. exists j.
  split; [apply nth_error_Some; congruence | exact Hj].
Qed.

(** X26: ids after a deletion.  When a report other than the last was deleted
    from a numbered array, the next [POST /] gives the new report the id of
    the last one.  Both stay in the array, and [GET /:id] with this id
    answers the older report. *)
Theorem deleteReport_then_create_repeats_id st s k user_id now b :
  sound st -> numbered st ->
  let n := Z.of_nat (List.length (mockReports st)) in
  n < 2 ^ Num.prec ->
  JSMath.parseInt s = Num.of_Z k -> 1 <= k < n ->
  let st1 := fst (deleteReport st s) in
  let st2 := fst (createReport st1 user_id now b) in
  let newReport := snd (createReport st1 user_id now b) in
  exists last,
    nth_error (reports st) (Nat.pred (List.length (mockReports st))) =
      Some last
    /\ id last = n /\ id newReport = n
    /\ reports st2 =
       (JSMath.splice_one (reports st) (Z.to_nat (k - 1)) ++ [newReport])%list
    /\ forall s', JSMath.parseInt s' = Num.of_Z n ->
                  getReport st2 s' = Some last.
Proof.
  intros Hsound Hnum n Hn Hs Hk.
  assert (Hat : forall s0 k0 j c h' arr',
             JSMath.parseInt s0 = Num.of_Z k0 -> 0 <= k0 < 2 ^ Num.prec ->
             nth_error (mockReports st) j = Some c ->
             at_id {| heap := heap st ++ h'; mockReports := arr' |} s0 c =
             (Z.of_nat j + 1 =? k0)).
  { intros. now apply at_id_numbered. }
  assert (Hnth : forall j c, nth_error (mockReports st) j = Some c ->
             exists r, nth_error (heap st) c = Some r
                       /\ id r = Z.of_nat j + 1).
  { intros. now apply numbered_nth. }
  destruct st as [h arr]. destruct Hsound as [Hin Hnd].
  cbn [heap mockReports] in *.
  set (i := Z.to_nat (k - 1)).
  assert (Hik : Z.of_nat i = k - 1) by (subst i; lia).
  assert (Hnn : n = Z.of_nat (List.length arr)) by reflexivity.
  clearbody i n.
  assert (Hi : (i < List.length arr)%nat) by lia.
  destruct (nth_error arr i) as [a|] eqn:Ha;
    [|apply nth_error_None in Ha; lia].
  destruct (nth_error_split _ _ Ha) as (l1 & l2 & Harr & Hl1).
  assert (Hl2 : l2 <> []).
  { intros ->. apply (f_equal (@List.length nat)) in Harr.
    rewrite length_app in Harr. cbn in Harr. lia. }
  destruct (exists_last Hl2) as (l2' & e & ->). clear Hl2.
  assert (Hlen : List.length arr = (i + S (List.length l2' + 1))%nat).
  { rewrite Harr, length_app. cbn [List.length]. rewrite length_app.
    cbn [List.length]. lia. }
  assert (He : nth_error arr (Nat.pred (List.length arr)) = Some e).
  { rewrite Hlen, Harr.
    replace (Nat.pred (i + S (List.length l2' + 1)))
      with (List.length l1 + S (List.length l2'))%nat by lia.
    rewrite nth_error_app2 by lia.
    replace (List.length l1 + S (List.length l2') - List.length l1)%nat
      with (S (List.length l2')) by lia.
    cbn [nth_error]. rewrite nth_error_app2, Nat.sub_diag by lia.
    reflexivity. }
  destruct (Hnth _ _ He) as (last & Hlast & Hidlast).
  assert (Hl1at : forall c, In c l1 -> exists j,
             (j < i)%nat /\ nth_error arr j = Some c).
  { intros c Hc. destruct (in_nth_lt _ _ Hc) as (j & Hj & Hjc).
    exists j. split; [lia|]. rewrite Harr. now rewrite nth_error_app1 by lia. }
  assert (Hl2at : forall c, In c l2' -> exists j,
             (i < j < Nat.pred (List.length arr))%nat
             /\ nth_error arr j = Some c).
  { intros c Hc. destruct (in_nth_lt _ _ Hc) as (j & Hj & Hjc).
    exists (List.length l1 + S j)%nat. split; [lia|]. rewrite Harr.
    rewrite nth_error_app2 by lia.
    replace (List.length l1 + S j - List.length l1)%nat with (S j) by lia.
    cbn [nth_error]. now rewrite nth_error_app1 by lia. }
  (* the deletion *)
  assert (Hfind : JSMath.findIndex
                    (at_id {| heap := h; mockReports := arr |} s) arr =
                  Some (List.length l1)).
  { rewrite Harr at 2. apply findIndex_app_none.
    - apply Forall_forall. intros c Hc. destruct (Hl1at c Hc) as (j & Hj & Hjc).
      pose proof (Hat s k j c [] arr Hs ltac:(lia) Hjc) as H.
      rewrite app_nil_r in H. rewrite H. apply Z.eqb_neq. lia.
    - pose proof (Hat s k i a [] arr Hs ltac:(lia) Ha) as H.
      rewrite app_nil_r in H. rewrite H. apply Z.eqb_eq. lia. }
  assert (Hst1 : fst (deleteReport {| heap := h; mockReports := arr |} s) =
                 {| heap := h; mockReports := l1 ++ l2' ++ [e] |}).
  { unfold deleteReport. cbn [heap mockReports]. rewrite Hfind. cbn [fst].
    f_equal. rewrite Harr at 1. apply splice_one_app. }
  cbv zeta. rewrite Hst1.
  set (st1 := {| heap := h; mockReports := l1 ++ l2' ++ [e] |}).
  assert (Hin1 : Forall (fun a => (a < List.length h)%nat) (l1 ++ l2' ++ [e])).
  { rewrite Harr in Hin. apply Forall_app in Hin. destruct Hin as [H1 H2].
    inversion H2; subst. now apply Forall_app. }
  exists last. split.
  { rewrite reports_nth by assumption. now rewrite He. }
  split; [lia|].
  assert (Hidnew : id (snd (createReport st1 user_id now b)) = n).
  { cbn [createReport snd id st1 mockReports].
    rewrite Hnn, Hlen, !length_app. cbn [List.length]. lia. }
  split; [exact Hidnew|].
  split.
  { rewrite (createReport_reports st1 user_id now b Hin1). f_equal.
    subst st1. rewrite Harr, !reports_app.
    assert (Hra : exists ra, reports {| heap := h; mockReports := a :: l2' ++ [e] |}
                  = ra :: reports {| heap := h; mockReports := l2' ++ [e] |}).
    { destruct (Hnth _ _ Ha) as (ra & Hra & _). exists ra.
      unfold reports. cbn [heap mockReports flat_map]. now rewrite Hra. }
    destruct Hra as (ra & ->).
    replace i
      with (List.length (reports {| heap := h; mockReports := l1 |})).
    - now rewrite splice_one_app, <- reports_app.
    - rewrite reports_length; [lia|].
      rewrite Harr in Hin. now apply Forall_app in Hin. }
  intros s' Hs'.
  unfold getReport. cbn [createReport fst st1 heap mockReports].
  rewrite app_assoc, <- (app_assoc (l1 ++ l2')). cbn [app].
  rewrite find_app_none.
  - cbn [find]. rewrite (Hat s' n _ e _ _ Hs' ltac:(lia) He).
    replace (Z.of_nat (Nat.pred (List.length arr)) + 1 =? n) with true
      by (symmetry; apply Z.eqb_eq; lia).
    rewrite nth_error_app1 by (apply nth_error_Some; congruence).
    exact Hlast.
  - apply Forall_forall. intros c Hc. apply in_app_or in Hc.
    destruct Hc as [Hc|Hc];
      [destruct (Hl1at c Hc) as (j & Hj & Hjc)
      |destruct (Hl2at c Hc) as (j & Hj & Hjc)];
      rewrite (Hat s' n j c _ _ Hs' ltac:(lia) Hjc); apply Z.eqb_neq; lia.
Qed.

(** X27: an update during generation.  When the handler of [PUT /:id] runs,
    on a body without a status, between the handler of [POST /:id/generate]
    and its timer, the timer completes the object that the array no longer
    holds: the reports of the array stay as they are after the timer, and
    [GET /:id] goes on answering the report as [generating]. *)
Theorem update_during_generation st s st1 a now1 c stamp now2 io :
  sound st ->
  startGeneration st s = (st1, Some a) ->
  new_status c = None ->
  let st2 := fst (updateReport st1 s now1 c) in
  let st3 := fst (finishGeneration st2 a stamp now2 io) in
  exists updated,
    snd (updateReport st1 s now1 c) = Some updated
    /\ status updated = "generating"%string
    /\ reports st3 = reports st2
    /\ getReport st3 s = Some updated.
Proof.
  intros [Hin Hnd] Hstart Hc.
  destruct st as [h arr]. cbn [heap mockReports] in *.
  unfold startGeneration in Hstart. cbn [heap mockReports] in Hstart.
  destruct (find _ arr) as [a'|] eqn:Hfind; [|discriminate Hstart].
  destruct (nth_error h a') as [report|] eqn:Hreport; [|discriminate Hstart].
  injection Hstart as <- <-.
  destruct (find_split _ _ _ Hfind) as (l1 & l2 & Harr & Hpa & Hl1).
  set (marked := with_status "generating" report).
  set (h1 := JSMath.replace_at h a' marked).
  assert (Ha' : (a' < List.length h)%nat)
    by (apply nth_error_Some; congruence).
  assert (Hlen1 : List.length h1 = List.length h)
    by apply length_replace_at.
  assert (Hmarked : nth_error h1 a' = Some marked)
    by now apply nth_error_replace_at_same.
  assert (Hother : forall b, b <> a' -> nth_error h1 b = nth_error h b).
  { intros b Hb. apply nth_error_replace_at_other. congruence. }
  assert (Hnot1 : ~ In a' l1 /\ ~ In a' l2).
  { rewrite Harr in Hnd. apply NoDup_remove_2 in Hnd.
    split; intros H; apply Hnd, in_or_app; tauto. }
  assert (Hhas : has_id s report = true).
  { unfold at_id in Hpa. cbn [heap] in Hpa. now rewrite Hreport in Hpa. }
  assert (Hl1' : forall h' arr',
             Forall (fun b => at_id {| heap := h'; mockReports := arr' |} s b
                              = false) l1 ->
             forall h'' arr'',
               (forall b, In b l1 -> nth_error h'' b = nth_error h' b) ->
               Forall (fun b => at_id {| heap := h''; mockReports := arr'' |}
                                  s b = false) l1).
  { intros h' arr' H h'' arr'' Hsame. rewrite Forall_forall in *.
    intros b Hb. specialize (H b Hb). unfold at_id in *. cbn [heap] in *.
    now rewrite Hsame. }
  (* the update finds the marked report *)
  assert (Hindex : JSMath.findIndex
                     (at_id {| heap := h1; mockReports := arr |} s) arr =
                   Some (List.length l1)).
  { rewrite Harr at 2. apply findIndex_app_none.
    - apply (Hl1' h arr Hl1). intros b Hb. apply Hother.
      intros ->. tauto.
    - unfold at_id. cbn [heap]. now rewrite Hmarked. }
  assert (Hslot : nth_error arr (List.length l1) = Some a').
  { rewrite Harr, nth_error_app2, Nat.sub_diag by lia. reflexivity. }
  set (updated :=
         {| id := id marked;
            title := or_else (new_title c) (title marked);
            type := or_else (new_type c) (type marked);
            status := or_else (new_status c) (status marked);
            generatedBy := generatedBy marked;
            generatedAt := generatedAt marked;
            data := match new_data c with
                    | Some d => d
                    | None => data marked
                    end;
            template := template marked;
            fileUrl := fileUrl marked;
            updatedAt := Some now1;
            completedAt := completedAt marked |}).
  assert (Hupdate : updateReport {| heap := h1; mockReports := arr |} s now1 c
                    = ({| heap := h1 ++ [updated];
                          mockReports := l1 ++ List.length h1 :: l2 |},
                       Some updated)).
  { unfold updateReport. cbn [heap mockReports].
    rewrite Hindex, Hslot, Hmarked. f_equal. f_equal.
    rewrite Harr at 1. apply replace_at_app. }
  cbv zeta. rewrite Hupdate. cbn [fst snd].
  exists updated. split; [reflexivity|].
  split; [cbn [updated status]; now rewrite Hc|].
  set (st2 := {| heap := h1 ++ [updated];
                 mockReports := l1 ++ List.length h1 :: l2 |}).
  assert (Hread : nth_error (heap st2) a' = Some marked).
  { cbn [st2 heap]. now rewrite nth_error_app1 by lia. }
  unfold finishGeneration. rewrite Hread. cbn [fst snd].
  assert (Hfresh : ~ In a' (mockReports st2)).
  { cbn [st2 mockReports]. intros H. apply in_app_or in H.
    destruct H as [H|[H|H]]; [tauto | lia | tauto]. }
  split; [now apply reports_replace_not_in|].
  unfold getReport. cbn [heap mockReports st2].
  rewrite find_app_none.
  - cbn [find]. unfold at_id at 1. cbn [heap].
    rewrite nth_error_replace_at_other by lia.
    rewrite nth_error_app2, Nat.sub_diag by lia. cbn [nth_error].
    replace (has_id s updated) with (has_id s report) by reflexivity.
    rewrite Hhas.
    rewrite nth_error_replace_at_other by lia.
    now rewrite nth_error_app2, Nat.sub_diag by lia.
  - apply (Hl1' h arr Hl1). intros b Hb.
    assert (b <> a') by (intros ->; tauto).
    assert ((b < List.length h)%nat).
    { rewrite Forall_forall in Hin. apply Hin. rewrite Harr.
      apply in_or_app. now left. }
    rewrite nth_error_replace_at_other by congruence.
    rewrite nth_error_app1 by lia. now apply Hother.
Qed.

End Store.

Lemma initial_reports_sound : sound initial_reports.
Proof.
  split.
  - repeat constructor.
  - repeat constructor; cbn; intuition discriminate.
Qed.

Lemma createReport_numbered_witness :
  MockReports.getReport
    (fst (MockReports.createReport initial_reports 2 1707000000000
            annual_body)) "3" =
  Some (snd (MockReports.createReport initial_reports 2 1707000000000
               annual_body)).
Proof.
  refine (proj2 (proj2 (proj2
            (createReport_numbered initial_reports 2 1707000000000
               annual_body initial_reports_sound _ _))) "3"%string _).
  - reflexivity.
  - vm_compute. reflexivity.
  - reflexivity.
Defined.

Lemma deleteReport_then_create_repeats_id_witness :
  exists last,
    nth_error (MockReports.reports initial_reports) 1 = Some last
    /\ MockReports.id
         (snd (MockReports.createReport
                 (fst (MockReports.deleteReport initial_reports "1")) 2
                 1707000000000 annual_body)) = MockReports.id last
    /\ MockReports.getReport
         (fst (MockReports.createReport
                 (fst (MockReports.deleteReport initial_reports "1")) 2
                 1707000000000 annual_body)) "2" = Some last.
Proof.
  destruct (deleteReport_then_create_repeats_id initial_reports "1" 1 2
              1707000000000 annual_body initial_reports_sound)
    as (last & Hlast & Hid & Hnew & _ & Hget).
  - reflexivity.
  - vm_compute. reflexivity.
  - reflexivity.
  - cbn. lia.
  - exists last. split; [exact Hlast|]. split; [congruence|].
    apply Hget. reflexivity.
Defined.

Lemma update_during_generation_witness :
  exists updated,
    MockReports.getReport
      (fst (MockReports.finishGeneration
              (fst (MockReports.updateReport
                      (fst (MockReports.startGeneration initial_reports "2"))
                      "2" 1707000001000 retitled))
              1 1707000005000 1707000005001 false)) "2" = Some updated
    /\ MockReports.status updated = "generating"%string.
Proof.
  destruct (update_during_generation initial_reports "2"
              (fst (MockReports.startGeneration initial_reports "2")) 1
              1707000001000 retitled 1707000005000 1707000005001 false
              initial_reports_sound)
    as (updated & _ & Hstatus & _ & Hget).
  - reflexivity.
  - reflexivity.
  - exists updated. split; assumption.
Defined.

(** ** The users kept in memory *)
Section UserStore.
Import MockUsers.
Context {crypto : Crypto}.

Lemma find_app {A : Type} (p : A -> bool) l1 l2 :
  find p (l1 ++ l2) = match find p l1 with
                      | Some x => Some x
                      | None => find p l2
                      end.
Proof.
  induction l1 as [|x l1 IH]; cbn [app find]; [reflexivity|].
  now destruct (p x).
Qed.

Lemma map_assign_first {B : Type} (g : User -> B) p f l :
  (forall u, g (f u) = g u) -> map g (assign_first p f l) = map g l.
Proof.
  intros Hg. induction l as [|u l IH]; cbn [assign_first map]; [reflexivity|].
  destruct (p u); cbn [map]; [now rewrite Hg | now rewrite IH].
Qed.

Lemma length_assign_first p f l :
  List.length (assign_first p f l) = List.length l.
Proof.
  induction l as [|u l IH]; cbn [assign_first]; [reflexivity|].
  destruct (p u); cbn [List.length]; [reflexivity | now rewrite IH].
Qed.

Lemma registered_push users u :
  registered users ->
  id u = Z.of_nat (List.length users) + 1 ->
  find (fun v => String.eqb (email v) (email u)) users = None ->
  registered (users ++ [u]).
Proof.
  intros [Hids Hemails] Hid Hfind. split.
  - rewrite map_app, Hids, length_app, Nat.add_1_r, ids_to_succ.
    cbn [map]. now rewrite Hid.
  - rewrite map_app. cbn [map].
    apply NoDup_app; [assumption | repeat constructor; intros [] |].
    intros e He [<-|[]]. apply in_map_iff in He.
    destruct He as (v & Hv & Hin).
    pose proof (find_none _ _ Hfind v Hin) as Hne. cbn in Hne.
    apply String.eqb_neq in Hne. congruence.
Qed.

Lemma registered_assign users p t :
  registered users -> registered (assign_first p (with_lastLogin t) users).
Proof.
  intros [Hids Hemails]. split.
  - now rewrite map_assign_first, length_assign_first by reflexivity.
  - now rewrite map_assign_first by reflexivity.
Qed.

(** X28: the users stay apart.  Whatever they answer, the handlers of
    [POST /register] and [POST /login] leave the users with the ids 1, 2,
    ... in the order of the array and with pairwise different emails,
    provided that the requests that run during the awaits of the
    registration do so too and push no user with its email. *)
Theorem handlers_keep_registered during users JWT_SECRET body salt created
  logged signed_at attempt now :
  registered users ->
  registered (during users) ->
  (register_check users body = None ->
   register_check (during users) body = None) ->
  registered
    (fst (register_during during users JWT_SECRET body salt created logged
            signed_at))
  /\ registered (fst (login users JWT_SECRET attempt now signed_at)).
Proof.
  intros Hreg Hduring Hfree. split.
  - unfold register_during.
    destruct (register_check users body) eqn:Hcheck; [exact Hreg|].
    specialize (Hfree eq_refl). unfold register_check in Hfree.
    destruct (find _ (during users)) eqn:Hfind; [discriminate Hfree|].
    unfold register_finish.
    destruct salt as [salt|]; [|exact Hduring].
    destruct (hash _ salt) as [hashedPassword|]; [|exact Hduring].
    match goal with
    | |- context [sign ?p ?k ?t] => destruct (sign p k t)
    end; cbn [fst]; apply registered_push; (assumption || reflexivity).
  - unfold login.
    destruct (find _ users) as [user|]; [|exact Hreg].
    destruct (compare _ _) as [[|]|]; try exact Hreg.
    match goal with
    | |- context [sign ?p ?k ?t] => destruct (sign p k t)
    end; cbn [fst]; now apply registered_assign.
Qed.

(** X29: registering, then logging in.  With a [bcrypt] that accepts a
    password for the hashes made of it, take a registration that was
    answered 201 and during whose awaits no user with its email was pushed.
    The handler of [POST /login], run next with the email and the password
    of the registration, finds the new user and does not answer 401: it
    answers 200 with this user and the new time of the last login, or 500
    when signing the token fails. *)
Theorem register_then_login during users JWT_SECRET body salt created logged
  signed_at users' token user now signed_at' :
  hashes_verify crypto ->
  register_check (during users) body = None ->
  register_during during users JWT_SECRET body salt created logged
    signed_at = (users', Json 201 token user) ->
  snd (login users' JWT_SECRET
         {| login_email := body_email body;
            login_password := body_password body |} now signed_at') =
  match sign {| payload_id := response_id user;
                payload_email := response_email user;
                payload_role := response_role user |}
             (secret_of JWT_SECRET) signed_at' with
  | Some token' =>
      Json 200 token'
        {| response_id := response_id user;
           response_email := body_email body;
           response_firstName := response_firstName user;
           response_lastName := response_lastName user;
           response_role := response_role user;
           response_department := response_department user;
           response_position := response_position user;
           response_createdAt := response_createdAt user;
           response_lastLogin := now |}
  | None => Error 500 "Server error"
  end.
Proof.
  intros Hverify Hfree Hregister.
  unfold register_during, register_check at 1 in Hregister.
  destruct (find _ users); [discriminate Hregister|].
  unfold register_check in Hfree.
  destruct (find _ (during users)) eqn:Hfind; [discriminate Hfree|].
  unfold register_finish in Hregister.
  destruct salt as [salt|]; [|discriminate Hregister].
  destruct (hash _ salt) as [hashedPassword|] eqn:Hhash;
    [|discriminate Hregister].
  match type of Hregister with
  | context [sign ?p ?k ?t] => destruct (sign p k t); [|discriminate Hregister]
  end.
  injection Hregister as <- _ <-.
  unfold login. cbn [login_email login_password].
  rewrite find_app, Hfind. cbn [find email].
  rewrite String.eqb_refl. cbn [password].
  rewrite (Hverify _ _ _ Hhash).
  unfold payload_of, with_lastLogin, without_password.
  cbn [id email role firstName lastName department position createdAt
       lastLogin response_id response_email response_role response_firstName
       response_lastName response_department response_position
       response_createdAt response_lastLogin].
  match goal with
  | |- context [sign ?p ?k ?t] => destruct (sign p k t)
  end; reflexivity.
Qed.

(** X32: two registrations that overlap.  When a second request registers
    the email of a first one and is past its look-up before the first has
    pushed, both users are pushed: the array holds the email twice, under
    two ids, and a login with the password of the second registration is
    compared with the hash of the first and answered 401 when they differ. *)
Theorem overlapping_registrations_share_email users JWT_SECRET first second
  salt1 salt2 hashed1 hashed2 created1 logged1 signed1 created2 logged2
  signed2 :
  find (fun u => email u =? body_email first)%string users = None ->
  body_email second = body_email first ->
  hash (body_password first) salt1 = Some hashed1 ->
  hash (body_password second) salt2 = Some hashed2 ->
  let users' :=
    fst (register_during
           (fun users => fst (register users JWT_SECRET first (Some salt1)
                                created1 logged1 signed1))
           users JWT_SECRET second (Some salt2) created2 logged2 signed2) in
  map email users' =
    (map email users ++ [body_email first; body_email first])%list
  /\ map id users' =
     (map id users ++ [Z.of_nat (List.length users) + 1;
                       Z.of_nat (List.length users) + 2])%list
  /\ (compare (body_password second) hashed1 = Some false ->
      forall now signed_at,
        snd (login users' JWT_SECRET
               {| login_email := body_email second;
                  login_password := body_password second |} now signed_at) =
        Error 401 "Invalid credentials").
Proof.
  intros Hfind Heq Hh1 Hh2 users'.
  assert (Husers : exists u1 u2,
             users' = (users ++ [u1; u2])%list
             /\ email u1 = body_email first /\ email u2 = body_email first
             /\ id u1 = Z.of_nat (List.length users) + 1
             /\ id u2 = Z.of_nat (List.length users) + 2
             /\ password u1 = hashed1).
  { subst users'.
    unfold register, register_during, register_check, register_finish.
    rewrite Heq, Hfind, Hh1, Hh2. cbn [fst].
    do 2 match goal with
         | |- context [sign ?p ?k ?t] => destruct (sign p k t)
         end; cbn [fst]; rewrite <- app_assoc; cbn [app];
      eexists; eexists; (split; [reflexivity|]);
      cbn [email id password]; rewrite ?length_app; cbn [List.length];
      repeat split; lia. }
  destruct Husers as (u1 & u2 & -> & He1 & He2 & Hi1 & Hi2 & Hp1).
  rewrite !map_app. cbn [map]. rewrite He1, He2, Hi1, Hi2.
  split; [reflexivity|]. split; [reflexivity|].
  intros Hcompare now signed_at. unfold login. cbn [login_email login_password].
  rewrite find_app, Heq, Hfind. cbn [find].
  rewrite He1, String.eqb_refl, Hp1, Hcompare. reflexivity.
Qed.

End UserStore.

Lemma toy_crypto_verifies : hashes_verify toy_crypto.
Proof.
  intros password salt hashed [= <-]. cbn. now rewrite String.eqb_refl.
Qed.

Lemma overlapping_registrations_share_email_witness :
  map MockUsers.email
    (fst (MockUsers.register_during (crypto := toy_crypto)
            (fun users =>
               fst (MockUsers.register (crypto := toy_crypto) users None
                      teller_registration (Some "salt-1"%string)
                      1707000000000 1707000000001 1707000000002))
            [admin_user; manager_user] None teller_registration
            (Some "salt-2"%string) 1707000000003 1707000000004
            1707000000005)) =
  ["admin@sacco.com"; "manager@sacco.com"; "teller@sacco.com";
   "teller@sacco.com"]%string.
Proof.
  exact (proj1 (overlapping_registrations_share_email (crypto := toy_crypto)
                  [admin_user; manager_user] None teller_registration
                  teller_registration "salt-1" "salt-2" _ _
                  1707000000000 1707000000001 1707000000002
                  1707000000003 1707000000004 1707000000005
                  eq_refl eq_refl eq_refl eq_refl)).
Defined.

Lemma register_then_login_witness :
  snd (MockUsers.login (crypto := toy_crypto)
         (fst (MockUsers.register (crypto := toy_crypto)
                 [admin_user; manager_user] None teller_registration
                 (Some "salt"%string) 1707000000000 1707000000001
                 1707000000002))
         None
         {| MockUsers.login_email := "teller@sacco.com";
            MockUsers.login_password := "s3cret-pw" |}
         1707000060000 1707000060001) =
  MockUsers.Json 200 "your-secret-key.teller@sacco.com"
    {| MockUsers.response_id := 3;
       MockUsers.response_email := "teller@sacco.com";
       MockUsers.response_firstName := "Wanjiru";
       MockUsers.response_lastName := "Kamau";
       MockUsers.response_role := "user";
       MockUsers.response_department := "General";
       MockUsers.response_position := "Member";
       MockUsers.response_createdAt := 1707000000000;
       MockUsers.response_lastLogin := 1707000060000 |}.
Proof.
  exact (register_then_login (crypto := toy_crypto) (fun users => users)
           [admin_user; manager_user] None teller_registration
           (Some "salt"%string) 1707000000000 1707000000001 1707000000002
           _ _ _ 1707000060000 1707000060001 toy_crypto_verifies eq_refl
           eq_refl).
Defined.

Lemma handlers_keep_registered_witness :
  registered
    (fst (MockUsers.register (crypto := toy_crypto)
            [admin_user; manager_user] None teller_registration
            (Some "salt"%string) 1707000000000 1707000000001 1707000000002)).
Proof.
  assert (H : registered [admin_user; manager_user]).
  { split; [reflexivity|].
    repeat constructor; cbn; intuition discriminate. }
  exact (proj1 (handlers_keep_registered (crypto := toy_crypto)
                  (fun users => users)
                  [admin_user; manager_user] None teller_registration
                  (Some "salt"%string) 1707000000000 1707000000001
                  1707000000002
                  {| MockUsers.login_email := "admin@sacco.com";
                     MockUsers.login_password := "password123" |}
                  1707000060000 H H (fun free => free))).
Defined.

(** ** API keys *)
Section ApiKeys.
Import ApiKey.
Local Open Scope string_scope.

Lemma split_comma_free s : comma_free s = true -> split s = [s].
Proof.
  induction s as [|c s IH]; cbn [comma_free split]; [reflexivity|].
  intros H. apply andb_prop in H. destruct H as [Hc Hs].
  apply negb_true_iff in Hc. now rewrite Hc, IH.
Qed.

Lemma split_app_comma a r :
  comma_free a = true -> split (a ++ String "," r) = a :: split r.
Proof.
  induction a as [|c a IH]; cbn [comma_free append split]; [reflexivity|].
  intros H. apply andb_prop in H. destruct H as [Hc Ha].
  apply negb_true_iff in Hc. now rewrite Hc, IH.
Qed.

Lemma split_join keys :
  forallb comma_free keys = true ->
  split (join keys) = match keys with
                      | [] => [EmptyString]
                      | _ => keys
                      end.
Proof.
  induction keys as [|k keys IH]; [reflexivity|].
  cbn [forallb]. intros H. apply andb_prop in H. destruct H as [Hk Hkeys].
  destruct keys as [|k' keys]; [now apply split_comma_free|].
  change (join (k :: k' :: keys)) with (k ++ String "," (join (k' :: keys))).
  now rewrite split_app_comma, IH.
Qed.

(** X30: the keys of the environment.  When [VALID_API_KEYS] is a list of keys
    joined by commas, none of which holds a comma, a request passes exactly
    when its header is a non-empty key of the list; any other request is
    answered 401. *)
Theorem validateApiKey_accepts_listed keys header :
  forallb comma_free keys = true ->
  validateApiKey (Some (join keys)) (Some header) =
  if negb (header =? EmptyString) && existsb (String.eqb header) keys
  then Next {| key := header; type := "external" |}
  else Rejected 401 (if header =? EmptyString then "API key required"
                     else "Invalid API key").
Proof.
  intros Hkeys. unfold validateApiKey. rewrite split_join by assumption.
  destruct (String.eqb_spec header EmptyString) as [->|Hne]; [reflexivity|].
  cbn [negb andb].
  destruct keys as [|k keys]; [|reflexivity].
  cbn [existsb]. apply String.eqb_neq in Hne. now rewrite Hne.
Qed.

End ApiKeys.

Lemma validateApiKey_accepts_listed_witness :
  ApiKey.validateApiKey (Some "core-banking,sasra-portal"%string)
                        (Some "sasra-portal"%string) =
  ApiKey.Next {| ApiKey.key := "sasra-portal"; ApiKey.type := "external" |}.
Proof.
  exact (validateApiKey_accepts_listed
           ["core-banking"; "sasra-portal"]%string "sasra-portal" eq_refl).
Defined.
